(* ===== verification/_CoqProject ===== *)
-Q . S2P
Prelude.v
JsNumber.v
Canvas.v
Particles.v
FieldEffect.v
View.v
Navigation.v
HeroUi.v
HeroView.v
Timers.v
Contact.v
Projects.v
Tables.v
SectionViews.v
