(* ===== verification/Prelude.v ===== *)
(** * A verification development of the portfolio site's particle field

    The repository is a single-page React portfolio (src/src/components/).
    Its only algorithmic part is the animated particle field drawn on a
    canvas behind each section.  The same [useEffect] body is written five
    times with different constants:
    - [BackgroundFX.tsx] (used by [Contact.tsx]);
    - [Hero.tsx];
    - local copies named [BackgroundFX] in [About.tsx], [Skills.tsx] and
      [Projects.tsx].
    The other components are small pieces of UI state:
    - the rotating description of [Hero.tsx];
    - the CV modal ([CVModal.tsx]) and its lock on the body overflow;
    - the header's menu and scroll flag ([Header.tsx]);
    - the contact form and its simulated submission timers ([Contact.tsx]);
    - the technology icon switch ([Projects.tsx]);
    - the static skill and project tables ([Skills.tsx], [Projects.tsx]).

    ** How the parts interact

    Each particle field is one closure created by a React effect.  It owns:
    - its particles, its pointer and its size;
    - one pending animation-frame request;
    - two window listeners ([resize], [mousemove]).
    The browser calls back into it through these registrations.  The
    effect's cleanup removes them.  No state is shared between sections.

    ** Files

    - [Prelude] (this file): the scope [fx_scope] and a small state monad
      with its notation; shared list lemmas; the hint database [fx].
    - [JsNumber]: JavaScript numbers.  A value is a rational, NaN or an
      infinity; arithmetic follows IEEE-754 on these values.  [Math.hypot]
      is a lower approximation of the square root, exact at integer
      thresholds; [Math.floor], [Math.min], [Math.max] and [||] are modelled.
      Theorems about the component are proved on this model.
    - [Canvas]: the canvas 2D context as the list of calls the code makes
      (a trace of commands), and the browser host: window listeners, the
      animation-frame queue and [Math.random] as a stream.  This models
      the platform, not code of the repository.
    - [Particles]: the renderer, one definition per part of the effect
      body.  A [config] record holds the constants of each of the five
      copies.  It has the density count, particle creation, [resize],
      [onMouseMove], the per-particle update (attraction, Euler step,
      toroidal wrap), the colours, the pair scan for links, the pointer
      lines and the whole frame [step].
    - [FieldEffect]: the effect's lifecycle as a state machine over the
      host.  Mount (with its two early returns), resize, mouse, frame and
      cleanup events are steps; invariants are proved by induction over
      [reachable] states.  The spec's two-state machine (Inactive/Active)
      is an inductive step relation, and the effect refines it.
    - [Navigation]: [Header.tsx] (its scroll effect, [handleScroll], the
      menu toggle, [scrollToSection], the class names) and the footer's
      link table and [scrollToTop].  The page is the list of its elements
      with an id; the window holds its scroll offset, listener count and
      scroll requests.
    - [HeroUi]: [CVModal.tsx] (Module [CVModal]: the effect keyed on
      [isOpen], run by React after the previous cleanup; the early return;
      [handleDownload]) and the state of [Hero.tsx] outside its particle
      field (Module [Hero]: the rotating description's interval, the modal
      toggle, the two scroll buttons), as events on a page record.
    - [View]: what a component renders, as a rose tree of elements (tag,
      the attributes the code sets, the event its [onClick] dispatches,
      children) with its induction principle over [Forall]; collectors for
      links, click handlers, texts and every element; [js_index] (array
      indexing that yields [undefined] out of range).
    - [HeroView]: the JSX of [Hero.tsx] and of [CVModal.tsx], whose
      buttons dispatch the events of [HeroUi.Hero].
    - [Timers]: the browser's [setTimeout] queue as a list of (due time,
      callback) with the earliest due entry first, ties in scheduling
      order.  Platform, not code of the repository.
    - [Contact]: the form of [Contact.tsx]: [formData] as a JavaScript
      object (an ordered association list), [handleChange],
      [handleSubmit] and its two nested timers on the [Timers] queue with a
      clock in milliseconds ([N]), the browser's [required]/[type=email]
      gate (the e-mail rule is a section variable), and the contact
      details table.
    - [Projects]: [projectsData], [getTechIcon] (a switch on
      [toLowerCase], modelled on ASCII), the card each project renders and
      the "Démo" click.
    - [Tables]: the static tables of [Skills.tsx] and [About.tsx] and the
      keys of every list rendered with a data key.
    - [SectionViews]: the JSX of [About.tsx], [Skills.tsx], [Contact.tsx]
      (the controlled inputs, the form or the success message by
      [isSubmitted]), the section around the project cards and
      [Footer.tsx] (the year is a parameter).  Inline styles are kept as
      [style.<key>] attributes in the order of the object's keys, the
      order in which React assigns them; [css_animation_delay] is the
      [animation-delay] an element ends with, the [animation] shorthand
      resetting it.

    ** What the theorems show

    - Density: the particle count is
      [max(min, min(max, floor(w * h / density)))], within each copy's
      bounds.  [resize] builds a fresh array on the canvas; the clamped DPR
      lies in (0, 2] and the canvas backing store is the CSS size times it,
      truncated to an integer as the browser stores [canvas.width].
    - Wrap: a frame puts every non-NaN coordinate inside the 50 px margin.
      A NaN coordinate is never wrapped.  When the pointer sits exactly on
      a particle, [dxm / dm] is [0 / 0], so the particle becomes NaN and
      stays NaN: this is a finding against the spec's wrap invariant.
    - Attraction: far particles keep their velocity; over [n] frames a
      velocity component drifts by at most [n] times the attraction
      strength.  Nothing damps the velocity, so the drift the spec describes
      is real.  The initial pointer attracts nothing.
    - Links: a link is drawn for a pair exactly when its squared distance is
      below the squared link distance, with opacity in (0, alpha].  The
      indexed double loop of the code enumerates each unordered pair once,
      in the same order as a list recursion.
    - Colours: green, blue and opacity stay in their ranges, but the red
      channel [34 + colorMix * 186] ends the "cyan to teal" mix the
      comments announce at [rgb(220, 184, 166)], a beige (a finding).
    - Lifecycle: while running there is exactly one pending frame, the one
      whose id is in [raf], and exactly two listeners.  Cleanup releases
      them all; a stopped field is silent; mount then unmount restores the
      host; a missing canvas or context makes the effect do nothing for
      ever; every event sequence is a run of the spec's machine.
    - Navigation: every header button reaches the section its label names,
      as the footer link with that label does; the scroll listener is
      balanced; [isScrolled] tracks the window after the first scroll, but
      not before it (a finding: the effect never calls [handleScroll]).
    - Hero and CV modal: the body is locked exactly while the modal is open
      and unlocked after unmount; the download link is transient; the
      description index stays within the array and after [n] ticks is
      [n mod 3]; the unmount clears the interval.
    - Contact: a change sets one field; a valid submission shows the
      success message after 1000 ms and resets the form 3000 ms later;
      whenever the mounted form shows the success message a reset is
      pending within 3000 ms (an invariant over any events); the timers
      always drain
      (termination, by a weight that every firing decreases: 2 per pending
      outer callback, 1 per inner one); [formData] keeps its four keys in
      order under any page events (its type).  Findings: a double
      submission erases what is typed after the first reset; the timers
      outlive the unmount.
    - Projects: [getTechIcon] ignores case and only HTML has no dedicated
      icon; every GitHub link ignores the project's [githubUrl] and the
      "Démo" button never opens [demoUrl] (findings).
    - Keys: every list rendered with a data key has distinct keys.
    - Views: in every reachable state the contact form's controls show
      [formData]'s entries in order, never [undefined]; the hero shows a defined
      description and renders the dialog's buttons exactly while the body
      is locked; no link of the page opens a new tab without
      [rel="noopener noreferrer"] and every [https] link opens in one.
      Findings: the page gives three different e-mail addresses (hero,
      contact section, footer placeholder); the staggered delays of the
      About and Skills chips are reset to [0s] by the [animation]
      shorthand set after them.

    ** Bounds, fuel and what is not modelled

    Every definition is structural.  Loops run over the particle list,
    whose length is fixed by [resize], and event sequences are lists.  The
    one fuelled function, [Contact.drain] (fire timers while any is
    pending), needs as much fuel as the queue's weight, which is at most
    2 per submission: [timers_drain] proves that this fuel empties the
    queue.  Not modelled:
    - floating-point rounding (values are exact rationals) and signed zero;
    - [Math.sin], which is a parameter of the frame, bounded by [-1, 1]
      where a theorem needs it;
    - the formatting of colour strings (a colour is a structured value);
    - React's scheduler beyond what the components observe: a state update
      is a render followed by the commit of the effects whose dependencies
      changed, children first;
    - [toLowerCase] beyond ASCII, and the skill bars' [fillBar] animation
      string, whose delay is a floating-point product;
    - CSS classes other than those that depend on state, decorative
      [div]s, the [<style>] blocks and the SVG icons: they carry no
      behaviour.

    ** Plan for later work, in order

    Every component of the repository now has a model, with its markup.
    Next: the pointer
    and resize events delivered while a frame is pending, interleaved in
    any order (the lifecycle theorems already quantify over event
    sequences); a proof that the five configs differ only in the
    constants the spec lists; the skill bars' animation strings with
    IEEE-754 rounding. *)

From Stdlib Require Import List Lia.
Import ListNotations.

Declare Scope fx_scope.
Delimit Scope fx_scope with fx.

Create HintDb fx.
Create Rewrite HintDb fx_rw.

(** ** A state monad for code that threads a mutable environment *)

Definition St (S A : Type) : Type := S -> A * S.

Definition st_ret {S A} (a : A) : St S A := fun s => (a, s).
Definition st_bind {S A B} (m : St S A) (k : A -> St S B) : St S B :=
  fun s => let (a, s') := m s in k a s'.
Definition st_get {S} : St S S := fun s => (s, s).
Definition st_put {S} (s : S) : St S unit := fun _ => (tt, s).
Definition st_modify {S} (f : S -> S) : St S unit := fun s => (tt, f s).

Notation "x <- m ;; k" := (st_bind m (fun x => k))
  (at level 61, m at next level, right associativity) : fx_scope.
Notation "m ;;; k" := (st_bind m (fun _ => k))
  (at level 61, right associativity) : fx_scope.

Open Scope fx_scope.

(** Running [n] times an action that returns a value, collecting them in
    order: [Array.from({length: n}, f)]. *)
Fixpoint st_replicate {S A} (n : nat) (m : St S A) : St S (list A) :=
  match n with
  | O => st_ret []
  | S k => a <- m ;; rest <- st_replicate k m ;; st_ret (a :: rest)
  end.

Lemma st_bind_ret_l {S A B} (a : A) (k : A -> St S B) s :
  st_bind (st_ret a) k s = k a s.
Proof. reflexivity. Qed.

Lemma st_bind_assoc {S A B C} (m : St S A) (k : A -> St S B) (h : B -> St S C) s :
  st_bind (st_bind m k) h s = st_bind m (fun a => st_bind (k a) h) s.
Proof. unfold st_bind. destruct (m s). reflexivity. Qed.

#[export] Hint Rewrite @st_bind_ret_l @st_bind_assoc : fx_rw.

(** [st_replicate] produces exactly [n] values. *)
Lemma st_replicate_length {S A} (n : nat) (m : St S A) s :
  length (fst (st_replicate n m s)) = n.
Proof.
  revert s; induction n as [|n IH]; intros s; [reflexivity|].
  cbn [st_replicate]. unfold st_bind at 1. destruct (m s) as [a s1].
  unfold st_bind. specialize (IH s1).
  destruct (st_replicate n m s1) as [l s2]. cbn in *. now f_equal.
Qed.

(** Every value produced by [st_replicate] satisfies [P] when each run of
    the action, from a state satisfying [I], yields a value satisfying [P]
    and a state satisfying [I]. *)
Lemma st_replicate_Forall {S A} (I : S -> Prop) (P : A -> Prop) (n : nat) (m : St S A) s :
  (forall s0, I s0 -> P (fst (m s0)) /\ I (snd (m s0))) -> I s ->
  Forall P (fst (st_replicate n m s)).
Proof.
  intros Hm. revert s; induction n as [|n IH]; intros s Hs; [constructor|].
  cbn [st_replicate]. unfold st_bind at 1. specialize (Hm s Hs).
  destruct (m s) as [a s1]. unfold st_bind. destruct Hm as [Ha Hs1]. specialize (IH s1 Hs1).
  destruct (st_replicate n m s1) as [l s2]. cbn in *. now constructor.
Qed.

(** A property of the state that each run of the action keeps holds after
    [st_replicate]. *)
Lemma st_replicate_inv {S A} (I : S -> Prop) (n : nat) (m : St S A) s :
  (forall s0, I s0 -> I (snd (m s0))) -> I s -> I (snd (st_replicate n m s)).
Proof.
  intros Hm. revert s; induction n as [|n IH]; intros s Hs; [exact Hs|].
  cbn [st_replicate]. unfold st_bind at 1. specialize (Hm s Hs).
  destruct (m s) as [a s1]. unfold st_bind. specialize (IH s1 Hm).
  destruct (st_replicate n m s1) as [l s2]. exact IH.
Qed.

(** [st_replicate] gives the same values from two states that the action
    cannot tell apart. *)
Lemma st_replicate_rel {S A} (R : S -> S -> Prop) (n : nat) (m : St S A) s1 s2 :
  (forall a b, R a b -> fst (m a) = fst (m b) /\ R (snd (m a)) (snd (m b))) -> R s1 s2 ->
  fst (st_replicate n m s1) = fst (st_replicate n m s2).
Proof.
  intros Hm. revert s1 s2; induction n as [|n IH]; intros s1 s2 Hs; [reflexivity|].
  cbn [st_replicate]. unfold st_bind at 1 3. specialize (Hm s1 s2 Hs).
  destruct (m s1) as [a1 t1], (m s2) as [a2 t2]. cbn in Hm. destruct Hm as [<- Ht].
  unfold st_bind. specialize (IH t1 t2 Ht).
  destruct (st_replicate n m t1) as [l1 u1], (st_replicate n m t2) as [l2 u2].
  cbn in *. now subst.
Qed.

(** ** Shared list lemmas *)

Lemma flat_map_app {A B} (f : A -> list B) (l1 l2 : list A) :
  flat_map f (l1 ++ l2) = flat_map f l1 ++ flat_map f l2.
Proof. induction l1 as [|a l IH]; cbn; [reflexivity|]. now rewrite IH, app_assoc. Qed.

Lemma flat_map_ext_in {A B} (f g : A -> list B) (l : list A) :
  (forall a, In a l -> f a = g a) -> flat_map f l = flat_map g l.
Proof.
  induction l as [|a l IH]; intros H; cbn; [reflexivity|].
  rewrite H by now left. now rewrite IH by (intros; apply H; now right).
Qed.

Lemma flat_map_nil_iff {A B} (f : A -> list B) (l : list A) :
  flat_map f l = [] <-> Forall (fun a => f a = []) l.
Proof.
  induction l as [|a l IH]; cbn; [split; auto|].
  rewrite Forall_cons_iff, <- IH. split.
  - intros H. apply app_eq_nil in H. tauto.
  - intros [-> ->]. reflexivity.
Qed.

Lemma Forall_map_iff {A B} (P : B -> Prop) (f : A -> B) (l : list A) :
  Forall P (map f l) <-> Forall (fun a => P (f a)) l.
Proof.
  induction l as [|a l IH]; cbn; [split; constructor|].
  rewrite !Forall_cons_iff, IH. reflexivity.
Qed.

#[export] Hint Rewrite @flat_map_app @Forall_map_iff : fx_rw.

(** Removing every occurrence of an element, as [removeEventListener] and
    [cancelAnimationFrame] do on the host's registrations. *)
Definition remove_all {A} (eqb : A -> A -> bool) (a : A) (l : list A) : list A :=
  filter (fun b => negb (eqb a b)) l.

Lemma remove_all_idem {A} (eqb : A -> A -> bool) a (l : list A) :
  remove_all eqb a (remove_all eqb a l) = remove_all eqb a l.
Proof.
  unfold remove_all. induction l as [|b l IH]; cbn; [reflexivity|].
  destruct (eqb a b) eqn:E; cbn; [exact IH|]. rewrite E. cbn. now rewrite IH.
Qed.

#[export] Hint Rewrite @remove_all_idem : fx_rw.

Lemma flat_map_map {A B C} (f : B -> list C) (g : A -> B) (l : list A) :
  flat_map f (map g l) = flat_map (fun a => f (g a)) l.
Proof. induction l as [|a l IH]; cbn; [reflexivity|]. now rewrite IH. Qed.

(** A loop over the indices of [l] that looks each element up is a loop
    over the elements. *)
Lemma flat_map_nth_seq {A B} (g : A -> list B) (l : list A) :
  flat_map (fun j => match nth_error l j with Some b => g b | None => [] end)
           (seq 0 (length l)) = flat_map g l.
Proof.
  induction l as [|a l IH]; [reflexivity|]. cbn [length seq flat_map nth_error].
  rewrite <- seq_shift, flat_map_map. cbn [nth_error]. now rewrite IH.
Qed.

(** Every pair [(l[i], l[j])] with [i < j], in the order of two nested
    loops over [i] and [j]. *)
Fixpoint unordered_pairs {A} (l : list A) : list (A * A) :=
  match l with
  | [] => []
  | a :: r => map (fun b => (a, b)) r ++ unordered_pairs r
  end.

Lemma unordered_pairs_length {A} (l : list A) :
  2 * length (unordered_pairs l) = length l * (length l - 1).
Proof.
  induction l as [|a l IH]; [reflexivity|]. cbn [unordered_pairs length].
  rewrite length_app, length_map. destruct l as [|b l]; [reflexivity|].
  cbn [length] in *. nia.
Qed.

#[export] Hint Rewrite @flat_map_map @flat_map_nth_seq : fx_rw.

Lemma remove_all_comm {A} (eqb : A -> A -> bool) a b (l : list A) :
  remove_all eqb a (remove_all eqb b l) = remove_all eqb b (remove_all eqb a l).
Proof.
  unfold remove_all. induction l as [|x l IH]; [reflexivity|]. cbn.
  destruct (eqb a x) eqn:Ea, (eqb b x) eqn:Eb; cbn; rewrite ?Ea, ?Eb; cbn; now rewrite ?IH.
Qed.

Lemma remove_all_app {A} (eqb : A -> A -> bool) a (l1 l2 : list A) :
  remove_all eqb a (l1 ++ l2) = remove_all eqb a l1 ++ remove_all eqb a l2.
Proof. apply filter_app. Qed.

Lemma remove_all_notin {A} (eqb : A -> A -> bool) a (l : list A) :
  existsb (eqb a) l = false -> remove_all eqb a l = l.
Proof.
  unfold remove_all. induction l as [|b l IH]; cbn; [reflexivity|].
  intros H. apply Bool.orb_false_iff in H as [Hb Hl]. rewrite Hb. cbn. now rewrite IH.
Qed.

#[export] Hint Rewrite @remove_all_app : fx_rw.

Lemma nth_error_lt {A} (l : list A) (n : nat) :
  (n < length l)%nat -> exists x, nth_error l n = Some x.
Proof.
  intros H. destruct (nth_error l n) as [x|] eqn:E; [eauto|].
  apply nth_error_None in E. lia.
Qed.

Lemma Forall_snoc {A} (P : A -> Prop) (l : list A) (x : A) :
  Forall P l -> P x -> Forall P (l ++ [x]).
Proof. intros Hl Hx. apply Forall_app. split; [exact Hl|constructor; [exact Hx|constructor]]. Qed.

(** A boolean duplicate check, for the keys React requires unique. *)
Fixpoint nodupb {A} (eqb : A -> A -> bool) (l : list A) : bool :=
  match l with
  | [] => true
  | a :: l' => negb (existsb (eqb a) l') && nodupb eqb l'
  end.

Lemma forallb_In {A} (f : A -> bool) (l : list A) (a : A) :
  forallb f l = true -> In a l -> f a = true.
Proof. rewrite forallb_forall. auto. Qed.

Lemma nodupb_NoDup {A} (eqb : A -> A -> bool) (l : list A) :
  (forall a b, eqb a b = true <-> a = b) -> nodupb eqb l = true -> NoDup l.
Proof.
  intros Heq. induction l as [|a l IH]; cbn; intros H; [constructor|].
  apply andb_prop in H as [Hn Hl]. constructor; [|exact (IH Hl)].
  intros Hin. apply Bool.negb_true_iff in Hn. apply Bool.not_true_iff_false in Hn.
  apply Hn, existsb_exists. exists a. split; [exact Hin|]. now apply Heq.
Qed.
