(* ===== verification/JsNumber.v ===== *)
(** JavaScript numbers as the components use them.  A value is a rational
    (the exact value, no rounding), NaN or an infinity; the operations
    follow IEEE-754 on these values, signed zero apart.  [Math.hypot] is a
    lower approximation of the square root at resolution [1 / (d * 2^20)],
    exact for thresholds that are integers, never below either coordinate;
    [Math.PI] is the exact rational value of the double. *)

From Stdlib Require Import QArith Qround Qminmax Qabs Lqa ZArith Lia.
From Stdlib Require Import Morphisms RelationClasses Setoid.
From S2P Require Import Prelude.

Inductive num : Type :=
| Fin (q : Q)
| NaN
| PosInf
| NegInf.

Definition num_of_Z (z : Z) : num := Fin (inject_Z z).

(** ** Boolean comparisons on rationals *)

Definition qltb (a b : Q) : bool :=
  match (a ?= b)%Q with Lt => true | _ => false end.

Lemma qltb_iff a b : qltb a b = true <-> (a < b)%Q.
Proof. rewrite Qlt_alt. unfold qltb. destruct (a ?= b)%Q; split; congruence. Qed.

Lemma qltb_false a b : qltb a b = false <-> (b <= a)%Q.
Proof.
  split; intros H.
  - apply Qnot_lt_le. intros Hlt. apply qltb_iff in Hlt. congruence.
  - destruct (qltb a b) eqn:E; [|reflexivity].
    apply qltb_iff in E. exfalso. exact (Qlt_not_le _ _ E H).
Qed.

Lemma qeqb_false a b : Qeq_bool a b = false <-> ~ (a == b)%Q.
Proof.
  split; intros H.
  - intros Heq. apply Qeq_bool_iff in Heq. congruence.
  - destruct (Qeq_bool a b) eqn:E; [|reflexivity].
    apply Qeq_bool_iff in E. contradiction.
Qed.

(** Case analysis on the boolean comparisons of the goal. *)
Ltac qcase :=
  match goal with
  | |- context [qltb ?a ?b] =>
      let E := fresh "Hlt" in
      destruct (qltb a b) eqn:E; [apply qltb_iff in E | apply qltb_false in E]
  | |- context [Qeq_bool ?a ?b] =>
      let E := fresh "Heq" in
      destruct (Qeq_bool a b) eqn:E; [apply Qeq_bool_iff in E | apply qeqb_false in E]
  end.

(** ** Arithmetic *)

Definition inf_of_sign (pos : bool) : num := if pos then PosInf else NegInf.

Definition nneg (x : num) : num :=
  match x with
  | Fin a => Fin (- a)
  | NaN => NaN
  | PosInf => NegInf
  | NegInf => PosInf
  end.

Definition nadd (x y : num) : num :=
  match x, y with
  | Fin a, Fin b => Fin (a + b)
  | NaN, _ | _, NaN => NaN
  | PosInf, NegInf | NegInf, PosInf => NaN
  | PosInf, _ | _, PosInf => PosInf
  | NegInf, _ | _, NegInf => NegInf
  end.

Definition nsub (x y : num) : num := nadd x (nneg y).

Definition nmul (x y : num) : num :=
  match x, y with
  | Fin a, Fin b => Fin (a * b)
  | NaN, _ | _, NaN => NaN
  | Fin a, PosInf | PosInf, Fin a =>
      if Qeq_bool a 0 then NaN else inf_of_sign (qltb 0 a)
  | Fin a, NegInf | NegInf, Fin a =>
      if Qeq_bool a 0 then NaN else inf_of_sign (qltb a 0)
  | PosInf, PosInf | NegInf, NegInf => PosInf
  | _, _ => NegInf
  end.

(** Division; a zero divisor is [+0]. *)
Definition ndiv (x y : num) : num :=
  match x, y with
  | Fin a, Fin b =>
      if Qeq_bool b 0
      then (if Qeq_bool a 0 then NaN else inf_of_sign (qltb 0 a))
      else Fin (a / b)
  | NaN, _ | _, NaN => NaN
  | Fin _, _ => Fin 0
  | PosInf, Fin b => inf_of_sign (negb (qltb b 0))
  | NegInf, Fin b => inf_of_sign (qltb b 0)
  | _, _ => NaN
  end.

(** [x < y]; every comparison with NaN is false. *)
Definition nlt (x y : num) : bool :=
  match x, y with
  | Fin a, Fin b => qltb a b
  | NegInf, (Fin _ | PosInf) => true
  | Fin _, PosInf => true
  | _, _ => false
  end.

Definition ngt (x y : num) : bool := nlt y x.

(** [Math.min] and [Math.max] on two arguments. *)
Definition nmin (x y : num) : num :=
  match x, y with
  | NaN, _ | _, NaN => NaN
  | _, _ => if nlt y x then y else x
  end.

Definition nmax (x y : num) : num :=
  match x, y with
  | NaN, _ | _, NaN => NaN
  | _, _ => if nlt x y then y else x
  end.

Definition nfloor (x : num) : num :=
  match x with
  | Fin a => Fin (inject_Z (Qfloor a))
  | _ => x
  end.

(** WebIDL's [ToUnsignedLong], the conversion of a number assigned to an
    [unsigned long] attribute: [0] for NaN and the infinities, otherwise
    the value truncated toward zero, modulo [2^32]. *)
Definition to_unsigned_long (x : num) : Z :=
  match x with
  | Fin a => (if Qle_bool 0 a then Qfloor a else - Qfloor (- a))%Z mod 4294967296
  | _ => 0%Z
  end.

(** [x || d] on a number: [0] and NaN are falsy. *)
Definition nor_default (x d : num) : num :=
  match x with
  | Fin a => if Qeq_bool a 0 then d else x
  | NaN => d
  | _ => x
  end.

(** [Math.sin] is transcendental: the code receives it as a function on
    the finite values. *)
Definition nsin (sin : Q -> Q) (x : num) : num :=
  match x with
  | Fin a => Fin (sin a)
  | _ => NaN
  end.

(** The double nearest to pi, as an exact rational. *)
Definition math_PI : num := Fin (884279719003555 # 281474976710656).

(** ** [Math.hypot] *)

Definition hypot_res : positive := 1048576.

(** The integer square root of [s], at resolution [1 / (den s * 2^20)],
    rounded down. *)
Definition qsqrt_lower (s : Q) : Q :=
  let s := Qred s in
  Z.sqrt (Qnum s * Zpos (Qden s) * Zpos hypot_res * Zpos hypot_res)
    # (Qden s * hypot_res).

Definition qhypot (a b : Q) : Q :=
  Qmax (Qmax (Qabs a) (Qabs b)) (qsqrt_lower (a * a + b * b)).

Definition nhypot (x y : num) : num :=
  match x, y with
  | (PosInf | NegInf), _ | _, (PosInf | NegInf) => PosInf
  | NaN, _ | _, NaN => NaN
  | Fin a, Fin b => Fin (qhypot a b)
  end.

(** ** [ToLength] and [Array.from({length: n})] *)

(** [Some n] is the array length; [None] is the [RangeError] of
    [new Array(len)] for a length above [2^32 - 1]. *)
Definition array_length (x : num) : option nat :=
  let len :=
    match x with
    | Fin a => Z.max 0 (Qfloor a)
    | PosInf => 9007199254740991%Z
    | _ => 0%Z
    end in
  if (4294967295 <? len)%Z then None else Some (Z.to_nat len).

(** ** Predicates *)

Definition is_nan (x : num) : bool := match x with NaN => true | _ => false end.

(** [x] is finite and lies in [[lo, hi]]. *)
Definition in_range (lo hi : Q) (x : num) : Prop :=
  match x with Fin a => (lo <= a <= hi)%Q | _ => False end.

(** The model's equality: the same rational, or the same special value. *)
Definition num_eq (x y : num) : Prop :=
  match x, y with
  | Fin a, Fin b => (a == b)%Q
  | NaN, NaN | PosInf, PosInf | NegInf, NegInf => True
  | _, _ => False
  end.

Lemma qsqrt_lower_lt_aux (n : Z) (d : positive) (c : Z) :
  (0 <= n)%Z -> (0 <= c)%Z ->
  ((Z.sqrt (n * Zpos d * Zpos hypot_res * Zpos hypot_res) # (d * hypot_res)) < inject_Z c)%Q
  <-> ((n # d) < inject_Z (c * c))%Q.
Proof.
  intros Hn Hc. unfold Qlt, inject_Z; cbn [Qnum Qden].
  rewrite Pos2Z.inj_mul, !Z.mul_1_r.
  assert (HR : (0 < Zpos hypot_res)%Z) by reflexivity.
  assert (HD : (0 < Zpos d)%Z) by reflexivity.
  generalize dependent (Zpos hypot_res); generalize dependent (Zpos d); intros D HD R HR.
  rewrite <- Z.sqrt_lt_square by nia.
  replace (c * (D * R) * (c * (D * R)))%Z with (c * c * D * (D * R * R))%Z by ring.
  replace (n * D * R * R)%Z with (n * (D * R * R))%Z by ring.
  rewrite <- Z.mul_lt_mono_pos_r by nia. reflexivity.
Qed.

Lemma qsqrt_lower_lt (s : Q) (c : Z) :
  (0 <= s)%Q -> (0 <= c)%Z ->
  (qsqrt_lower s < inject_Z c)%Q <-> (s < inject_Z (c * c))%Q.
Proof.
  intros Hs Hc. unfold qsqrt_lower. cbv zeta.
  assert (Hr : (Qred s == s)%Q) by apply Qred_correct.
  assert (E : (s < inject_Z (c * c))%Q <-> (Qred s < inject_Z (c * c))%Q)
    by (rewrite Hr; reflexivity).
  rewrite E. assert (Hn : (0 <= Qred s)%Q) by (rewrite Hr; exact Hs).
  destruct (Qred s) as [n d]. apply qsqrt_lower_lt_aux; [|exact Hc].
  unfold Qle in Hn. cbn in Hn. lia.
Qed.

Lemma qsqrt_lower_nonneg (s : Q) : (0 <= qsqrt_lower s)%Q.
Proof.
  unfold qsqrt_lower, Qle. cbn. rewrite Z.mul_1_r. apply Z.sqrt_nonneg.
Qed.

Lemma qhypot_lt (a b : Q) (c : Z) :
  (0 <= c)%Z -> (qhypot a b < inject_Z c)%Q <-> (a * a + b * b < inject_Z (c * c))%Q.
Proof.
  intros Hc. unfold qhypot.
  rewrite !Q.max_lub_lt_iff, !Qabs_Qlt_condition, qsqrt_lower_lt by (nra || lia).
  assert (HC : (0 <= inject_Z c)%Q) by (unfold Qle; cbn; lia).
  rewrite inject_Z_mult.
  split; [tauto|]. intros H; repeat split; nra.
Qed.

Lemma qhypot_abs_l (a b : Q) : (Qabs a <= qhypot a b)%Q.
Proof.
  unfold qhypot. eapply Qle_trans; [apply Q.le_max_l|]. apply Q.le_max_l.
Qed.

Lemma qhypot_abs_r (a b : Q) : (Qabs b <= qhypot a b)%Q.
Proof.
  unfold qhypot. eapply Qle_trans; [apply Q.le_max_r|]. apply Q.le_max_l.
Qed.

Lemma qhypot_nonneg (a b : Q) : (0 <= qhypot a b)%Q.
Proof. eapply Qle_trans; [apply Qabs_nonneg|apply qhypot_abs_l]. Qed.

Lemma qsqrt_lower_compat (s s' : Q) : (s == s')%Q -> qsqrt_lower s = qsqrt_lower s'.
Proof. intros H. unfold qsqrt_lower. now rewrite (Qred_complete s s' H). Qed.

#[export] Instance qhypot_proper : Proper (Qeq ==> Qeq ==> Qeq) qhypot.
Proof.
  intros a a' Ha b b' Hb. unfold qhypot.
  rewrite (qsqrt_lower_compat (a * a + b * b) (a' * a' + b' * b'))
    by (now rewrite Ha, Hb).
  now rewrite Ha, Hb.
Qed.

Lemma qhypot_zero (a b : Q) : (a == 0)%Q -> (b == 0)%Q -> (qhypot a b == 0)%Q.
Proof. intros -> ->. reflexivity. Qed.

Lemma qhypot_pos (a b : Q) : ~ (a == 0)%Q \/ ~ (b == 0)%Q -> (0 < qhypot a b)%Q.
Proof.
  intros H. apply Qnot_le_lt. intros Hle.
  assert (Habs : forall x, (Qabs x <= 0)%Q -> (x == 0)%Q)
    by (intros x Hx; apply Qabs_Qle_condition in Hx; lra).
  pose proof (qhypot_abs_l a b). pose proof (qhypot_abs_r a b).
  destruct H as [H|H]; apply H, Habs; lra.
Qed.

(** A coordinate divided by the hypotenuse lies in [[-1, 1]]. *)
Lemma qhypot_div_bound (a b : Q) :
  (0 < qhypot a b)%Q -> (Qabs (a / qhypot a b) <= 1)%Q.
Proof.
  intros Hh. pose proof (qhypot_abs_l a b) as Ha.
  unfold Qdiv. rewrite Qabs_Qmult, Qabs_Qinv, (Qabs_pos (qhypot a b)) by lra.
  apply Qle_shift_div_r; lra.
Qed.

(** ** The model's equality is a setoid the operations respect *)

#[export] Instance num_eq_equiv : Equivalence num_eq.
Proof.
  split.
  - intros []; cbn; auto; reflexivity.
  - intros [] []; cbn; auto; intros H; now symmetry.
  - intros [] [] []; cbn; try tauto; intros H1 H2; now rewrite H1.
Qed.

#[export] Instance qltb_proper : Proper (Qeq ==> Qeq ==> eq) qltb.
Proof.
  intros a a' Ha b b' Hb.
  destruct (qltb a' b') eqn:E; [apply qltb_iff in E|apply qltb_false in E];
    [apply qltb_iff|apply qltb_false]; now rewrite Ha, Hb.
Qed.

#[export] Instance Qeq_bool_proper : Proper (Qeq ==> Qeq ==> eq) Qeq_bool.
Proof.
  intros a a' Ha b b' Hb.
  destruct (Qeq_bool a' b') eqn:E; [apply Qeq_bool_iff in E|apply qeqb_false in E];
    [apply Qeq_bool_iff|apply qeqb_false]; now rewrite Ha, Hb.
Qed.

#[export] Instance Fin_proper : Proper (Qeq ==> num_eq) Fin.
Proof. intros a b H. exact H. Qed.

Ltac num_cases :=
  repeat match goal with x : num |- _ => destruct x end;
  cbn in *; try contradiction; try exact I.

#[export] Instance nneg_proper : Proper (num_eq ==> num_eq) nneg.
Proof. intros x x' Hx. num_cases. now rewrite Hx. Qed.

#[export] Instance nadd_proper : Proper (num_eq ==> num_eq ==> num_eq) nadd.
Proof. intros x x' Hx y y' Hy. num_cases; now rewrite ?Hx, ?Hy. Qed.

#[export] Instance nsub_proper : Proper (num_eq ==> num_eq ==> num_eq) nsub.
Proof. intros x x' Hx y y' Hy. unfold nsub. now rewrite Hx, Hy. Qed.

#[export] Instance nmul_proper : Proper (num_eq ==> num_eq ==> num_eq) nmul.
Proof. intros x x' Hx y y' Hy. num_cases; now rewrite ?Hx, ?Hy. Qed.

#[export] Instance ndiv_proper : Proper (num_eq ==> num_eq ==> num_eq) ndiv.
Proof.
  intros x x' Hx y y' Hy. num_cases; rewrite ?Hx, ?Hy;
    repeat destruct (Qeq_bool _ _); cbn; now rewrite ?Hx, ?Hy.
Qed.

#[export] Instance nlt_proper : Proper (num_eq ==> num_eq ==> eq) nlt.
Proof. intros x x' Hx y y' Hy. num_cases; now rewrite ?Hx, ?Hy. Qed.

#[export] Instance nhypot_proper : Proper (num_eq ==> num_eq ==> num_eq) nhypot.
Proof. intros x x' Hx y y' Hy. num_cases; now rewrite ?Hx, ?Hy. Qed.

#[export] Instance nfloor_proper : Proper (num_eq ==> num_eq) nfloor.
Proof. intros x x' Hx. num_cases. now rewrite (Qfloor_comp _ _ Hx). Qed.

#[export] Instance in_range_proper : Proper (Qeq ==> Qeq ==> num_eq ==> iff) in_range.
Proof.
  intros lo lo' Hlo hi hi' Hhi x x' Hx. num_cases; try tauto.
  now rewrite Hlo, Hhi, Hx.
Qed.

#[export] Hint Resolve qhypot_nonneg qhypot_abs_l qhypot_abs_r qsqrt_lower_nonneg : fx.

Lemma qhypot_comm (a b : Q) : (qhypot a b == qhypot b a)%Q.
Proof.
  unfold qhypot. rewrite (Q.max_comm (Qabs a)).
  now rewrite (qsqrt_lower_compat (a * a + b * b) (b * b + a * a)) by ring.
Qed.

#[export] Instance nmin_proper : Proper (num_eq ==> num_eq ==> num_eq) nmin.
Proof.
  intros x x' Hx y y' Hy. unfold nmin.
  num_cases; rewrite ?Hx, ?Hy; repeat destruct (qltb _ _); cbn; now rewrite ?Hx, ?Hy.
Qed.

#[export] Instance nmax_proper : Proper (num_eq ==> num_eq ==> num_eq) nmax.
Proof.
  intros x x' Hx y y' Hy. unfold nmax.
  num_cases; rewrite ?Hx, ?Hy; repeat destruct (qltb _ _); cbn; now rewrite ?Hx, ?Hy.
Qed.

#[export] Instance array_length_proper : Proper (num_eq ==> eq) array_length.
Proof.
  intros x x' Hx. unfold array_length. num_cases; try reflexivity.
  now rewrite (Qfloor_comp _ _ Hx).
Qed.

Lemma qltb_Z (a b : Z) : qltb (inject_Z a) (inject_Z b) = (a <? b)%Z.
Proof.
  destruct (Z.ltb_spec a b) as [H|H].
  - apply qltb_iff. now rewrite <- Zlt_Qlt.
  - apply qltb_false. now rewrite <- Zle_Qle.
Qed.

Lemma nmin_Z (a b : Z) : nmin (num_of_Z a) (num_of_Z b) = num_of_Z (Z.min a b).
Proof.
  unfold nmin, num_of_Z. cbn [nlt]. rewrite qltb_Z.
  destruct (Z.ltb_spec b a); f_equal; f_equal; lia.
Qed.

Lemma nmax_Z (a b : Z) : nmax (num_of_Z a) (num_of_Z b) = num_of_Z (Z.max a b).
Proof.
  unfold nmax, num_of_Z. cbn [nlt]. rewrite qltb_Z.
  destruct (Z.ltb_spec a b); f_equal; f_equal; lia.
Qed.

Lemma nfloor_fin (q : Q) : nfloor (Fin q) = num_of_Z (Qfloor q).
Proof. reflexivity. Qed.

Lemma array_length_Z (z : Z) :
  (0 <= z <= 4294967295)%Z -> array_length (num_of_Z z) = Some (Z.to_nat z).
Proof.
  intros Hz. unfold array_length, num_of_Z. rewrite Qfloor_Z.
  replace (Z.max 0 z) with z by lia.
  destruct (Z.ltb_spec 4294967295 z); [lia|reflexivity].
Qed.

Lemma ndiv_fin (a b : Q) : ~ (b == 0)%Q -> ndiv (Fin a) (Fin b) = Fin (a / b).
Proof. intros Hb. unfold ndiv. now rewrite (proj2 (qeqb_false b 0) Hb). Qed.

#[export] Hint Rewrite nmin_Z nmax_Z nfloor_fin : fx_rw.

(** [Math.floor] of a value equal to an integer. *)
Lemma nfloor_Qeq (x : Q) (z : Z) : (x == inject_Z z)%Q -> nfloor (Fin x) = Fin (inject_Z z).
Proof. intros H. cbn. now rewrite (Qfloor_comp _ _ H), Qfloor_Z. Qed.

(** A non-negative value below [2^32] converts to its floor. *)
Lemma to_unsigned_long_fin (q : Q) :
  (0 <= q < 4294967296)%Q -> to_unsigned_long (Fin q) = Qfloor q.
Proof.
  intros [H0 H1]. unfold to_unsigned_long. rewrite (proj2 (Qle_bool_iff 0 q) H0).
  apply Z.mod_small. split.
  - rewrite <- (Qfloor_Z 0). now apply Qfloor_resp_le.
  - rewrite Zlt_Qlt. eapply Qle_lt_trans; [apply Qfloor_le|exact H1].
Qed.

(** [Math.floor] keeps a value between two integers between them. *)
Lemma nfloor_range (x : Q) (lo hi : Z) :
  (inject_Z lo <= x <= inject_Z hi)%Q -> in_range (inject_Z lo) (inject_Z hi) (nfloor (Fin x)).
Proof.
  intros [Hlo Hhi]. cbn. split.
  - rewrite <- Zle_Qle. rewrite <- (Qfloor_Z lo). now apply Qfloor_resp_le.
  - eapply Qle_trans; [apply Qfloor_le|exact Hhi].
Qed.
