(* ===== verification/Canvas.v ===== *)
(** The platform the components run on, as the code uses it.
    - The canvas 2D context is the list of calls made on it, in order
      ([cmd]).
    - The window has its size, its device pixel ratio and its event
      listeners.  [addEventListener] ignores a pair that is already
      registered; [removeEventListener] removes it.
    - The animation-frame queue holds numbered requests.
      [cancelAnimationFrame] removes an id, and does nothing for an id
      that is not pending.
    - [Math.random] is a stream of rationals read in order.
    - [canvas.width] and [canvas.height] are [unsigned long] attributes:
      an assigned number is truncated ([ToUnsignedLong]) and a value above
      [2^31 - 1] gives the default (300 by 150).
    This is the browser, modelled from its documented behaviour; it is not
    code of the repository.  The host is threaded through the state monad
    of [Prelude]. *)

From Stdlib Require Import QArith Qround ZArith List Arith Lia.
From S2P Require Import Prelude JsNumber.
Import ListNotations.

(** A colour [rgba(r,g,b,a)] as the code's template strings build it. *)
Record rgba : Type := RGBA { red : num; green : num; blue : num; alpha : num }.

Inductive cmd : Type :=
| SetTransform (a b c d e f : num)
| ClearRect (x y w h : num)
| BeginPath
| Arc (x y r start stop : num)
| FillStyle (c : rgba)
| Fill
| StrokeStyle (c : rgba)
| LineWidth (w : num)
| MoveTo (x y : num)
| LineTo (x y : num)
| Stroke.

(** The window events the particle fields listen to. *)
Inductive listener : Type := OnResize | OnMouseMove.

Definition listener_eqb (a b : listener) : bool :=
  match a, b with
  | OnResize, OnResize | OnMouseMove, OnMouseMove => true
  | _, _ => false
  end.

(** The canvas element: its backing size (the [width] and [height]
    content attributes, integers) and its CSS size, as assigned. *)
Record canvas : Type := {
  cv_width : Z;
  cv_height : Z;
  cv_style_width : num;
  cv_style_height : num
}.

Record host : Type := {
  h_inner_width : num;
  h_inner_height : num;
  h_device_pixel_ratio : num;
  h_random : nat -> Q;
  h_random_pos : nat;
  h_next_frame : nat;
  h_pending : list nat;
  h_listeners : list listener;
  h_canvas : canvas;
  h_log : list cmd
}.

Definition with_random_pos (h : host) (n : nat) : host :=
  {| h_inner_width := h_inner_width h; h_inner_height := h_inner_height h;
     h_device_pixel_ratio := h_device_pixel_ratio h;
     h_random := h_random h; h_random_pos := n;
     h_next_frame := h_next_frame h; h_pending := h_pending h;
     h_listeners := h_listeners h; h_canvas := h_canvas h; h_log := h_log h |}.

Definition with_frames (h : host) (next : nat) (pending : list nat) : host :=
  {| h_inner_width := h_inner_width h; h_inner_height := h_inner_height h;
     h_device_pixel_ratio := h_device_pixel_ratio h;
     h_random := h_random h; h_random_pos := h_random_pos h;
     h_next_frame := next; h_pending := pending;
     h_listeners := h_listeners h; h_canvas := h_canvas h; h_log := h_log h |}.

Definition with_listeners (h : host) (ls : list listener) : host :=
  {| h_inner_width := h_inner_width h; h_inner_height := h_inner_height h;
     h_device_pixel_ratio := h_device_pixel_ratio h;
     h_random := h_random h; h_random_pos := h_random_pos h;
     h_next_frame := h_next_frame h; h_pending := h_pending h;
     h_listeners := ls; h_canvas := h_canvas h; h_log := h_log h |}.

Definition with_canvas (h : host) (c : canvas) : host :=
  {| h_inner_width := h_inner_width h; h_inner_height := h_inner_height h;
     h_device_pixel_ratio := h_device_pixel_ratio h;
     h_random := h_random h; h_random_pos := h_random_pos h;
     h_next_frame := h_next_frame h; h_pending := h_pending h;
     h_listeners := h_listeners h; h_canvas := c; h_log := h_log h |}.

Definition with_log (h : host) (log : list cmd) : host :=
  {| h_inner_width := h_inner_width h; h_inner_height := h_inner_height h;
     h_device_pixel_ratio := h_device_pixel_ratio h;
     h_random := h_random h; h_random_pos := h_random_pos h;
     h_next_frame := h_next_frame h; h_pending := h_pending h;
     h_listeners := h_listeners h; h_canvas := h_canvas h; h_log := log |}.

(** ** Host operations *)

Definition window_inner_width : St host num := fun h => (h_inner_width h, h).
Definition window_inner_height : St host num := fun h => (h_inner_height h, h).
Definition window_device_pixel_ratio : St host num :=
  fun h => (h_device_pixel_ratio h, h).

Definition math_random : St host num :=
  fun h => (Fin (h_random h (h_random_pos h)), with_random_pos h (S (h_random_pos h))).

Definition request_animation_frame : St host nat :=
  fun h => (h_next_frame h,
            with_frames h (S (h_next_frame h)) (h_pending h ++ [h_next_frame h])).

Definition cancel_animation_frame (id : nat) : St host unit :=
  fun h => (tt, with_frames h (h_next_frame h) (remove_all Nat.eqb id (h_pending h))).

Definition add_event_listener (l : listener) : St host unit :=
  fun h => (tt, if existsb (listener_eqb l) (h_listeners h) then h
                else with_listeners h (h_listeners h ++ [l])).

Definition remove_event_listener (l : listener) : St host unit :=
  fun h => (tt, with_listeners h (remove_all listener_eqb l (h_listeners h))).

(** Assigning a reflected [unsigned long] attribute: the number is
    converted by [ToUnsignedLong]; a result above [2^31 - 1] sets the
    attribute's default instead (HTML, reflection of [unsigned long]). *)
Definition reflect_unsigned (default : Z) (x : num) : Z :=
  let n := to_unsigned_long x in if (n <=? 2147483647)%Z then n else default.

(** [canvas.width = w; canvas.height = hgt]: the defaults are 300 and
    150. *)
Definition set_canvas_size (w hgt : num) : St host unit :=
  fun h => (tt, with_canvas h {| cv_width := reflect_unsigned 300 w;
                                  cv_height := reflect_unsigned 150 hgt;
                                  cv_style_width := cv_style_width (h_canvas h);
                                  cv_style_height := cv_style_height (h_canvas h) |}).

Definition set_canvas_style (w hgt : num) : St host unit :=
  fun h => (tt, with_canvas h {| cv_width := cv_width (h_canvas h);
                                  cv_height := cv_height (h_canvas h);
                                  cv_style_width := w; cv_style_height := hgt |}).

Definition draw_all (cs : list cmd) : St host unit :=
  fun h => (tt, with_log h (h_log h ++ cs)).

Definition draw (c : cmd) : St host unit := draw_all [c].

(** The host delivers a frame to a pending request and forgets it. *)
Definition take_frame (id : nat) (h : host) : option host :=
  if existsb (Nat.eqb id) (h_pending h)
  then Some (with_frames h (h_next_frame h) (remove_all Nat.eqb id (h_pending h)))
  else None.

Definition has_listener (l : listener) (h : host) : bool :=
  existsb (listener_eqb l) (h_listeners h).

(** The browser resizes the window. *)
Definition set_window_size (w hgt : num) : St host unit :=
  fun h => (tt, {| h_inner_width := w; h_inner_height := hgt;
                   h_device_pixel_ratio := h_device_pixel_ratio h;
                   h_random := h_random h; h_random_pos := h_random_pos h;
                   h_next_frame := h_next_frame h; h_pending := h_pending h;
                   h_listeners := h_listeners h; h_canvas := h_canvas h; h_log := h_log h |}).

(** ** Lemmas *)

(** A size in [[0, 2^31)] is stored as its floor. *)
Lemma reflect_unsigned_fin (dflt : Z) (q : Q) :
  (0 <= q < 2147483648)%Q -> reflect_unsigned dflt (Fin q) = Qfloor q.
Proof.
  intros [H0 H1]. unfold reflect_unsigned.
  rewrite to_unsigned_long_fin by (split; [exact H0|eapply Qlt_trans; [exact H1|reflexivity]]).
  assert (Hf : (Qfloor q < 2147483648)%Z)
    by (rewrite Zlt_Qlt; eapply Qle_lt_trans; [apply Qfloor_le|exact H1]).
  destruct (Z.leb_spec (Qfloor q) 2147483647); [reflexivity|lia].
Qed.
