(* ===== verification/Particles.v ===== *)
(** The particle field renderer: the body of the [useEffect] in
    [BackgroundFX.tsx], [Hero.tsx] and the local [BackgroundFX] of
    [About.tsx], [Skills.tsx] and [Projects.tsx].  The five copies differ
    only in their constants, gathered in a [config] per file.  The closure's
    variables form the record [field].  Each arrow function of the effect
    ([resize], [onMouseMove], [step]) is a definition here, with the loops
    of [step] as list recursions over the particle array. *)

From Stdlib Require Import QArith Qround Qminmax Qabs Lqa ZArith Lia List.
From Stdlib Require Import Morphisms Setoid.
From S2P Require Import Prelude JsNumber Canvas.
Import ListNotations.

(** ** Data *)

(** [{ x, y, vx, vy, r, seed }] *)
Record particle : Type := {
  px : num; py : num; pvx : num; pvy : num; pr : num; pseed : num
}.

(** The closure's [mouse] object. *)
Record point : Type := { mx : num; my : num }.

(** How each copy derives the canvas height from [window.innerHeight]. *)
Inductive height_rule : Type :=
| InnerHeight
| AtLeastScaled (factor floor : num).

(** White particles, or the cyan/teal mix driven by a second sine. *)
Inductive fill_rule : Type :=
| FillWhite
| FillCyanTeal (mix_period : num).

Record config : Type := {
  cfg_height : height_rule;
  cfg_min_count : num;
  cfg_max_count : num;
  cfg_density : num;
  cfg_speed : num;
  cfg_r_scale : num;
  cfg_r_min : num;
  cfg_attract_radius : num;
  cfg_attract_strength : num;
  cfg_twinkle_period : num;
  cfg_fill : fill_rule;
  cfg_alpha_base : num;
  cfg_link_dist : num;
  cfg_link_red : num;
  cfg_link_green : num;
  cfg_link_blue : num;
  cfg_link_alpha : num;
  cfg_pointer_dist : num;
  cfg_pointer_alpha : num;
  cfg_pointer_width : num
}.

(** The closure's [let] and [const] variables: [DPR], [raf], [width],
    [height], [mouse] and [particles]. *)
Record field : Type := {
  f_dpr : num;
  f_raf : nat;
  f_width : num;
  f_height : num;
  f_mouse : point;
  f_particles : list particle
}.

(** ** The five copies *)

Definition bgfx_config : config := {|
  cfg_height := AtLeastScaled (Fin 0.8) (Fin 600);
  cfg_min_count := Fin 60; cfg_max_count := Fin 160; cfg_density := Fin 24000;
  cfg_speed := Fin 0.45; cfg_r_scale := Fin 1.8; cfg_r_min := Fin 0.6;
  cfg_attract_radius := Fin 180; cfg_attract_strength := Fin 0.005;
  cfg_twinkle_period := Fin 600; cfg_fill := FillWhite; cfg_alpha_base := Fin 0.35;
  cfg_link_dist := Fin 120;
  cfg_link_red := Fin 255; cfg_link_green := Fin 255; cfg_link_blue := Fin 255;
  cfg_link_alpha := Fin 0.25;
  cfg_pointer_dist := Fin 160; cfg_pointer_alpha := Fin 0.35; cfg_pointer_width := Fin 1
|}.

Definition hero_config : config := {|
  cfg_height := InnerHeight;
  cfg_min_count := Fin 70; cfg_max_count := Fin 200; cfg_density := Fin 20000;
  cfg_speed := Fin 0.45; cfg_r_scale := Fin 1.8; cfg_r_min := Fin 0.6;
  cfg_attract_radius := Fin 180; cfg_attract_strength := Fin 0.005;
  cfg_twinkle_period := Fin 600; cfg_fill := FillCyanTeal (Fin 800);
  cfg_alpha_base := Fin 0.4;
  cfg_link_dist := Fin 120;
  cfg_link_red := Fin 34; cfg_link_green := Fin 211; cfg_link_blue := Fin 238;
  cfg_link_alpha := Fin 0.3;
  cfg_pointer_dist := Fin 160; cfg_pointer_alpha := Fin 0.5; cfg_pointer_width := Fin 1.5
|}.

(** [About.tsx], [Skills.tsx] and [Projects.tsx] use the same constants. *)
Definition about_config : config := {|
  cfg_height := InnerHeight;
  cfg_min_count := Fin 50; cfg_max_count := Fin 150; cfg_density := Fin 25000;
  cfg_speed := Fin 0.3; cfg_r_scale := Fin 1.5; cfg_r_min := Fin 0.5;
  cfg_attract_radius := Fin 120; cfg_attract_strength := Fin 0.003;
  cfg_twinkle_period := Fin 800; cfg_fill := FillCyanTeal (Fin 1000);
  cfg_alpha_base := Fin 0.3;
  cfg_link_dist := Fin 100;
  cfg_link_red := Fin 34; cfg_link_green := Fin 211; cfg_link_blue := Fin 238;
  cfg_link_alpha := Fin 0.2;
  cfg_pointer_dist := Fin 140; cfg_pointer_alpha := Fin 0.4; cfg_pointer_width := Fin 1.5
|}.

Definition skills_config : config := about_config.
Definition projects_config : config := about_config.

(** ** Record updates *)

Definition set_vel (p : particle) (vx vy : num) : particle :=
  {| px := px p; py := py p; pvx := vx; pvy := vy; pr := pr p; pseed := pseed p |}.

Definition set_pos (p : particle) (x y : num) : particle :=
  {| px := x; py := y; pvx := pvx p; pvy := pvy p; pr := pr p; pseed := pseed p |}.

Definition with_size (f : field) (w h : num) (ps : list particle) : field :=
  {| f_dpr := f_dpr f; f_raf := f_raf f; f_width := w; f_height := h;
     f_mouse := f_mouse f; f_particles := ps |}.

Definition with_mouse (f : field) (m : point) : field :=
  {| f_dpr := f_dpr f; f_raf := f_raf f; f_width := f_width f; f_height := f_height f;
     f_mouse := m; f_particles := f_particles f |}.

Definition with_frame (f : field) (raf : nat) (ps : list particle) : field :=
  {| f_dpr := f_dpr f; f_raf := raf; f_width := f_width f; f_height := f_height f;
     f_mouse := f_mouse f; f_particles := ps |}.

(** ** Set-up *)

(** [Math.min(window.devicePixelRatio || 1, 2)] *)
Definition clamp_dpr (dpr : num) : num := nmin (nor_default dpr (Fin 1)) (Fin 2).

(** [{ x: -9999, y: -9999 }]: far away until the first [mousemove]. *)
Definition initial_mouse : point := {| mx := Fin (-9999); my := Fin (-9999) |}.

Definition canvas_height (cfg : config) (inner_height : num) : num :=
  match cfg_height cfg with
  | InnerHeight => inner_height
  | AtLeastScaled factor floor => nmax (nmul inner_height factor) floor
  end.

(** [Math.max(lo, Math.min(hi, Math.floor((width * height) / k)))] *)
Definition density_count (cfg : config) (width height : num) : num :=
  nmax (cfg_min_count cfg)
       (nmin (cfg_max_count cfg) (nfloor (ndiv (nmul width height) (cfg_density cfg)))).

(** One element of [Array.from]: six calls to [Math.random], in the order
    of the object literal's fields. *)
Definition make_particle (cfg : config) (width height : num) : St host particle :=
  r1 <- math_random ;; r2 <- math_random ;; r3 <- math_random ;;
  r4 <- math_random ;; r5 <- math_random ;; r6 <- math_random ;;
  st_ret {| px := nmul r1 width;
            py := nmul r2 height;
            pvx := nmul (nsub r3 (Fin 0.5)) (cfg_speed cfg);
            pvy := nmul (nsub r4 (Fin 0.5)) (cfg_speed cfg);
            pr := nadd (nmul r5 (cfg_r_scale cfg)) (cfg_r_min cfg);
            pseed := nmul (nmul r6 math_PI) (Fin 2) |}.

Inductive js_error : Type := RangeError.

(** [resize]: reads the window, sizes the canvas, sets the transform and
    replaces the particle array.  [width] and [height] are assigned before
    [Array.from] runs, so they stay assigned when it throws. *)
Definition resize (cfg : config) (f : field) : St host (field * option js_error) :=
  inner_w <- window_inner_width ;;
  inner_h <- window_inner_height ;;
  let width := inner_w in
  let height := canvas_height cfg inner_h in
  set_canvas_size (nmul width (f_dpr f)) (nmul height (f_dpr f)) ;;;
  set_canvas_style width height ;;;
  draw (SetTransform (f_dpr f) (Fin 0) (Fin 0) (f_dpr f) (Fin 0) (Fin 0)) ;;;
  match array_length (density_count cfg width height) with
  | None => st_ret (with_size f width height (f_particles f), Some RangeError)
  | Some n =>
      ps <- st_replicate n (make_particle cfg width height) ;;
      st_ret (with_size f width height ps, None)
  end.

(** [onMouseMove]: the event's client coordinates relative to the canvas's
    bounding rectangle. *)
Definition on_mouse_move (f : field) (client_x client_y rect_left rect_top : num) : field :=
  with_mouse f {| mx := nsub client_x rect_left; my := nsub client_y rect_top |}.

(** ** One frame: the first loop *)

(** Attraction towards the pointer, a permanent change of velocity. *)
Definition attract (cfg : config) (m : point) (p : particle) : particle :=
  let dxm := nsub (mx m) (px p) in
  let dym := nsub (my m) (py p) in
  let dm := nhypot dxm dym in
  if nlt dm (cfg_attract_radius cfg)
  then set_vel p (nadd (pvx p) (nmul (ndiv dxm dm) (cfg_attract_strength cfg)))
                 (nadd (pvy p) (nmul (ndiv dym dm) (cfg_attract_strength cfg)))
  else p.

(** [p.x += p.vx; p.y += p.vy] *)
Definition integrate (p : particle) : particle :=
  set_pos p (nadd (px p) (pvx p)) (nadd (py p) (pvy p)).

(** The two wrap tests of one axis, in the code's order. *)
Definition wrap_axis (size v : num) : num :=
  let v1 := if nlt v (Fin (-50)) then nadd size (Fin 50) else v in
  if ngt v1 (nadd size (Fin 50)) then Fin (-50) else v1.

Definition wrap (width height : num) (p : particle) : particle :=
  set_pos p (wrap_axis width (px p)) (wrap_axis height (py p)).

Definition update_particle (cfg : config) (width height : num) (m : point)
    (p : particle) : particle :=
  wrap width height (integrate (attract cfg m p)).

(** [0.5 + 0.5 * Math.sin(t / period + p.seed)] *)
Definition twinkle (cfg : config) (sin : Q -> Q) (t : num) (p : particle) : num :=
  nadd (Fin 0.5) (nmul (Fin 0.5) (nsin sin (nadd (ndiv t (cfg_twinkle_period cfg)) (pseed p)))).

(** [Math.sin(t / period + p.seed * 2) * 0.5 + 0.5] *)
Definition color_mix (sin : Q -> Q) (period t : num) (p : particle) : num :=
  nadd (nmul (nsin sin (nadd (ndiv t period) (nmul (pseed p) (Fin 2)))) (Fin 0.5)) (Fin 0.5).

Definition fill_color (cfg : config) (sin : Q -> Q) (t : num) (p : particle) : rgba :=
  let a := nadd (cfg_alpha_base cfg) (nmul (twinkle cfg sin t p) (cfg_alpha_base cfg)) in
  match cfg_fill cfg with
  | FillWhite => RGBA (Fin 255) (Fin 255) (Fin 255) a
  | FillCyanTeal period =>
      let mix := color_mix sin period t p in
      RGBA (nfloor (nadd (Fin 34) (nmul mix (Fin 186))))
           (nfloor (nsub (Fin 211) (nmul mix (Fin 27))))
           (nfloor (nsub (Fin 238) (nmul mix (Fin 72))))
           a
  end.

Definition draw_particle (cfg : config) (sin : Q -> Q) (t : num) (p : particle) : list cmd :=
  [BeginPath; Arc (px p) (py p) (pr p) (Fin 0) (nmul math_PI (Fin 2));
   FillStyle (fill_color cfg sin t p); Fill].

(** [for (const p of particles) { ...update...; ...draw... }] *)
Fixpoint particle_pass (cfg : config) (sin : Q -> Q) (t width height : num) (m : point)
    (ps : list particle) : list particle * list cmd :=
  match ps with
  | [] => ([], [])
  | p :: rest =>
      let p' := update_particle cfg width height m p in
      let (rest', cs) := particle_pass cfg sin t width height m rest in
      (p' :: rest', draw_particle cfg sin t p' ++ cs)
  end.

(** ** One frame: the pair scan and the pointer lines *)

Definition link_cmds (cfg : config) (a b : particle) : list cmd :=
  let dx := nsub (px a) (px b) in
  let dy := nsub (py a) (py b) in
  let d := nhypot dx dy in
  if nlt d (cfg_link_dist cfg)
  then [StrokeStyle (RGBA (cfg_link_red cfg) (cfg_link_green cfg) (cfg_link_blue cfg)
                          (nmul (nsub (Fin 1) (ndiv d (cfg_link_dist cfg))) (cfg_link_alpha cfg)));
        LineWidth (Fin 1); BeginPath; MoveTo (px a) (py a); LineTo (px b) (py b); Stroke]
  else [].

(** [for (let i = 0; i < particles.length; i++)
       for (let j = i + 1; j < particles.length; j++)] *)
Definition link_pass (cfg : config) (ps : list particle) : list cmd :=
  flat_map (fun i =>
    flat_map (fun j =>
      match nth_error ps i, nth_error ps j with
      | Some a, Some b => link_cmds cfg a b
      | _, _ => []
      end) (seq (S i) (length ps - S i)))
    (seq 0 (length ps)).

Definition pointer_cmds (cfg : config) (m : point) (p : particle) : list cmd :=
  let dx := nsub (px p) (mx m) in
  let dy := nsub (py p) (my m) in
  let d := nhypot dx dy in
  if nlt d (cfg_pointer_dist cfg)
  then [StrokeStyle (RGBA (Fin 20) (Fin 184) (Fin 166)
                          (nmul (nsub (Fin 1) (ndiv d (cfg_pointer_dist cfg))) (cfg_pointer_alpha cfg)));
        LineWidth (cfg_pointer_width cfg); BeginPath; MoveTo (px p) (py p);
        LineTo (mx m) (my m); Stroke]
  else [].

Definition pointer_pass (cfg : config) (m : point) (ps : list particle) : list cmd :=
  flat_map (pointer_cmds cfg m) ps.

(** [step]: clear, update and draw every particle, draw the links and the
    pointer lines, request the next frame. *)
Definition step (cfg : config) (sin : Q -> Q) (f : field) (t : num) : St host field :=
  draw (ClearRect (Fin 0) (Fin 0) (f_width f) (f_height f)) ;;;
  let (ps, cs) := particle_pass cfg sin t (f_width f) (f_height f) (f_mouse f) (f_particles f) in
  draw_all cs ;;;
  draw_all (link_pass cfg ps) ;;;
  draw_all (pointer_pass cfg (f_mouse f) ps) ;;;
  raf <- request_animation_frame ;;
  st_ret (with_frame f raf ps).

(** ** Predicates used by the theorems *)

Definition finite (x : num) : Prop := match x with Fin _ => True | _ => False end.

(** Position and velocity are finite numbers. *)
Definition sane (p : particle) : Prop :=
  finite (px p) /\ finite (py p) /\ finite (pvx p) /\ finite (pvy p).

Definition finite_point (m : point) : Prop := finite (mx m) /\ finite (my m).

(** The pointer sits exactly on the particle. *)
Definition on_pointer (m : point) (p : particle) : Prop :=
  num_eq (mx m) (px p) /\ num_eq (my m) (py p).

(** The particle lies within the 50 px margin around a [w] x [h] canvas. *)
Definition in_margin (w h : Q) (p : particle) : Prop :=
  in_range (-50) (w + 50) (px p) /\ in_range (-50) (h + 50) (py p).

Definition int_of (x : num) : option Z :=
  match x with
  | Fin q => if Qeq_bool (inject_Z (Qfloor q)) q then Some (Qfloor q) else None
  | _ => None
  end.

Definition pos_int (x : num) : bool :=
  match int_of x with Some z => (0 <? z)%Z | None => false end.

Definition nonneg_fin (x : num) : bool :=
  match x with Fin q => Qle_bool 0 q | _ => false end.

(** The constants of a copy are sane: integer counts with
    [0 <= min <= max < 2^32], a positive density divisor, integer
    positive distances, finite non-negative factors. *)
Definition config_wf (cfg : config) : bool :=
  match int_of (cfg_min_count cfg), int_of (cfg_max_count cfg) with
  | Some lo, Some hi =>
      (0 <=? lo)%Z && (lo <=? hi)%Z && (hi <=? 4294967295)%Z
  | _, _ => false
  end
  && match cfg_density cfg with Fin k => qltb 0 k | _ => false end
  && pos_int (cfg_attract_radius cfg) && nonneg_fin (cfg_attract_strength cfg)
  && pos_int (cfg_link_dist cfg) && nonneg_fin (cfg_link_alpha cfg)
  && pos_int (cfg_pointer_dist cfg) && nonneg_fin (cfg_pointer_alpha cfg)
  && nonneg_fin (cfg_speed cfg) && nonneg_fin (cfg_r_scale cfg) && nonneg_fin (cfg_r_min cfg)
  && match cfg_height cfg with
     | InnerHeight => true
     | AtLeastScaled (Fin fa) (Fin fl) => Qle_bool 0 fa && Qle_bool 0 fl
     | AtLeastScaled _ _ => false
     end.

(** ** The toroidal wrap *)

Lemma wrap_axis_fin (w v : Q) :
  (0 <= w)%Q -> in_range (-50) (w + 50) (wrap_axis (Fin w) (Fin v)).
Proof.
  intros Hw. unfold wrap_axis, ngt, nlt, nadd.
  repeat (qcase; cbn [in_range nlt nadd]); lra.
Qed.

(** Every non-NaN value is wrapped into the margin; NaN is left as is. *)
Lemma wrap_axis_in_range (w : Q) (v : num) :
  (0 <= w)%Q -> v <> NaN -> in_range (-50) (w + 50) (wrap_axis (Fin w) v).
Proof.
  intros Hw Hv. destruct v as [q| | |]; [now apply wrap_axis_fin|congruence| |];
    unfold wrap_axis, ngt; cbn [nlt nadd]; repeat (qcase; cbn [in_range nlt nadd]);
    cbn [in_range]; lra.
Qed.

Lemma wrap_axis_nan (s : num) : wrap_axis s NaN = NaN.
Proof. unfold wrap_axis, ngt. destruct s; reflexivity. Qed.

#[export] Hint Resolve wrap_axis_fin wrap_axis_in_range : fx.
#[export] Hint Rewrite wrap_axis_nan : fx_rw.

(** ** Attraction *)

Lemma sub_not_both_zero (x a y b : Q) :
  ~ ((x == a)%Q /\ (y == b)%Q) -> ~ (x + - a == 0)%Q \/ ~ (y + - b == 0)%Q.
Proof.
  intros H. destruct (Qeq_dec (x + - a) 0) as [Ha|Ha]; [|now left].
  right. intros Hb. apply H. split; lra.
Qed.

(** A finite particle under a finite pointer that is not on it keeps a
    finite velocity, changed by at most the strength on each axis. *)
Lemma attract_fin (cfg : config) (x y a b vx vy s : Q) (r sd : num) :
  cfg_attract_strength cfg = Fin s -> ~ ((x == a)%Q /\ (y == b)%Q) ->
  exists vx' vy',
    attract cfg {| mx := Fin x; my := Fin y |}
      {| px := Fin a; py := Fin b; pvx := Fin vx; pvy := Fin vy; pr := r; pseed := sd |}
    = {| px := Fin a; py := Fin b; pvx := Fin vx'; pvy := Fin vy'; pr := r; pseed := sd |}
    /\ (Qabs (vx' - vx) <= Qabs s)%Q /\ (Qabs (vy' - vy) <= Qabs s)%Q.
Proof.
  intros Hs Hne. unfold attract, set_vel.
  cbn [mx my px py pvx pvy pr pseed nsub nneg nadd nhypot]. rewrite Hs.
  pose proof (qhypot_pos _ _ (sub_not_both_zero _ _ _ _ Hne)) as Hh.
  pose proof (qhypot_div_bound _ _ Hh) as Hdx.
  pose proof (qhypot_div_bound (y + - b) (x + - a)) as Hdy.
  rewrite (qhypot_comm (y + - b)) in Hdy. specialize (Hdy Hh).
  destruct (nlt (Fin (qhypot (x + - a) (y + - b))) (cfg_attract_radius cfg)).
  - cbn [ndiv nmul nadd]. rewrite (proj2 (qeqb_false _ 0)) by lra.
    eexists _, _. split; [reflexivity|].
    split; [setoid_replace (vx + (x + - a) / qhypot (x + - a) (y + - b) * s - vx)%Q
              with ((x + - a) / qhypot (x + - a) (y + - b) * s)%Q by ring
           |setoid_replace (vy + (y + - b) / qhypot (x + - a) (y + - b) * s - vy)%Q
              with ((y + - b) / qhypot (x + - a) (y + - b) * s)%Q by ring];
      rewrite Qabs_Qmult; pose proof (Qabs_nonneg s); nra.
  - exists vx, vy. split; [reflexivity|].
    setoid_replace (vx - vx)%Q with 0%Q by ring. setoid_replace (vy - vy)%Q with 0%Q by ring.
    split; apply Qabs_nonneg.
Qed.

(** ** The frame *)

Lemma in_range_finite (lo hi : Q) (x : num) : in_range lo hi x -> finite x.
Proof. destruct x; cbn; tauto. Qed.

(** The loop that updates and draws each particle in turn is the map of
    the updates followed by the draws of the updated particles. *)
Lemma particle_pass_spec (cfg : config) (sin : Q -> Q) (t w h : num) (m : point)
    (ps : list particle) :
  particle_pass cfg sin t w h m ps =
  (map (update_particle cfg w h m) ps,
   flat_map (draw_particle cfg sin t) (map (update_particle cfg w h m) ps)).
Proof.
  induction ps as [|p ps IH]; [reflexivity|]. cbn [particle_pass]. rewrite IH. reflexivity.
Qed.

(** What a frame does to the closure and to the host. *)
Lemma step_spec (cfg : config) (sin : Q -> Q) (f : field) (t : num) (hst : host) :
  let ps := map (update_particle cfg (f_width f) (f_height f) (f_mouse f)) (f_particles f) in
  let '(f', hst') := step cfg sin f t hst in
  f' = with_frame f (h_next_frame hst) ps /\
  h_log hst' = h_log hst ++ ClearRect (Fin 0) (Fin 0) (f_width f) (f_height f)
                 :: flat_map (draw_particle cfg sin t) ps ++ link_pass cfg ps
                 ++ pointer_pass cfg (f_mouse f) ps /\
  h_pending hst' = h_pending hst ++ [h_next_frame hst] /\
  h_next_frame hst' = S (h_next_frame hst) /\
  h_listeners hst' = h_listeners hst /\
  h_random_pos hst' = h_random_pos hst.
Proof.
  cbv zeta. unfold step. rewrite particle_pass_spec.
  unfold st_bind, draw, draw_all, request_animation_frame, st_ret. cbn.
  rewrite <- !app_assoc. repeat split.
Qed.

(** A particle that is sane and not under the pointer is sane after its
    update and lies within the margin. *)
Lemma update_particle_sane (cfg : config) (w h : Q) (m : point) (p : particle) :
  nonneg_fin (cfg_attract_strength cfg) = true -> (0 <= w)%Q -> (0 <= h)%Q ->
  finite_point m -> sane p -> ~ on_pointer m p ->
  sane (update_particle cfg (Fin w) (Fin h) m p) /\
  in_margin w h (update_particle cfg (Fin w) (Fin h) m p).
Proof.
  intros Hs Hw Hh [Hmx Hmy] (Hx & Hy & Hvx & Hvy) Hon.
  destruct m as [[x| | |] [y| | |]]; cbn in Hmx, Hmy; try contradiction.
  destruct p as [[a| | |] [b| | |] [vx| | |] [vy| | |] r sd];
    cbn in Hx, Hy, Hvx, Hvy; try contradiction.
  destruct (cfg_attract_strength cfg) as [s| | |] eqn:Es; try discriminate.
  destruct (attract_fin cfg x y a b vx vy s r sd Es Hon) as (vx' & vy' & Ha & _).
  unfold update_particle. rewrite Ha. unfold integrate, wrap, set_pos, sane, in_margin.
  cbn [px py pvx pvy nadd].
  pose proof (wrap_axis_fin w (a + vx') Hw). pose proof (wrap_axis_fin h (b + vy') Hh).
  repeat split; cbn; eauto using in_range_finite.
Qed.

(** ** Well-formed constants *)

Lemma int_of_spec (x : num) (z : Z) : int_of x = Some z -> num_eq x (num_of_Z z).
Proof.
  destruct x as [q| | |]; cbn; try discriminate.
  qcase; intros H; inversion H; subst. cbn. now symmetry.
Qed.

Lemma pos_int_spec (x : num) :
  pos_int x = true -> exists q z, x = Fin q /\ (q == inject_Z z)%Q /\ (0 < z)%Z.
Proof.
  unfold pos_int. destruct (int_of x) as [z|] eqn:E; [|discriminate].
  intros Hz. apply Z.ltb_lt in Hz. apply int_of_spec in E.
  destruct x as [q| | |]; cbn in E; try contradiction. now exists q, z.
Qed.

Lemma nonneg_fin_spec (x : num) : nonneg_fin x = true -> exists q, x = Fin q /\ (0 <= q)%Q.
Proof.
  destruct x as [q| | |]; cbn; try discriminate. intros H. exists q.
  split; [reflexivity|]. now apply Qle_bool_iff.
Qed.

Lemma config_wf_spec (cfg : config) :
  config_wf cfg = true ->
  (exists lo hi, int_of (cfg_min_count cfg) = Some lo /\ int_of (cfg_max_count cfg) = Some hi
                 /\ (0 <= lo <= hi)%Z /\ (hi <= 4294967295)%Z) /\
  (exists k, cfg_density cfg = Fin k /\ (0 < k)%Q) /\
  pos_int (cfg_attract_radius cfg) = true /\ nonneg_fin (cfg_attract_strength cfg) = true /\
  pos_int (cfg_link_dist cfg) = true /\ nonneg_fin (cfg_link_alpha cfg) = true /\
  pos_int (cfg_pointer_dist cfg) = true /\ nonneg_fin (cfg_pointer_alpha cfg) = true /\
  nonneg_fin (cfg_speed cfg) = true /\ nonneg_fin (cfg_r_scale cfg) = true /\
  nonneg_fin (cfg_r_min cfg) = true /\
  (forall ih, exists hgt, canvas_height cfg (Fin ih) = Fin hgt /\
                          ((0 <= ih)%Q -> (0 <= hgt)%Q)).
Proof.
  unfold config_wf. rewrite !Bool.andb_true_iff.
  intros [[[[[[[[[[[Hc Hk] Ha] Hs] Hl] Hla] Hp] Hpa] Hv] Hr] Hm] Hh].
  repeat split; auto.
  - destruct (int_of (cfg_min_count cfg)) as [lo|], (int_of (cfg_max_count cfg)) as [hi|];
      try discriminate. rewrite !Bool.andb_true_iff, !Z.leb_le in Hc.
    exists lo, hi. repeat split; lia.
  - destruct (cfg_density cfg) as [k| | |]; try discriminate. exists k.
    split; [reflexivity|]. now apply qltb_iff.
  - intros ih. unfold canvas_height.
    destruct (cfg_height cfg) as [|[fa| | |] [fl| | |]]; try discriminate; cbn;
      [now exists ih|].
    rewrite Bool.andb_true_iff, !Qle_bool_iff in Hh. destruct Hh as [Hfa Hfl].
    qcase; eexists; (split; [reflexivity|]); intros; [lra|nra].
Qed.

(** ** NaN *)

Definition all_nan (p : particle) : Prop :=
  px p = NaN /\ py p = NaN /\ pvx p = NaN /\ pvy p = NaN.

Lemma nadd_nan_r (x : num) : nadd x NaN = NaN.
Proof. destruct x; reflexivity. Qed.

Lemma nsub_nan_r (x : num) : nsub x NaN = NaN.
Proof. destruct x; reflexivity. Qed.

Lemma nsub_nan_l (x : num) : nsub NaN x = NaN.
Proof. destruct x; reflexivity. Qed.

Lemma nhypot_nan_l (y : num) : nhypot NaN y = NaN \/ nhypot NaN y = PosInf.
Proof. destruct y; cbn; auto. Qed.

Lemma nhypot_nan_r (x : num) : nhypot x NaN = NaN \/ nhypot x NaN = PosInf.
Proof. destruct x; cbn; auto. Qed.

#[export] Hint Rewrite nadd_nan_r nsub_nan_r nsub_nan_l : fx_rw.

(** A particle whose position and velocity are NaN stays so: NaN fails
    every comparison, so no attraction and no wrap ever applies. *)
Lemma update_particle_all_nan (cfg : config) (w h : num) (m : point) (p : particle) :
  all_nan p -> all_nan (update_particle cfg w h m p).
Proof.
  destruct p as [x y vx vy r sd]. intros (Hx & Hy & Hvx & Hvy); cbn in *; subst.
  unfold update_particle, attract. cbn [px py pvx pvy].
  autorewrite with fx_rw. cbn [nhypot nlt].
  unfold integrate, wrap, set_pos, all_nan; cbn. now rewrite !wrap_axis_nan.
Qed.

(** No link and no pointer line ever involves a NaN particle. *)
Lemma link_cmds_nan_l (cfg : config) (a b : particle) (d : Q) :
  cfg_link_dist cfg = Fin d -> px a = NaN -> link_cmds cfg a b = [].
Proof.
  intros Hd Ha. unfold link_cmds. rewrite Ha, nsub_nan_l, Hd.
  destruct (nhypot_nan_l (nsub (py a) (py b))) as [-> | ->]; reflexivity.
Qed.

Lemma link_cmds_nan_r (cfg : config) (a b : particle) (d : Q) :
  cfg_link_dist cfg = Fin d -> px b = NaN -> link_cmds cfg a b = [].
Proof.
  intros Hd Hb. unfold link_cmds. rewrite Hb, nsub_nan_r, Hd.
  destruct (nhypot_nan_l (nsub (py a) (py b))) as [-> | ->]; reflexivity.
Qed.

Lemma pointer_cmds_nan (cfg : config) (m : point) (p : particle) (d : Q) :
  cfg_pointer_dist cfg = Fin d -> px p = NaN -> pointer_cmds cfg m p = [].
Proof.
  intros Hd Hp. unfold pointer_cmds. rewrite Hp, nsub_nan_l, Hd.
  destruct (nhypot_nan_l (nsub (py p) (my m))) as [-> | ->]; reflexivity.
Qed.

(** The frame in which the pointer sits exactly on a particle: [dm] is [0],
    [dm < radius] holds, and [dxm / dm] is [0 / 0]. *)
Lemma update_particle_hit (cfg : config) (w h : num) (x y : Q) (p : particle) :
  config_wf cfg = true -> px p = Fin x -> py p = Fin y ->
  all_nan (update_particle cfg w h {| mx := Fin x; my := Fin y |} p).
Proof.
  intros Hwf Hx Hy. destruct (config_wf_spec _ Hwf) as (_ & _ & Ha & _).
  destruct (pos_int_spec _ Ha) as (R & z & HR & HRz & Hz).
  destruct p as [x0 y0 vx vy r sd]; cbn in Hx, Hy; subst.
  assert (H0 : (qhypot (x + - x) (y + - y) == 0)%Q) by (apply qhypot_zero; ring).
  assert (HzQ : (0 < inject_Z z)%Q) by (unfold Qlt; cbn; lia).
  unfold update_particle, attract. cbn [mx my px py pvx pvy nsub nneg nadd nhypot].
  rewrite HR. cbn [nlt].
  replace (qltb (qhypot (x + - x) (y + - y)) R) with true
    by (symmetry; apply qltb_iff; rewrite H0, HRz; exact HzQ).
  unfold set_vel; cbn [ndiv pvx pvy px py].
  replace (Qeq_bool (qhypot (x + - x) (y + - y)) 0) with true
    by (symmetry; now apply Qeq_bool_iff).
  replace (Qeq_bool (x + - x) 0) with true by (symmetry; apply Qeq_bool_iff; ring).
  replace (Qeq_bool (y + - y) 0) with true by (symmetry; apply Qeq_bool_iff; ring).
  cbn [nmul]. rewrite !nadd_nan_r. unfold integrate, wrap, set_pos, all_nan; cbn.
  rewrite ?nadd_nan_r, ?wrap_axis_nan; repeat split.
Qed.

Lemma fold_update_all_nan (cfg : config) (w h : num) (later : list point) (p : particle) :
  all_nan p -> all_nan (fold_left (fun q m => update_particle cfg w h m q) later p).
Proof.
  revert p. induction later as [|m later IH]; intros p Hp; cbn; [exact Hp|].
  apply IH, update_particle_all_nan, Hp.
Qed.

(** ** Sample inputs for the witnesses *)

Definition sample_particle (x y : Q) : particle :=
  {| px := Fin x; py := Fin y; pvx := Fin 0.1; pvy := Fin (-0.1); pr := Fin 1; pseed := Fin 0 |}.

Definition sample_field (ps : list particle) (m : point) : field :=
  {| f_dpr := Fin 1; f_raf := 0%nat; f_width := Fin 800; f_height := Fin 600;
     f_mouse := m; f_particles := ps |}.

Definition sample_host : host :=
  {| h_inner_width := Fin 800; h_inner_height := Fin 600; h_device_pixel_ratio := Fin 1;
     h_random := fun n => if Nat.even n then (1 # 4)%Q else (3 # 4)%Q; h_random_pos := 0%nat;
     h_next_frame := 1%nat; h_pending := [0%nat]; h_listeners := [OnResize; OnMouseMove];
     h_canvas := {| cv_width := 800%Z; cv_height := 600%Z;
                    cv_style_width := Fin 800; cv_style_height := Fin 600 |};
     h_log := [] |}.

Definition zero_sin (_ : Q) : Q := 0.

(** ** Frame invariants *)

(** C1: a frame keeps every particle finite and within the 50 px margin
    around the canvas, when the particles are finite before it, the canvas
    size is non-negative, and the pointer is finite and not exactly on a
    particle. *)
Theorem step_keeps_particles_in_margin (cfg : config) (sin : Q -> Q) (f : field) (t : num)
    (hst : host) (w h : Q) :
  config_wf cfg = true -> f_width f = Fin w -> f_height f = Fin h ->
  (0 <= w)%Q -> (0 <= h)%Q -> finite_point (f_mouse f) ->
  Forall (fun p => sane p /\ ~ on_pointer (f_mouse f) p) (f_particles f) ->
  Forall (fun p => sane p /\ in_margin w h p) (f_particles (fst (step cfg sin f t hst))).
Proof.
  intros Hwf Hw Hh Hw0 Hh0 Hm Hps.
  pose proof (step_spec cfg sin f t hst) as Hstep.
  destruct (step cfg sin f t hst) as [f' hst']. destruct Hstep as [-> _]. cbn.
  rewrite Hw, Hh, Forall_map_iff.
  destruct (config_wf_spec cfg Hwf) as (_ & _ & _ & Hs & _).
  eapply Forall_impl; [|exact Hps]. intros p [Hp Hon]. now apply update_particle_sane.
Qed.

Lemma step_keeps_particles_in_margin_witness :
  Forall (fun p => sane p /\ in_margin 800 600 p)
    (f_particles (fst (step about_config zero_sin
       (sample_field [sample_particle 100 100; sample_particle 799 0] initial_mouse)
       (Fin 16) sample_host))).
Proof.
  apply (step_keeps_particles_in_margin about_config zero_sin
           (sample_field [sample_particle 100 100; sample_particle 799 0] initial_mouse)
           (Fin 16) sample_host 800 600);
    [reflexivity|reflexivity|reflexivity|vm_compute; discriminate|vm_compute; discriminate
    |split; exact I|].
  repeat constructor; vm_compute; intros [H _]; discriminate H.
Defined.

(** C2 (finding): when the pointer sits exactly on a particle, [dxm / dm]
    is [0 / 0] and the particle's position and velocity become NaN.  They
    stay NaN in every later frame, whatever the pointer does, and the
    particle never takes part in a link or a pointer line again, so the
    wrap invariant of the spec does not hold for it. *)
Theorem pointer_on_particle_is_lost (cfg : config) (w h : num) (x y : Q) (p : particle)
    (later : list point) :
  config_wf cfg = true -> px p = Fin x -> py p = Fin y ->
  let p' := fold_left (fun q m => update_particle cfg w h m q) later
              (update_particle cfg w h {| mx := Fin x; my := Fin y |} p) in
  all_nan p' /\ (forall q, link_cmds cfg p' q = [] /\ link_cmds cfg q p' = []) /\
  (forall m, pointer_cmds cfg m p' = []).
Proof.
  intros Hwf Hx Hy p'.
  assert (Hn : all_nan p') by (apply fold_update_all_nan, update_particle_hit; assumption).
  destruct (config_wf_spec _ Hwf) as (_ & _ & _ & _ & Hl & _ & Hp & _).
  destruct (pos_int_spec _ Hl) as (d & ? & Hd & _).
  destruct (pos_int_spec _ Hp) as (e & ? & He & _).
  split; [exact Hn|]. split.
  - intros q. split; [eapply link_cmds_nan_l|eapply link_cmds_nan_r]; eauto; apply Hn.
  - intros m. eapply pointer_cmds_nan; eauto. apply Hn.
Qed.

Lemma pointer_on_particle_is_lost_witness :
  let p' := fold_left (fun q m => update_particle hero_config (Fin 1920) (Fin 1080) m q)
              [initial_mouse; {| mx := Fin 500; my := Fin 500 |}]
              (update_particle hero_config (Fin 1920) (Fin 1080)
                 {| mx := Fin 100; my := Fin 100 |} (sample_particle 100 100)) in
  all_nan p' /\ (forall q, link_cmds hero_config p' q = [] /\ link_cmds hero_config q p' = []) /\
  (forall m, pointer_cmds hero_config m p' = []).
Proof.
  exact (pointer_on_particle_is_lost hero_config (Fin 1920) (Fin 1080) 100 100
           (sample_particle 100 100) [initial_mouse; {| mx := Fin 500; my := Fin 500 |}]
           eq_refl eq_refl eq_refl).
Defined.

(** ** Density and [resize] *)

Lemma density_count_spec (cfg : config) (w h : Q) (lo hi : Z) (k : Q) :
  int_of (cfg_min_count cfg) = Some lo -> int_of (cfg_max_count cfg) = Some hi ->
  cfg_density cfg = Fin k -> (0 < k)%Q ->
  num_eq (density_count cfg (Fin w) (Fin h))
         (num_of_Z (Z.max lo (Z.min hi (Qfloor (w * h / k))))).
Proof.
  intros Hlo Hhi Hk Hk0. unfold density_count.
  rewrite (int_of_spec _ _ Hlo), (int_of_spec _ _ Hhi), Hk.
  cbn [nmul]. rewrite ndiv_fin by lra. now autorewrite with fx_rw.
Qed.

Lemma density_array_length (cfg : config) (w h : Q) (lo hi : Z) (k : Q) :
  int_of (cfg_min_count cfg) = Some lo -> int_of (cfg_max_count cfg) = Some hi ->
  (0 <= lo <= hi)%Z -> (hi <= 4294967295)%Z -> cfg_density cfg = Fin k -> (0 < k)%Q ->
  array_length (density_count cfg (Fin w) (Fin h))
  = Some (Z.to_nat (Z.max lo (Z.min hi (Qfloor (w * h / k))))).
Proof.
  intros Hlo Hhi Hb Hb' Hk Hk0.
  rewrite (density_count_spec cfg w h lo hi k Hlo Hhi Hk Hk0).
  apply array_length_Z. lia.
Qed.

(** What [resize] does when the window size is finite. *)
Lemma resize_spec (cfg : config) (f : field) (hst : host) (w ih : Q) (lo hi : Z) (k : Q) :
  config_wf cfg = true -> int_of (cfg_min_count cfg) = Some lo ->
  int_of (cfg_max_count cfg) = Some hi -> cfg_density cfg = Fin k ->
  h_inner_width hst = Fin w -> h_inner_height hst = Fin ih ->
  exists hgt ps hst',
    canvas_height cfg (Fin ih) = Fin hgt /\
    resize cfg f hst = ((with_size f (Fin w) (Fin hgt) ps, None), hst') /\
    length ps = Z.to_nat (Z.max lo (Z.min hi (Qfloor (w * hgt / k)))) /\
    (exists h0, ps = fst (st_replicate (length ps) (make_particle cfg (Fin w) (Fin hgt)) h0)
                /\ h_random h0 = h_random hst /\ h_random_pos h0 = h_random_pos hst).
Proof.
  intros Hwf Hlo Hhi Hk Hw Hih.
  destruct (config_wf_spec cfg Hwf) as ((lo' & hi' & Hlo' & Hhi' & Hb & Hb') & (k' & Hk' & Hk0) & _).
  rewrite Hlo in Hlo'. rewrite Hhi in Hhi'. rewrite Hk in Hk'.
  injection Hlo' as <-. injection Hhi' as <-. injection Hk' as <-.
  destruct (config_wf_spec cfg Hwf) as (_ & _ & _ & _ & _ & _ & _ & _ & _ & _ & _ & Hh).
  destruct (Hh ih) as (hgt & Ehgt & _).
  unfold resize, st_bind, window_inner_width, window_inner_height. rewrite Hw, Hih, Ehgt.
  rewrite (density_array_length cfg w hgt lo hi k) by assumption.
  unfold set_canvas_size, set_canvas_style, draw, draw_all. cbv beta iota zeta.
  match goal with |- context [st_replicate ?n ?m ?h] =>
    pose proof (st_replicate_length n m h) as Hlen;
    destruct (st_replicate n m h) as [ps h1] eqn:E; exists hgt, ps, h1;
    cbn [fst] in Hlen; repeat split; [exact Hlen|exists h; now rewrite Hlen, E]
  end.
Qed.

(** C3: with a finite window, [resize] never throws, and the new particle
    array has [max(min, min(max, floor(width * height / k)))] elements,
    which lies between the copy's minimum and maximum counts. *)
Theorem resize_particle_count (cfg : config) (f : field) (hst : host) (w ih : Q)
    (lo hi : Z) (k : Q) :
  config_wf cfg = true -> int_of (cfg_min_count cfg) = Some lo ->
  int_of (cfg_max_count cfg) = Some hi -> cfg_density cfg = Fin k ->
  h_inner_width hst = Fin w -> h_inner_height hst = Fin ih ->
  let '(f', err) := fst (resize cfg f hst) in
  err = None /\ (Z.to_nat lo <= length (f_particles f') <= Z.to_nat hi)%nat /\
  exists hgt, canvas_height cfg (Fin ih) = Fin hgt /\ f_width f' = Fin w /\
    f_height f' = Fin hgt /\
    length (f_particles f') = Z.to_nat (Z.max lo (Z.min hi (Qfloor (w * hgt / k)))).
Proof.
  intros Hwf Hlo Hhi Hk Hw Hih.
  destruct (config_wf_spec cfg Hwf) as ((lo' & hi' & Hlo' & Hhi' & Hb & _) & _).
  rewrite Hlo in Hlo'. rewrite Hhi in Hhi'. injection Hlo' as <-. injection Hhi' as <-.
  destruct (resize_spec cfg f hst w ih lo hi k Hwf Hlo Hhi Hk Hw Hih)
    as (hgt & ps & hst' & Hhgt & -> & Hlen & _).
  cbn. rewrite Hlen. split; [reflexivity|]. split; [lia|]. now exists hgt.
Qed.

Lemma resize_particle_count_witness :
  let '(f', err) := fst (resize hero_config (sample_field [] initial_mouse) sample_host) in
  err = None /\ (Z.to_nat 70 <= length (f_particles f') <= Z.to_nat 200)%nat /\
  exists hgt, canvas_height hero_config (Fin 600) = Fin hgt /\ f_width f' = Fin 800 /\
    f_height f' = Fin hgt /\
    length (f_particles f') = Z.to_nat (Z.max 70 (Z.min 200 (Qfloor (800 * hgt / 20000)))).
Proof.
  exact (resize_particle_count hero_config (sample_field [] initial_mouse) sample_host 800 600
           70 200 20000 eq_refl eq_refl eq_refl eq_refl eq_refl eq_refl).
Defined.

(** ** The pair scan and the pointer lines *)

(** One step of the outer loop: the pairs of the first particle, then the
    scan of the rest. *)
Lemma link_pass_cons (cfg : config) (a : particle) (r : list particle) :
  link_pass cfg (a :: r) = flat_map (link_cmds cfg a) r ++ link_pass cfg r.
Proof.
  unfold link_pass. cbn [length seq flat_map nth_error].
  replace (S (length r) - 1)%nat with (length r) by lia. f_equal.
  - rewrite <- seq_shift, flat_map_map. cbn [nth_error].
    rewrite <- (flat_map_nth_seq (link_cmds cfg a) r).
    apply flat_map_ext_in. intros j _. now destruct (nth_error r j).
  - rewrite <- seq_shift, flat_map_map. apply flat_map_ext_in. intros i _.
    cbn [length]. replace (S (length r) - S (S i))%nat with (length r - S i)%nat by lia.
    rewrite <- seq_shift, flat_map_map. reflexivity.
Qed.

(** The opacity [(1 - d / D) * alpha] of a line drawn at distance
    [d < D] lies in [(0, alpha]]. *)
Lemma threshold_alpha (dx dy : Q) (D : Z) (al : Q) :
  (0 < D)%Z -> (0 < al)%Q -> (qhypot dx dy < inject_Z D)%Q ->
  exists q, nmul (nsub (Fin 1) (ndiv (Fin (qhypot dx dy)) (num_of_Z D))) (Fin al) = Fin q
            /\ (0 < q <= al)%Q.
Proof.
  intros HD Hal Hlt. unfold num_of_Z.
  assert (HDq : (0 < inject_Z D)%Q) by (unfold Qlt; cbn; lia).
  rewrite ndiv_fin by lra. cbn. eexists. split; [reflexivity|].
  pose proof (qhypot_nonneg dx dy).
  assert (H1 : (qhypot dx dy / inject_Z D < 1)%Q) by (apply Qlt_shift_div_r; lra).
  assert (H0 : (0 <= qhypot dx dy / inject_Z D)%Q) by (apply Qle_shift_div_l; lra).
  split; nra.
Qed.

(** The [strokeStyle] of a six-call line command list. *)
Lemma in_line_stroke (c c0 : rgba) (w : num) (x0 y0 x1 y1 : num) :
  In (StrokeStyle c) [StrokeStyle c0; LineWidth w; BeginPath; MoveTo x0 y0; LineTo x1 y1; Stroke] ->
  c = c0.
Proof.
  cbn. intros [E|[E|[E|[E|[E|[E|[]]]]]]]; try discriminate. now injection E.
Qed.

(** C5: a link is drawn between two finite particles exactly when the
    square of their distance is below the square of the link distance,
    and its opacity [(1 - d / maxDist) * alpha] lies in [(0, alpha]]. *)
Theorem link_drawn_iff (cfg : config) (a b : particle) (xa ya xb yb al : Q) (D : Z) :
  cfg_link_dist cfg = num_of_Z D -> (0 < D)%Z ->
  cfg_link_alpha cfg = Fin al -> (0 < al)%Q ->
  px a = Fin xa -> py a = Fin ya -> px b = Fin xb -> py b = Fin yb ->
  (link_cmds cfg a b <> [] <->
     ((xa - xb) * (xa - xb) + (ya - yb) * (ya - yb) < inject_Z (D * D))%Q) /\
  (forall c, In (StrokeStyle c) (link_cmds cfg a b) ->
     exists q, alpha c = Fin q /\ (0 < q <= al)%Q).
Proof.
  intros HD HD0 Hal Hal0 Ha Hb Hc Hd. unfold link_cmds. rewrite Ha, Hb, Hc, Hd, HD, Hal.
  cbn [nsub nneg nadd nhypot]. unfold num_of_Z. cbn [nlt].
  pose proof (qhypot_lt (xa + - xb) (ya + - yb) D ltac:(lia)) as Hiff.
  unfold Qminus. qcase.
  - split; [split; [intros _; now apply Hiff | discriminate]|].
    intros c Hin. apply in_line_stroke in Hin. subst c. cbn [alpha].
    now apply threshold_alpha.
  - split; [|intros c []]. split; [intros H; now contradiction H|].
    intros H. apply Hiff in H. exfalso. exact (Qlt_not_le _ _ H Hlt).
Qed.

Lemma link_drawn_iff_witness :
  (link_cmds about_config (sample_particle 100 100) (sample_particle 130 140) <> [] <->
     ((100 - 130) * (100 - 130) + (100 - 140) * (100 - 140) < inject_Z (100 * 100))%Q) /\
  (forall c, In (StrokeStyle c) (link_cmds about_config (sample_particle 100 100)
                                           (sample_particle 130 140)) ->
     exists q, alpha c = Fin q /\ (0 < q <= 0.2)%Q).
Proof.
  exact (link_drawn_iff about_config (sample_particle 100 100) (sample_particle 130 140)
           100 100 130 140 0.2 100 eq_refl eq_refl eq_refl eq_refl
           eq_refl eq_refl eq_refl eq_refl).
Defined.

(** C6: the code's indexed double loop ([i] from [0], [j] from [i + 1])
    draws the links of every unordered pair of particles exactly once, in
    the order of a recursion over the list; there are [n (n - 1) / 2]
    pairs. *)
Theorem link_pass_unordered_pairs (cfg : config) (ps : list particle) :
  link_pass cfg ps = flat_map (fun ab => link_cmds cfg (fst ab) (snd ab)) (unordered_pairs ps) /\
  (2 * length (unordered_pairs ps) = length ps * (length ps - 1))%nat.
Proof.
  split; [|apply unordered_pairs_length].
  induction ps as [|a r IH]; [reflexivity|].
  rewrite link_pass_cons, IH. cbn [unordered_pairs].
  now rewrite flat_map_app, flat_map_map.
Qed.

(** ** A far pointer *)

Lemma nlt_hypot_far (x a y b : Q) (R : Z) :
  (0 <= R)%Z -> (inject_Z (R * R) <= (x - a) * (x - a) + (y - b) * (y - b))%Q ->
  nlt (nhypot (nsub (Fin x) (Fin a)) (nsub (Fin y) (Fin b))) (num_of_Z R) = false.
Proof.
  intros HR Hfar. cbn. apply qltb_false. apply Qnot_lt_le. intros Hlt.
  apply (qhypot_lt _ _ R HR) in Hlt. unfold Qminus in Hfar. lra.
Qed.

Lemma attract_far (cfg : config) (m : point) (p : particle) (x y a b : Q) (R : Z) :
  cfg_attract_radius cfg = num_of_Z R -> (0 <= R)%Z ->
  mx m = Fin x -> my m = Fin y -> px p = Fin a -> py p = Fin b ->
  (inject_Z (R * R) <= (x - a) * (x - a) + (y - b) * (y - b))%Q ->
  attract cfg m p = p.
Proof.
  intros HR HR0 Hx Hy Ha Hb Hfar. unfold attract. rewrite Hx, Hy, Ha, Hb, HR.
  now rewrite nlt_hypot_far.
Qed.

Lemma pointer_cmds_far (cfg : config) (m : point) (p : particle) (x y a b : Q) (P : Z) :
  cfg_pointer_dist cfg = num_of_Z P -> (0 <= P)%Z ->
  mx m = Fin x -> my m = Fin y -> px p = Fin a -> py p = Fin b ->
  (inject_Z (P * P) <= (a - x) * (a - x) + (b - y) * (b - y))%Q ->
  pointer_cmds cfg m p = [].
Proof.
  intros HP HP0 Hx Hy Ha Hb Hfar. unfold pointer_cmds. rewrite Hx, Hy, Ha, Hb, HP.
  now rewrite nlt_hypot_far.
Qed.

(** The initial pointer [(-9999, -9999)] is at least [9949] away, on each
    axis, from any point of the margin's lower-left quadrant bound. *)
Lemma initial_mouse_far (a b : Q) (R : Z) :
  (0 <= R <= 9949)%Z -> (-50 <= a)%Q -> (-50 <= b)%Q ->
  (inject_Z (R * R) <= (-9999 - a) * (-9999 - a) + (-9999 - b) * (-9999 - b))%Q /\
  (inject_Z (R * R) <= (a - -9999) * (a - -9999) + (b - -9999) * (b - -9999))%Q.
Proof.
  intros HR Ha Hb.
  assert (HRq : (0 <= inject_Z R <= 9949)%Q)
    by (split; unfold Qle; cbn; lia).
  rewrite inject_Z_mult. split; nra.
Qed.

(** C7: when the pointer is at or beyond the attraction radius of a
    particle, the frame leaves the particle's velocity as it was: the motion
    is purely inertial. *)
Theorem far_pointer_keeps_velocity (cfg : config) (w h : num) (m : point) (p : particle)
    (x y a b : Q) (R : Z) :
  cfg_attract_radius cfg = num_of_Z R -> (0 <= R)%Z ->
  mx m = Fin x -> my m = Fin y -> px p = Fin a -> py p = Fin b ->
  (inject_Z (R * R) <= (x - a) * (x - a) + (y - b) * (y - b))%Q ->
  attract cfg m p = p /\
  pvx (update_particle cfg w h m p) = pvx p /\ pvy (update_particle cfg w h m p) = pvy p.
Proof.
  intros HR HR0 Hx Hy Ha Hb Hfar.
  assert (E : attract cfg m p = p) by (eapply attract_far; eauto).
  unfold update_particle. rewrite E. split; [reflexivity|]. split; reflexivity.
Qed.

Lemma far_pointer_keeps_velocity_witness :
  attract hero_config {| mx := Fin 400; my := Fin 100 |} (sample_particle 100 100)
    = sample_particle 100 100 /\
  pvx (update_particle hero_config (Fin 800) (Fin 600) {| mx := Fin 400; my := Fin 100 |}
         (sample_particle 100 100)) = pvx (sample_particle 100 100) /\
  pvy (update_particle hero_config (Fin 800) (Fin 600) {| mx := Fin 400; my := Fin 100 |}
         (sample_particle 100 100)) = pvy (sample_particle 100 100).
Proof.
  apply (far_pointer_keeps_velocity hero_config (Fin 800) (Fin 600)
           {| mx := Fin 400; my := Fin 100 |} (sample_particle 100 100) 400 100 100 100 180);
    try reflexivity; [lia|vm_compute; discriminate].
Defined.

(** C8: the initial pointer [(-9999, -9999)] attracts no particle of the
    margin and draws no pointer line (the spec's scenario: pointer at its
    initial place, particle at [(100, 100)], threshold 140: no line). *)
Theorem initial_pointer_is_inert (cfg : config) (ps : list particle) (R P : Z) :
  cfg_attract_radius cfg = num_of_Z R -> (0 <= R <= 9949)%Z ->
  cfg_pointer_dist cfg = num_of_Z P -> (0 <= P <= 9949)%Z ->
  Forall (fun p => exists a b, px p = Fin a /\ py p = Fin b /\ (-50 <= a)%Q /\ (-50 <= b)%Q) ps ->
  map (attract cfg initial_mouse) ps = ps /\ pointer_pass cfg initial_mouse ps = [].
Proof.
  intros HR HR0 HP HP0 Hps. split.
  - rewrite <- map_id. apply map_ext_in. intros p Hin.
    rewrite Forall_forall in Hps. destruct (Hps p Hin) as (a & b & Ha & Hb & Ha0 & Hb0).
    eapply attract_far; eauto; [lia|reflexivity|reflexivity|].
    apply (initial_mouse_far a b R); auto.
  - apply flat_map_nil_iff. eapply Forall_impl; [|exact Hps].
    intros p (a & b & Ha & Hb & Ha0 & Hb0).
    eapply pointer_cmds_far; eauto; [lia|reflexivity|reflexivity|].
    apply (initial_mouse_far a b P); auto.
Qed.

Lemma initial_pointer_is_inert_witness :
  map (attract about_config initial_mouse) [sample_particle 100 100; sample_particle (-50) 650]
    = [sample_particle 100 100; sample_particle (-50) 650] /\
  pointer_pass about_config initial_mouse [sample_particle 100 100; sample_particle (-50) 650]
    = [].
Proof.
  apply (initial_pointer_is_inert about_config _ 120 140); try reflexivity; try lia.
  repeat (apply Forall_cons; [eexists _, _; split; [reflexivity|split; [reflexivity|]];
                              split; vm_compute; discriminate|]).
  apply Forall_nil.
Defined.

(** ** Velocity over many frames *)

(** Consecutive frames of one particle, under a sequence of pointer
    positions. *)
Definition run_frames (cfg : config) (w h : num) (ms : list point) (p : particle) : particle :=
  fold_left (fun q m => update_particle cfg w h m q) ms p.

(** Every pointer position is finite and never exactly on the particle at
    the frame where it is read. *)
Fixpoint pointer_avoids (cfg : config) (w h : num) (ms : list point) (p : particle) : Prop :=
  match ms with
  | [] => True
  | m :: ms' => finite_point m /\ ~ on_pointer m p /\
                pointer_avoids cfg w h ms' (update_particle cfg w h m p)
  end.

Lemma update_particle_velocity (cfg : config) (w h : num) (m : point) (p : particle)
    (s vx vy : Q) :
  cfg_attract_strength cfg = Fin s -> finite_point m -> ~ on_pointer m p -> sane p ->
  pvx p = Fin vx -> pvy p = Fin vy ->
  exists vx' vy', pvx (update_particle cfg w h m p) = Fin vx' /\
    pvy (update_particle cfg w h m p) = Fin vy' /\
    (Qabs (vx' - vx) <= Qabs s)%Q /\ (Qabs (vy' - vy) <= Qabs s)%Q.
Proof.
  intros Hs [Hmx Hmy] Hon (Hx & Hy & _ & _) Hvx Hvy.
  destruct m as [[x| | |] [y| | |]]; cbn in Hmx, Hmy; try contradiction.
  destruct p as [[a| | |] [b| | |] vx0 vy0 r sd]; cbn in *; try contradiction. subst.
  destruct (attract_fin cfg x y a b vx vy s r sd Hs Hon) as (vx' & vy' & Ha & Hbx & Hby).
  exists vx', vy'. unfold update_particle. rewrite Ha. auto.
Qed.

(** C9: as long as the pointer is finite and never exactly on the
    particle, the particle stays finite and each component of its velocity
    drifts by at most [n * strength] over [n] frames.  Nothing damps the
    velocity: this linear bound is the only limit on the drift the spec
    asks about. *)
Theorem velocity_drift_bound (cfg : config) (w h : Q) (ms : list point) (p : particle)
    (s vx vy : Q) :
  cfg_attract_strength cfg = Fin s -> (0 <= s)%Q -> (0 <= w)%Q -> (0 <= h)%Q ->
  sane p -> pvx p = Fin vx -> pvy p = Fin vy -> pointer_avoids cfg (Fin w) (Fin h) ms p ->
  sane (run_frames cfg (Fin w) (Fin h) ms p) /\
  exists vx' vy', pvx (run_frames cfg (Fin w) (Fin h) ms p) = Fin vx' /\
    pvy (run_frames cfg (Fin w) (Fin h) ms p) = Fin vy' /\
    (Qabs (vx' - vx) <= inject_Z (Z.of_nat (length ms)) * s)%Q /\
    (Qabs (vy' - vy) <= inject_Z (Z.of_nat (length ms)) * s)%Q.
Proof.
  intros Hs Hs0 Hw Hh. unfold run_frames. revert p vx vy.
  induction ms as [|m ms IH]; intros p vx vy Hp Hvx Hvy Hav.
  - cbn [fold_left length]. split; [exact Hp|]. exists vx, vy.
    setoid_replace (vx - vx)%Q with 0%Q by ring. setoid_replace (vy - vy)%Q with 0%Q by ring.
    change (inject_Z (Z.of_nat 0)) with 0%Q. change (Qabs 0) with 0%Q.
    repeat split; auto; lra.
  - destruct Hav as (Hm & Hon & Hav). cbn [fold_left length].
    assert (Hsn : nonneg_fin (cfg_attract_strength cfg) = true)
      by (rewrite Hs; now apply Qle_bool_iff).
    destruct (update_particle_sane cfg w h m p Hsn Hw Hh Hm Hp Hon) as [Hp' _].
    destruct (update_particle_velocity cfg (Fin w) (Fin h) m p s vx vy Hs Hm Hon Hp Hvx Hvy)
      as (vx1 & vy1 & Hvx1 & Hvy1 & Hbx & Hby).
    destruct (IH _ vx1 vy1 Hp' Hvx1 Hvy1 Hav) as (Hsane & vx2 & vy2 & Hvx2 & Hvy2 & Hbx2 & Hby2).
    split; [exact Hsane|]. exists vx2, vy2. split; [exact Hvx2|]. split; [exact Hvy2|].
    assert (Es : (Qabs s == s)%Q) by (apply Qabs_pos; exact Hs0).
    rewrite Es in Hbx, Hby.
    rewrite Nat2Z.inj_succ, <- Z.add_1_r, inject_Z_plus.
    setoid_replace (vx2 - vx)%Q with ((vx2 - vx1) + (vx1 - vx))%Q by ring.
    setoid_replace (vy2 - vy)%Q with ((vy2 - vy1) + (vy1 - vy))%Q by ring.
    change (inject_Z 1) with 1%Q.
    split; (eapply Qle_trans; [apply Qabs_triangle|]); nra.
Qed.

Lemma velocity_drift_bound_witness :
  sane (run_frames hero_config (Fin 800) (Fin 600)
          [{| mx := Fin 150; my := Fin 100 |}; {| mx := Fin 150; my := Fin 100 |}]
          (sample_particle 100 100)) /\
  exists vx' vy',
    pvx (run_frames hero_config (Fin 800) (Fin 600)
           [{| mx := Fin 150; my := Fin 100 |}; {| mx := Fin 150; my := Fin 100 |}]
           (sample_particle 100 100)) = Fin vx' /\
    pvy (run_frames hero_config (Fin 800) (Fin 600)
           [{| mx := Fin 150; my := Fin 100 |}; {| mx := Fin 150; my := Fin 100 |}]
           (sample_particle 100 100)) = Fin vy' /\
    (Qabs (vx' - 0.1) <= inject_Z (Z.of_nat 2) * 0.005)%Q /\
    (Qabs (vy' - -0.1) <= inject_Z (Z.of_nat 2) * 0.005)%Q.
Proof.
  apply (velocity_drift_bound hero_config 800 600
           [{| mx := Fin 150; my := Fin 100 |}; {| mx := Fin 150; my := Fin 100 |}]
           (sample_particle 100 100) 0.005 0.1 (-0.1));
    try reflexivity; try (vm_compute; discriminate).
  - repeat split.
  - vm_compute. repeat split; try exact I; intros [H _]; discriminate H.
Defined.

(** ** Colours *)

(** C10 (finding): the fill colour of a cyan/teal copy does not go from
    cyan to teal, as the code's comments say ("Couleur variable entre cyan
    et teal", "De cyan-500 à teal-400").  With a sine bounded by [-1, 1],
    green and blue stay within [[184, 211]] and [[166, 238]] and the
    opacity between [base] and [2 * base], but the red channel is
    [34 + colorMix * 186]: at [colorMix = 0] the colour is
    [rgb(34, 211, 238)] (cyan-400), and at [colorMix = 1] it is
    [rgb(220, 184, 166)], a beige, where teal-500 is [rgb(20, 184, 166)]. *)
Theorem particle_colour_not_teal (cfg : config) (sin : Q -> Q) (t : num) (p : particle)
    (tq sd period tp base : Q) :
  (forall q, -1 <= sin q <= 1)%Q -> t = Fin tq -> pseed p = Fin sd ->
  cfg_fill cfg = FillCyanTeal (Fin period) -> ~ (period == 0)%Q ->
  cfg_twinkle_period cfg = Fin tp -> ~ (tp == 0)%Q ->
  cfg_alpha_base cfg = Fin base -> (0 <= base)%Q ->
  let c := fill_color cfg sin t p in
  in_range 184 211 (green c) /\ in_range 166 238 (blue c) /\
  in_range base (2 * base) (alpha c) /\
  ((sin (tq / period + sd * 2) == -1)%Q ->
   red c = Fin 34 /\ green c = Fin 211 /\ blue c = Fin 238) /\
  ((sin (tq / period + sd * 2) == 1)%Q ->
   red c = Fin 220 /\ green c = Fin 184 /\ blue c = Fin 166).
Proof.
  intros Hsin Ht Hsd Hfill Hper Htp Htp0 Hbase Hbase0 c.
  unfold c, fill_color, twinkle, color_mix. rewrite Hfill, Ht, Hsd, Htp, Hbase.
  cbn [nmul nadd nsub nneg nsin]. rewrite !ndiv_fin by assumption. cbn [nadd nsin nmul].
  set (s1 := sin (tq / tp + sd)). set (s2 := sin (tq / period + sd * 2)).
  assert (H1 := Hsin (tq / tp + sd)). assert (H2 := Hsin (tq / period + sd * 2)).
  fold s1 in H1. fold s2 in H2. cbn [red green blue alpha].
  split; [|split; [|split; [|split]]].
  - apply (nfloor_range _ 184 211). unfold inject_Z. split; nra.
  - apply (nfloor_range _ 166 238). unfold inject_Z. split; nra.
  - cbn [in_range]. split; nra.
  - intros Hs. split; [|split]; apply nfloor_Qeq; unfold inject_Z; rewrite Hs; ring.
  - intros Hs. split; [|split]; apply nfloor_Qeq; unfold inject_Z; rewrite Hs; ring.
Qed.

Lemma particle_colour_not_teal_witness :
  let c := fill_color hero_config (fun _ => 1%Q) (Fin 1000) (sample_particle 100 100) in
  in_range 184 211 (green c) /\ in_range 166 238 (blue c) /\
  in_range 0.4 (2 * 0.4) (alpha c) /\
  ((1 == -1)%Q -> red c = Fin 34 /\ green c = Fin 211 /\ blue c = Fin 238) /\
  ((1 == 1)%Q -> red c = Fin 220 /\ green c = Fin 184 /\ blue c = Fin 166).
Proof.
  apply (particle_colour_not_teal hero_config (fun _ => 1%Q) (Fin 1000) (sample_particle 100 100)
           1000 0 800 600 0.4);
    try reflexivity; try (vm_compute; discriminate).
  intros q. split; vm_compute; discriminate.
Defined.

(** ** Fresh particles *)

(** A particle as [resize] creates it from random numbers in [[0, 1)]. *)
Definition fresh_particle (w h sp rs rm : Q) (p : particle) : Prop :=
  in_range 0 w (px p) /\ in_range 0 h (py p) /\
  in_range (- (0.5 * sp)) (0.5 * sp) (pvx p) /\ in_range (- (0.5 * sp)) (0.5 * sp) (pvy p) /\
  in_range rm (rm + rs) (pr p).

Definition random_ok (s : host) : Prop := forall n, (0 <= h_random s n < 1)%Q.

(** Two hosts whose [Math.random] streams are at the same place. *)
Definition same_random (s1 s2 : host) : Prop :=
  h_random s1 = h_random s2 /\ h_random_pos s1 = h_random_pos s2.

Lemma make_particle_spec (cfg : config) (w hg sp rs rm : Q) (s0 : host) :
  cfg_speed cfg = Fin sp -> (0 <= sp)%Q -> cfg_r_scale cfg = Fin rs -> (0 <= rs)%Q ->
  cfg_r_min cfg = Fin rm -> (0 <= w)%Q -> (0 <= hg)%Q -> random_ok s0 ->
  fresh_particle w hg sp rs rm (fst (make_particle cfg (Fin w) (Fin hg) s0)) /\
  random_ok (snd (make_particle cfg (Fin w) (Fin hg) s0)).
Proof.
  intros Hsp Hsp0 Hrs Hrs0 Hrm Hw Hh Hr.
  unfold make_particle, st_bind, math_random, st_ret. cbn. rewrite Hsp, Hrs, Hrm. cbn.
  split; [|exact Hr].
  repeat match goal with |- context [h_random s0 ?k] =>
    let H := fresh "Hr" in pose proof (Hr k) as H; generalize dependent (h_random s0 k); intros
  end.
  unfold fresh_particle, in_range; cbn. repeat split; nra.
Qed.

Lemma make_particle_same_random (cfg : config) (w hg : num) (s1 s2 : host) :
  same_random s1 s2 ->
  fst (make_particle cfg w hg s1) = fst (make_particle cfg w hg s2) /\
  same_random (snd (make_particle cfg w hg s1)) (snd (make_particle cfg w hg s2)).
Proof.
  intros [E1 E2]. unfold make_particle, st_bind, math_random, st_ret, same_random. cbn.
  now rewrite E1, E2.
Qed.

(** C11: [resize] builds a fresh particle array.  Every new particle lies
    on the canvas, with each velocity component within half the copy's
    speed and a radius in [[r_min, r_min + r_scale]].  The array does not
    depend on the particles, the pointer or the frame id that the closure
    held before: it is never a mutated view of the old one. *)
Theorem resize_fresh_particles (cfg : config) (f f' : field) (hst : host) (w ih sp rs rm : Q) :
  config_wf cfg = true -> cfg_speed cfg = Fin sp -> cfg_r_scale cfg = Fin rs ->
  cfg_r_min cfg = Fin rm -> h_inner_width hst = Fin w -> (0 <= w)%Q ->
  h_inner_height hst = Fin ih -> (0 <= ih)%Q -> random_ok hst ->
  exists hgt, canvas_height cfg (Fin ih) = Fin hgt /\
    Forall (fresh_particle w hgt sp rs rm) (f_particles (fst (fst (resize cfg f hst)))) /\
    f_particles (fst (fst (resize cfg f' hst))) = f_particles (fst (fst (resize cfg f hst))).
Proof.
  intros Hwf Hsp Hrs Hrm Hw Hw0 Hih Hih0 Hr.
  pose proof (config_wf_spec cfg Hwf) as
    ((lo & hi & Hlo & Hhi & _) & (k & Hk & _) & _ & _ & _ & _ & _ & _ & Hv & Hrs' & _ & Hh).
  rewrite Hsp in Hv. rewrite Hrs in Hrs'. apply Qle_bool_iff in Hv, Hrs'.
  destruct (Hh ih) as (hgt & Ehgt & Hhgt0). specialize (Hhgt0 Hih0).
  destruct (resize_spec cfg f hst w ih lo hi k Hwf Hlo Hhi Hk Hw Hih)
    as (hgt1 & ps & hst1 & Hhgt1 & Hres & Hlen & h0 & Hps & Hr0 & Hp0).
  destruct (resize_spec cfg f' hst w ih lo hi k Hwf Hlo Hhi Hk Hw Hih)
    as (hgt2 & ps' & hst2 & Hhgt2 & Hres' & Hlen' & h0' & Hps' & Hr0' & Hp0').
  rewrite Ehgt in Hhgt1, Hhgt2. injection Hhgt1 as <-. injection Hhgt2 as <-.
  exists hgt. split; [exact Ehgt|]. rewrite Hres, Hres'. cbn [fst f_particles with_size].
  split.
  - rewrite Hps. apply (st_replicate_Forall random_ok).
    + intros s0 Hs0. now apply make_particle_spec.
    + intros n. rewrite Hr0. apply Hr.
  - rewrite Hps, Hps', Hlen, Hlen'. apply st_replicate_rel with (R := same_random).
    + apply make_particle_same_random.
    + split; congruence.
Qed.

Lemma resize_fresh_particles_witness :
  exists hgt, canvas_height bgfx_config (Fin 600) = Fin hgt /\
    Forall (fresh_particle 800 hgt 0.45 1.8 0.6)
      (f_particles (fst (fst (resize bgfx_config (sample_field [] initial_mouse) sample_host)))) /\
    f_particles (fst (fst (resize bgfx_config
                             (sample_field [sample_particle 1 1] {| mx := Fin 3; my := Fin 4 |})
                             sample_host)))
    = f_particles (fst (fst (resize bgfx_config (sample_field [] initial_mouse) sample_host))).
Proof.
  apply (resize_fresh_particles bgfx_config (sample_field [] initial_mouse)
           (sample_field [sample_particle 1 1] {| mx := Fin 3; my := Fin 4 |}) sample_host
           800 600 0.45 1.8 0.6); try reflexivity; try (vm_compute; discriminate).
  intros n. cbn [sample_host h_random].
  destruct (Nat.even n); (split; [vm_compute; discriminate|reflexivity]).
Defined.

(** ** Device pixel ratio *)

Lemma clamp_dpr_spec (dpr : num) :
  (forall q, dpr = Fin q -> (0 <= q)%Q) -> dpr <> NegInf ->
  exists d, clamp_dpr dpr = Fin d /\ (0 < d <= 2)%Q.
Proof.
  intros Hpos Hneg. unfold clamp_dpr, nor_default.
  destruct dpr as [q| | |]; [|eexists; split; [reflexivity|split; vm_compute; try discriminate; reflexivity]
                           |eexists; split; [reflexivity|split; vm_compute; try discriminate; reflexivity]
                           |congruence].
  specialize (Hpos q eq_refl). qcase.
  - eexists; split; [reflexivity|]. split; vm_compute; try discriminate; reflexivity.
  - unfold nmin. cbn [nlt]. qcase; eexists; (split; [reflexivity|]); lra.
Qed.

Lemma make_particle_canvas (cfg : config) (w hg : num) (s0 : host) :
  h_canvas (snd (make_particle cfg w hg s0)) = h_canvas s0.
Proof. reflexivity. Qed.

(** C12: [DPR = Math.min(window.devicePixelRatio || 1, 2)] lies in
    [(0, 2]] for any ratio a browser reports (non-negative or NaN), and
    [resize] sets the canvas backing store to the CSS size times [DPR]
    truncated to an integer, which is how the browser stores the
    [unsigned long] attributes [canvas.width] and [canvas.height] (for CSS
    sizes below [2^30], so that the product stays below [2^31]); the
    backing store is at most twice the CSS size. *)
Theorem dpr_bounds_backing_buffer (cfg : config) (dpr : num) (f : field) (hst : host)
    (w hg : Q) :
  (forall q, dpr = Fin q -> (0 <= q)%Q) -> dpr <> NegInf -> f_dpr f = clamp_dpr dpr ->
  h_inner_width hst = Fin w -> canvas_height cfg (h_inner_height hst) = Fin hg ->
  (0 <= w < 1073741824)%Q -> (0 <= hg < 1073741824)%Q ->
  exists d, f_dpr f = Fin d /\ (0 < d <= 2)%Q /\
    cv_width (h_canvas (snd (resize cfg f hst))) = Qfloor (w * d) /\
    cv_height (h_canvas (snd (resize cfg f hst))) = Qfloor (hg * d) /\
    (inject_Z (Qfloor (w * d)) <= 2 * w)%Q /\ (inject_Z (Qfloor (hg * d)) <= 2 * hg)%Q.
Proof.
  intros Hpos Hneg Hf Hw Hh [Hw0 Hw1] [Hh0 Hh1].
  destruct (clamp_dpr_spec dpr Hpos Hneg) as (d & Hd & Hd0). rewrite Hd in Hf.
  exists d. split; [exact Hf|]. split; [exact Hd0|].
  assert (Hc : h_canvas (snd (resize cfg f hst))
               = {| cv_width := reflect_unsigned 300 (Fin (w * d));
                    cv_height := reflect_unsigned 150 (Fin (hg * d));
                    cv_style_width := Fin w; cv_style_height := Fin hg |}).
  { unfold resize, st_bind, window_inner_width, window_inner_height.
    rewrite Hw, Hh, Hf. unfold set_canvas_size, set_canvas_style, draw, draw_all.
    cbv beta iota zeta.
    destruct (array_length _); [|reflexivity].
    unfold st_bind. match goal with |- context [st_replicate ?n ?m ?h] =>
      pose proof (st_replicate_inv (fun s => h_canvas s = h_canvas h) n m h
                    (fun s0 H => eq_trans (make_particle_canvas _ _ _ s0) H) eq_refl) as Hinv;
      destruct (st_replicate n m h) as [ps h1]; exact Hinv
    end. }
  rewrite Hc. cbn [cv_width cv_height].
  rewrite !reflect_unsigned_fin by (split; nra).
  split; [reflexivity|]. split; [reflexivity|].
  split; (eapply Qle_trans; [apply Qfloor_le|nra]).
Qed.

Lemma dpr_bounds_backing_buffer_witness :
  exists d, f_dpr (sample_field [] initial_mouse) = Fin d /\ (0 < d <= 2)%Q /\
    cv_width (h_canvas (snd (resize about_config (sample_field [] initial_mouse) sample_host)))
      = Qfloor (800 * d) /\
    cv_height (h_canvas (snd (resize about_config (sample_field [] initial_mouse) sample_host)))
      = Qfloor (600 * d) /\
    (inject_Z (Qfloor (800 * d)) <= 2 * 800)%Q /\ (inject_Z (Qfloor (600 * d)) <= 2 * 600)%Q.
Proof.
  apply (dpr_bounds_backing_buffer about_config (Fin 1) (sample_field [] initial_mouse)
           sample_host 800 600); try reflexivity; try (vm_compute; discriminate);
    try (split; vm_compute; congruence).
  intros q Hq. injection Hq as <-. vm_compute. discriminate.
Defined.
