(* ===== verification/FieldEffect.v ===== *)
(** The lifecycle of one particle field: the [useEffect(() => { ... }, [])]
    of [BackgroundFX.tsx] (the same in every copy).  The effect body returns
    early when there is no canvas or no 2D context.  Otherwise it:
    - computes [DPR] and initialises the closure;
    - calls [resize()];
    - registers the [resize] and [mousemove] listeners;
    - requests the first frame.
    Its cleanup cancels the pending frame and removes both listeners.  The
    browser drives the closure through these registrations: [handle] is one
    event, and [reachable] is the closure of the events from a host with
    nothing registered. *)

From Stdlib Require Import QArith List Arith Lia.
From S2P Require Import Prelude JsNumber Canvas Particles.
Import ListNotations.

(** Where the effect stands. *)
Inductive status : Type :=
| Unmounted              (** the effect has not run *)
| Inert                  (** it returned early: no canvas or no context *)
| Failed (f : field)     (** its first [resize()] threw *)
| Running (f : field)    (** it ran; its cleanup has not *)
| Stopped (f : field).   (** its cleanup ran *)

Inductive event : Type :=
| EvMount (has_canvas has_context : bool)
| EvWindowResize (w h : num)
| EvMouseMove (client_x client_y rect_left rect_top : num)
| EvFrame (id : nat) (t : num)
| EvUnmount.

Definition initial_field (dpr : num) : field :=
  {| f_dpr := clamp_dpr dpr; f_raf := 0; f_width := Fin 0; f_height := Fin 0;
     f_mouse := initial_mouse; f_particles := [] |}.

(** The effect body. *)
Definition mount (cfg : config) (has_canvas has_context : bool) : St host status :=
  if negb has_canvas then st_ret Inert
  else if negb has_context then st_ret Inert
  else
    dpr <- window_device_pixel_ratio ;;
    r <- resize cfg (initial_field dpr) ;;
    let '(f1, err) := r in
    match err with
    | Some _ => st_ret (Failed f1)
    | None =>
        add_event_listener OnResize ;;;
        add_event_listener OnMouseMove ;;;
        raf <- request_animation_frame ;;
        st_ret (Running (with_frame f1 raf (f_particles f1)))
    end.

(** The function the effect returns. *)
Definition cleanup (f : field) : St host unit :=
  cancel_animation_frame (f_raf f) ;;;
  remove_event_listener OnResize ;;;
  remove_event_listener OnMouseMove.

(** A frame delivered to the closure: [step] runs whether or not the
    effect was cleaned up, which is why the cleanup must cancel it. *)
Definition deliver_frame (cfg : config) (sin : Q -> Q) (id : nat) (t : num)
    (s : status) (h : host) : status * host :=
  match take_frame id h, s with
  | Some h', Running f => let (f', h'') := step cfg sin f t h' in (Running f', h'')
  | Some h', Stopped f => let (f', h'') := step cfg sin f t h' in (Stopped f', h'')
  | _, _ => (s, h)
  end.

Definition handle (cfg : config) (sin : Q -> Q) (ev : event) (s : status) : St host status :=
  match ev, s with
  | EvMount c x, Unmounted => mount cfg c x
  | EvWindowResize w hgt, Running f =>
      set_window_size w hgt ;;;
      hs <- st_get ;;
      if has_listener OnResize hs
      then r <- resize cfg f ;; st_ret (Running (fst r))
      else st_ret (Running f)
  | EvWindowResize w hgt, _ => set_window_size w hgt ;;; st_ret s
  | EvMouseMove cx cy l t, Running f =>
      hs <- st_get ;;
      if has_listener OnMouseMove hs
      then st_ret (Running (on_mouse_move f cx cy l t))
      else st_ret (Running f)
  | EvFrame id t, _ => fun h => deliver_frame cfg sin id t s h
  | EvUnmount, Running f => cleanup f ;;; st_ret (Stopped f)
  | _, _ => st_ret s
  end.

(** A sequence of events delivered in order. *)
Fixpoint run_events (cfg : config) (sin : Q -> Q) (evs : list event) (s : status)
    : St host status :=
  match evs with
  | [] => st_ret s
  | ev :: evs' => s' <- handle cfg sin ev s ;; run_events cfg sin evs' s'
  end.

(** The states the browser can drive a field to, from a host where nothing
    is registered. *)
Inductive reachable (cfg : config) (sin : Q -> Q) : status -> host -> Prop :=
| reach_init (h : host) :
    h_pending h = [] -> h_listeners h = [] -> reachable cfg sin Unmounted h
| reach_step (s : status) (h : host) (ev : event) :
    reachable cfg sin s h ->
    reachable cfg sin (fst (handle cfg sin ev s h)) (snd (handle cfg sin ev s h)).

(** What the host has registered for the field in each status. *)
Definition registrations_ok (s : status) (h : host) : Prop :=
  match s with
  | Running f => h_pending h = [f_raf f] /\ h_listeners h = [OnResize; OnMouseMove]
  | _ => h_pending h = [] /\ h_listeners h = []
  end.

(** A host with nothing registered, for the witnesses. *)
Definition sample_host_empty : host :=
  {| h_inner_width := Fin 800; h_inner_height := Fin 600; h_device_pixel_ratio := Fin 1;
     h_random := fun n => if Nat.even n then (1 # 4)%Q else (3 # 4)%Q; h_random_pos := 0;
     h_next_frame := 1; h_pending := []; h_listeners := [];
     h_canvas := {| cv_width := 300%Z; cv_height := 150%Z;
                    cv_style_width := Fin 300; cv_style_height := Fin 150 |};
     h_log := [] |}.

(** ** What each handler does to the host's registrations *)

Definition regs (h : host) : list nat * list listener * nat :=
  (h_pending h, h_listeners h, h_next_frame h).

Lemma resize_regs (cfg : config) (f : field) (h : host) :
  regs (snd (resize cfg f h)) = regs h /\ f_raf (fst (fst (resize cfg f h))) = f_raf f.
Proof.
  unfold resize, st_bind, window_inner_width, window_inner_height,
    set_canvas_size, set_canvas_style, draw, draw_all.
  cbv beta iota zeta.
  destruct (array_length _); [|split; reflexivity].
  unfold st_bind. match goal with |- context [st_replicate ?n ?m ?h0] =>
    pose proof (st_replicate_inv (fun s => regs s = regs h0) n m h0
                  (fun s0 H => H) eq_refl) as Hinv;
    destruct (st_replicate n m h0) as [ps h1]
  end.
  split; [exact Hinv|reflexivity].
Qed.

Lemma set_window_size_regs (w hgt : num) (h : host) :
  regs (snd (set_window_size w hgt h)) = regs h /\
  h_log (snd (set_window_size w hgt h)) = h_log h.
Proof. split; reflexivity. Qed.

Lemma cleanup_spec (f : field) (h : host) :
  h_pending (snd (cleanup f h)) = remove_all Nat.eqb (f_raf f) (h_pending h) /\
  h_listeners (snd (cleanup f h))
    = remove_all listener_eqb OnMouseMove (remove_all listener_eqb OnResize (h_listeners h)) /\
  h_log (snd (cleanup f h)) = h_log h.
Proof. repeat split. Qed.

(** Mounting from a host with nothing registered. *)
Lemma mount_regs (cfg : config) (c x : bool) (h : host) :
  h_pending h = [] -> h_listeners h = [] ->
  registrations_ok (fst (mount cfg c x h)) (snd (mount cfg c x h)).
Proof.
  intros Hp Hl. unfold mount.
  destruct c; [|cbn; now split]. destruct x; [|cbn; now split].
  cbn [negb]. unfold st_bind, window_device_pixel_ratio.
  pose proof (resize_regs cfg (initial_field (h_device_pixel_ratio h)) h) as [Hr Hraf].
  destruct (resize cfg (initial_field (h_device_pixel_ratio h)) h) as [[f1 err] h1].
  cbn in Hr, Hraf. unfold regs in Hr. injection Hr as Hp1 Hl1 Hn1.
  destruct err as [e|]; [cbn; split; congruence|].
  unfold add_event_listener, request_animation_frame, st_ret.
  cbn. rewrite Hl1, Hl. cbn. rewrite Hp1, Hp. split; reflexivity.
Qed.

Lemma deliver_frame_regs (cfg : config) (sin : Q -> Q) (id : nat) (t : num)
    (s : status) (h : host) :
  registrations_ok s h ->
  registrations_ok (fst (deliver_frame cfg sin id t s h)) (snd (deliver_frame cfg sin id t s h)).
Proof.
  intros Hok. unfold deliver_frame, take_frame.
  destruct s as [| |f|f|f]; cbn in Hok; destruct Hok as [Hp Hl]; rewrite Hp; cbn -[step];
    try (split; assumption).
  destruct (Nat.eqb id (f_raf f)) eqn:E; cbn -[step]; [|split; assumption].
  apply Nat.eqb_eq in E. subst id.
  match goal with |- context [step cfg sin f t ?h'] =>
    pose proof (step_spec cfg sin f t h') as Hs; destruct (step cfg sin f t h') as [f' h'']
  end.
  destruct Hs as (-> & _ & Hp' & _ & Hl' & _). cbn.
  rewrite Hp', Hl'. cbn. rewrite ?Nat.eqb_refl. split; [reflexivity|exact Hl].
Qed.

Lemma handle_regs (cfg : config) (sin : Q -> Q) (ev : event) (s : status) (h : host) :
  registrations_ok s h ->
  registrations_ok (fst (handle cfg sin ev s h)) (snd (handle cfg sin ev s h)).
Proof.
  intros Hok. destruct ev as [c x|w hg|cx cy l tp|id t|].
  - destruct s; try exact Hok. destruct Hok. now apply mount_regs.
  - destruct s as [| |f|f|f]; cbn -[resize]; try exact Hok.
    destruct Hok as [Hp Hl]. unfold has_listener. cbn -[resize]. rewrite Hl. cbn -[resize].
    unfold st_bind.
    match goal with |- context [resize cfg f ?h'] =>
      pose proof (resize_regs cfg f h') as [Hr Hraf];
      destruct (resize cfg f h') as [[f1 err] h1]
    end.
    cbn in *. unfold regs in Hr. injection Hr as Hp1 Hl1 _. rewrite Hraf. split; congruence.
  - destruct s as [| |f|f|f]; cbn; try exact Hok.
    destruct Hok as [Hp Hl]. unfold has_listener. rewrite Hl. cbn. split; assumption.
  - apply deliver_frame_regs, Hok.
  - destruct s as [| |f|f|f]; cbn; try exact Hok.
    destruct Hok as [Hp Hl]. rewrite Hp, Hl. cbn. rewrite Nat.eqb_refl. split; reflexivity.
Qed.

(** In every state the browser can reach, a running field has exactly
    one pending animation frame, the one whose id is in its [raf], and
    exactly its two window listeners.  In every other state (not mounted,
    bailed out, failed, cleaned up) nothing is registered. *)
Theorem reachable_registrations (cfg : config) (sin : Q -> Q) (s : status) (h : host) :
  reachable cfg sin s h -> registrations_ok s h.
Proof.
  induction 1 as [h Hp Hl|s h ev _ IH].
  - cbn. split; assumption.
  - now apply handle_regs.
Qed.

(** C13: the teardown releases everything.  In every state the browser can
    reach, running the cleanup of a running field leaves no animation frame
    pending and no listener registered, and draws nothing: the frame it
    cancels is the one the loop last requested. *)
Theorem cleanup_releases_everything (cfg : config) (sin : Q -> Q) (f : field) (h : host) :
  reachable cfg sin (Running f) h ->
  h_pending (snd (cleanup f h)) = [] /\ h_listeners (snd (cleanup f h)) = [] /\
  h_log (snd (cleanup f h)) = h_log h.
Proof.
  intros Hr. destruct (reachable_registrations cfg sin _ _ Hr) as [Hp Hl].
  destruct (cleanup_spec f h) as (-> & -> & ->). rewrite Hp, Hl.
  unfold remove_all. cbn. rewrite Nat.eqb_refl. repeat split.
Qed.

Lemma cleanup_releases_everything_witness :
  let s1 := handle about_config zero_sin (EvMount true true) Unmounted sample_host_empty in
  let s2 := handle about_config zero_sin (EvFrame 1 (Fin 16)) (fst s1) (snd s1) in
  exists f, fst s2 = Running f /\
  h_pending (snd (cleanup f (snd s2))) = [] /\ h_listeners (snd (cleanup f (snd s2))) = [] /\
  h_log (snd (cleanup f (snd s2))) = h_log (snd s2).
Proof.
  cbv zeta.
  remember (handle about_config zero_sin (EvFrame 1 (Fin 16)) _ _) as s2 eqn:E2.
  assert (Hr : reachable about_config zero_sin (fst s2) (snd s2))
    by (subst s2; apply reach_step, reach_step, reach_init; reflexivity).
  assert (Hs : exists f, fst s2 = Running f) by (subst s2; vm_compute; eexists; reflexivity).
  destruct Hs as [f Hf]. exists f. split; [exact Hf|]. rewrite Hf in Hr.
  exact (cleanup_releases_everything about_config zero_sin f (snd s2) Hr).
Defined.

(** C14: once its cleanup has run, a field has nothing registered, and no
    later event changes it or draws on its canvas: no frame reaches the
    detached closure. *)
Theorem stopped_field_is_silent (cfg : config) (sin : Q -> Q) (f : field) (h : host)
    (ev : event) :
  reachable cfg sin (Stopped f) h ->
  h_pending h = [] /\ h_listeners h = [] /\
  fst (handle cfg sin ev (Stopped f) h) = Stopped f /\
  h_log (snd (handle cfg sin ev (Stopped f) h)) = h_log h /\
  regs (snd (handle cfg sin ev (Stopped f) h)) = regs h.
Proof.
  intros Hr. destruct (reachable_registrations cfg sin _ _ Hr) as [Hp Hl].
  split; [exact Hp|]. split; [exact Hl|].
  destruct ev as [c x|w hg|cx cy l tp|id t|]; cbn; try (repeat split; reflexivity).
  unfold deliver_frame, take_frame. rewrite Hp. cbn. repeat split.
Qed.

Lemma stopped_field_is_silent_witness :
  let s1 := handle about_config zero_sin (EvMount true true) Unmounted sample_host_empty in
  let s2 := handle about_config zero_sin EvUnmount (fst s1) (snd s1) in
  h_pending (snd s2) = [] /\ h_listeners (snd s2) = [] /\
  fst (handle about_config zero_sin (EvFrame 1 (Fin 16)) (fst s2) (snd s2)) = fst s2 /\
  h_log (snd (handle about_config zero_sin (EvFrame 1 (Fin 16)) (fst s2) (snd s2)))
    = h_log (snd s2) /\
  regs (snd (handle about_config zero_sin (EvFrame 1 (Fin 16)) (fst s2) (snd s2)))
    = regs (snd s2).
Proof.
  cbv zeta.
  remember (handle about_config zero_sin EvUnmount _ _) as s2 eqn:E2.
  assert (Hr : reachable about_config zero_sin (fst s2) (snd s2))
    by (subst s2; apply reach_step, reach_step, reach_init; reflexivity).
  assert (Hs : exists f, fst s2 = Stopped f) by (subst s2; vm_compute; eexists; reflexivity).
  destruct Hs as [f Hf]. rewrite Hf in *.
  exact (stopped_field_is_silent about_config zero_sin f (snd s2) _ Hr).
Defined.

(** C15: the cleanup undoes what the effect registered.  Mounting on a
    host that has none of the field's listeners and whose next frame id is
    not pending, then unmounting, leaves the host's pending frames and
    listeners exactly as they were, whichever way the mount went (bailed
    out, failed, or running). *)
Theorem mount_unmount_restores (cfg : config) (sin : Q -> Q) (c x : bool) (h : host) :
  existsb (Nat.eqb (h_next_frame h)) (h_pending h) = false ->
  has_listener OnResize h = false -> has_listener OnMouseMove h = false ->
  let (s1, h1) := handle cfg sin (EvMount c x) Unmounted h in
  let (s2, h2) := handle cfg sin EvUnmount s1 h1 in
  h_pending h2 = h_pending h /\ h_listeners h2 = h_listeners h.
Proof.
  intros Hp Hr Hm. cbn [handle]. unfold mount.
  destruct c; [|split; reflexivity]. destruct x; [|split; reflexivity].
  cbn [negb]. unfold st_bind, window_device_pixel_ratio.
  pose proof (resize_regs cfg (initial_field (h_device_pixel_ratio h)) h) as [Hreg _].
  destruct (resize cfg (initial_field (h_device_pixel_ratio h)) h) as [[f1 err] h1].
  cbn in Hreg. unfold regs in Hreg. injection Hreg as Hp1 Hl1 Hn1.
  destruct err as [e|]; [cbn; split; congruence|].
  unfold has_listener in Hr, Hm. unfold add_event_listener, request_animation_frame.
  cbn -[remove_all]. rewrite Hl1, Hr. cbn -[remove_all]. rewrite existsb_app, Hm.
  cbn -[remove_all]. rewrite Hp1, Hn1, !remove_all_app.
  rewrite (remove_all_notin _ _ (h_pending h)), (remove_all_notin _ _ (h_listeners h)) by assumption.
  cbn -[remove_all]. rewrite (remove_all_notin _ _ (h_listeners h)) by assumption.
  unfold remove_all. cbn. rewrite Nat.eqb_refl, !app_nil_r. split; reflexivity.
Qed.

Lemma mount_unmount_restores_witness :
  let h := with_frames sample_host_empty 5 [2; 3]%nat in
  existsb (Nat.eqb (h_next_frame h)) (h_pending h) = false /\
  let (s1, h1) := handle about_config zero_sin (EvMount true true) Unmounted h in
  let (s2, h2) := handle about_config zero_sin EvUnmount s1 h1 in
  h_pending h2 = h_pending h /\ h_listeners h2 = h_listeners h.
Proof.
  cbv zeta. split; [reflexivity|].
  apply (mount_unmount_restores about_config zero_sin true true); reflexivity.
Defined.

(** Everything the field itself can change on the host. *)
Definition footprint (h : host) : list nat * list listener * nat * canvas * list cmd * nat :=
  (h_pending h, h_listeners h, h_next_frame h, h_canvas h, h_log h, h_random_pos h).

Lemma handle_inert_footprint (cfg : config) (sin : Q -> Q) (ev : event) (h : host) :
  fst (handle cfg sin ev Inert h) = Inert /\
  footprint (snd (handle cfg sin ev Inert h)) = footprint h.
Proof.
  destruct ev; cbn; try (split; reflexivity).
  unfold deliver_frame. destruct (take_frame _ _); split; reflexivity.
Qed.

Lemma run_events_inert (cfg : config) (sin : Q -> Q) (evs : list event) (h : host) :
  fst (run_events cfg sin evs Inert h) = Inert /\
  footprint (snd (run_events cfg sin evs Inert h)) = footprint h.
Proof.
  revert h. induction evs as [|ev evs IH]; intros h; [split; reflexivity|].
  cbn [run_events]. unfold st_bind.
  destruct (handle_inert_footprint cfg sin ev h) as [Hs Hf].
  destruct (handle cfg sin ev Inert h) as [s1 h1]. cbn in Hs, Hf. subst s1.
  rewrite <- Hf. apply IH.
Qed.

(** C16: when the canvas or its 2D context is missing, the effect returns
    early and the field stays inert for ever: whatever events follow, it
    never draws, never touches the canvas, never requests a frame, never
    registers a listener and never reads [Math.random]. *)
Theorem missing_canvas_is_silent (cfg : config) (sin : Q -> Q) (c x : bool)
    (evs : list event) (h : host) :
  c && x = false ->
  fst (run_events cfg sin (EvMount c x :: evs) Unmounted h) = Inert /\
  footprint (snd (run_events cfg sin (EvMount c x :: evs) Unmounted h)) = footprint h.
Proof.
  intros Hcx. cbn [run_events]. unfold st_bind. cbn [handle].
  assert (Hm : mount cfg c x h = (Inert, h))
    by (destruct c, x; first [discriminate | reflexivity]).
  rewrite Hm. apply run_events_inert.
Qed.

Lemma missing_canvas_is_silent_witness :
  let evs := [EvWindowResize (Fin 1024) (Fin 768); EvMouseMove (Fin 10) (Fin 10) (Fin 0) (Fin 0);
              EvFrame 1 (Fin 16); EvMount true true; EvUnmount] in
  true && false = false /\
  fst (run_events about_config zero_sin (EvMount true false :: evs) Unmounted sample_host_empty)
    = Inert /\
  footprint (snd (run_events about_config zero_sin (EvMount true false :: evs) Unmounted
                    sample_host_empty)) = footprint sample_host_empty.
Proof.
  cbv zeta. split; [reflexivity|].
  apply (missing_canvas_is_silent about_config zero_sin true false); reflexivity.
Defined.

(** ** The abstract lifecycle and its refinement *)

(** The two-state machine the lifecycle is specified by: activation
    allocates, registers and schedules; deactivation cancels and
    unregisters; nothing else moves between the two. *)
Inductive phase : Type := Inactive | Active.

Definition phase_of (s : status) : phase :=
  match s with Running _ => Active | _ => Inactive end.

Inductive spec_step : phase -> event -> phase -> Prop :=
| spec_activate : spec_step Inactive (EvMount true true) Active
| spec_idle (ev : event) : spec_step Inactive ev Inactive
| spec_deactivate : spec_step Active EvUnmount Inactive
| spec_active (ev : event) : ev <> EvUnmount -> spec_step Active ev Active.

Inductive spec_run : phase -> list event -> phase -> Prop :=
| spec_run_nil (p : phase) : spec_run p [] p
| spec_run_cons (p p' p'' : phase) (ev : event) (evs : list event) :
    spec_step p ev p' -> spec_run p' evs p'' -> spec_run p (ev :: evs) p''.

(** What the platform holds in each abstract phase. *)
Definition phase_regs (p : phase) (h : host) : Prop :=
  match p with
  | Active => exists raf, h_pending h = [raf] /\ h_listeners h = [OnResize; OnMouseMove]
  | Inactive => h_pending h = [] /\ h_listeners h = []
  end.

Lemma registrations_phase (s : status) (h : host) :
  registrations_ok s h -> phase_regs (phase_of s) h.
Proof. destruct s; cbn; try tauto. intros [Hp Hl]. eauto. Qed.

(** Case on the result of the first call of [f] in the goal. *)
Ltac destruct_call f :=
  match goal with
  | |- context [f ?a ?b ?c ?d ?e] => destruct (f a b c d e)
  | |- context [f ?a ?b ?c] => destruct (f a b c)
  | |- context [f ?a ?b] => destruct (f a b)
  end.

Lemma handle_spec_step (cfg : config) (sin : Q -> Q) (ev : event) (s : status) (h : host) :
  spec_step (phase_of s) ev (phase_of (fst (handle cfg sin ev s h))).
Proof.
  destruct s as [| |f|f|f]; cbn [phase_of].
  - destruct ev as [c x| | | |]; cbn [handle]; try (unfold deliver_frame; cbn;
      destruct_call take_frame; apply spec_idle).
    all: try apply spec_idle.
    unfold mount. destruct c, x; cbn [negb]; try apply spec_idle.
    unfold st_bind, window_device_pixel_ratio. cbv beta iota. match goal with |- context [resize ?a ?b ?c] =>
      destruct (resize a b c) as [[f1 [e|]] h1] end; [apply spec_idle|].
    apply spec_activate.
  - destruct ev; cbn [handle]; try apply spec_idle.
    unfold deliver_frame. destruct_call take_frame; apply spec_idle.
  - destruct ev; cbn [handle]; try apply spec_idle.
    unfold deliver_frame. destruct_call take_frame; apply spec_idle.
  - destruct ev as [c x|w hg|cx cy l tp|id t|]; cbn [handle];
      [apply spec_active; discriminate| | | |apply spec_deactivate].
    + unfold st_bind. cbn -[resize]. destruct_call existsb; cbn -[resize];
        [destruct_call resize|]; apply spec_active; discriminate.
    + unfold st_bind. cbn. destruct_call has_listener; apply spec_active; discriminate.
    + unfold deliver_frame. destruct_call take_frame;
        [destruct_call step|]; apply spec_active; discriminate.
  - destruct ev; cbn [handle]; try apply spec_idle.
    unfold deliver_frame. destruct_call take_frame; [destruct_call step|];
      apply spec_idle.
Qed.

Lemma reachable_run_events (cfg : config) (sin : Q -> Q) (evs : list event)
    (s : status) (h : host) :
  reachable cfg sin s h ->
  reachable cfg sin (fst (run_events cfg sin evs s h)) (snd (run_events cfg sin evs s h)) /\
  spec_run (phase_of s) evs (phase_of (fst (run_events cfg sin evs s h))).
Proof.
  revert s h. induction evs as [|ev evs IH]; intros s h Hr; [split; [exact Hr|constructor]|].
  cbn [run_events]. unfold st_bind.
  pose proof (reach_step cfg sin s h ev Hr) as Hr'.
  pose proof (handle_spec_step cfg sin ev s h) as Hst.
  destruct (handle cfg sin ev s h) as [s1 h1]. cbn in Hr', Hst.
  destruct (IH s1 h1 Hr') as [Hr'' Hrun]. split; [exact Hr''|].
  econstructor; eassumption.
Qed.

(** C17: the effect refines the two-state lifecycle of the specification.
    From a host with nothing registered, every sequence of browser events
    drives the field along a run of the abstract machine (it becomes active
    only by a mount that finds its canvas and context, and inactive only by
    the unmount), and at the end the host holds exactly what the abstract
    phase says: one pending frame and both listeners when active, nothing
    when inactive. *)
Theorem lifecycle_refines_spec (cfg : config) (sin : Q -> Q) (evs : list event) (h : host) :
  h_pending h = [] -> h_listeners h = [] ->
  let (s', h') := run_events cfg sin evs Unmounted h in
  spec_run Inactive evs (phase_of s') /\ phase_regs (phase_of s') h'.
Proof.
  intros Hp Hl.
  destruct (reachable_run_events cfg sin evs Unmounted h (reach_init cfg sin h Hp Hl))
    as [Hr Hrun].
  pose proof (registrations_phase _ _ (reachable_registrations cfg sin _ _ Hr)) as Hph.
  destruct (run_events cfg sin evs Unmounted h) as [s' h']. split; assumption.
Qed.

Lemma lifecycle_refines_spec_witness :
  h_pending sample_host_empty = [] /\ h_listeners sample_host_empty = [] /\
  let (s', h') := run_events about_config zero_sin
                    [EvMount true true; EvFrame 1 (Fin 16); EvUnmount] Unmounted sample_host_empty in
  spec_run Inactive [EvMount true true; EvFrame 1 (Fin 16); EvUnmount] (phase_of s') /\
  phase_regs (phase_of s') h'.
Proof.
  split; [reflexivity|]. split; [reflexivity|].
  apply (lifecycle_refines_spec about_config zero_sin); reflexivity.
Defined.
