(* ===== verification/View.v ===== *)
(** What a component renders: its JSX as a tree of elements.
    - An element has a tag, the attributes the code sets (ids, links,
      [target], [rel], [aria-label], sources, input names), the event its
      [onClick] dispatches, if any, and its children; text is a leaf.
    - Class names and inline styles are left out, except where they depend
      on the state: those are in the components' own files ([header_class],
      [menu_class], the skill bars' width).
    - The event type is a parameter: each component dispatches its own
      events.  React renders [undefined], [null] and [false] children as
      nothing; the views below leave them out of the list.
    The collectors list the links, the click handlers and the text of a
    tree in document order. *)

From Stdlib Require Import String List Bool ZArith Lia DecimalString Decimal.
From S2P Require Import Prelude.
Import ListNotations.
Open Scope string_scope.
Open Scope list_scope.

Section Node.

Context {E : Type}.

Local Unset Elimination Schemes.

Inductive node : Type :=
| Text (s : string)
| El (tag : string) (attrs : list (string * string)) (on_click : option E) (children : list node).

(** The induction principle with [Forall] over the children. *)
Section node_ind.
Variable P : node -> Prop.
Hypothesis P_text : forall s, P (Text s).
Hypothesis P_el : forall tag attrs h cs, Forall P cs -> P (El tag attrs h cs).

Fixpoint node_ind (n : node) : P n :=
  let fix go (cs : list node) : Forall P cs :=
      match cs with
      | [] => Forall_nil _
      | c :: cs' => Forall_cons _ (node_ind c) (go cs')
      end in
  match n with
  | Text s => P_text s
  | El tag attrs h cs => P_el tag attrs h cs (go cs)
  end.
End node_ind.

(** The value of an attribute. *)
Definition attr (a : string) (attrs : list (string * string)) : option string :=
  match find (fun kv => String.eqb (fst kv) a) attrs with Some (_, v) => Some v | None => None end.

(** The attributes of every element with tag [t], in document order. *)
Fixpoint elements (t : string) (n : node) : list (list (string * string)) :=
  match n with
  | Text _ => []
  | El tag attrs _ cs =>
      (if String.eqb tag t then [attrs] else []) ++ flat_map (elements t) cs
  end.

(** The attributes of every element, in document order. *)
Fixpoint all_elements (n : node) : list (list (string * string)) :=
  match n with
  | Text _ => []
  | El _ attrs _ cs => attrs :: flat_map all_elements cs
  end.

(** The tag and attributes of every element, in document order. *)
Fixpoint tagged (n : node) : list (string * list (string * string)) :=
  match n with
  | Text _ => []
  | El tag attrs _ cs => (tag, attrs) :: flat_map tagged cs
  end.

(** The events of the click handlers, in document order. *)
Fixpoint clicks (n : node) : list E :=
  match n with
  | Text _ => []
  | El _ _ h cs => match h with Some e => [e] | None => [] end ++ flat_map clicks cs
  end.

(** The text of the tree, in document order. *)
Fixpoint texts (n : node) : list string :=
  match n with
  | Text s => [s]
  | El _ _ _ cs => flat_map texts cs
  end.

End Node.

Arguments node : clear implicits.

(** A page's [<a>] elements. *)
Definition links {E} (n : node E) : list (list (string * string)) := elements "a" n.

(** [target="_blank"] links that do not set [rel="noopener noreferrer"]. *)
Definition unsafe_blank (attrs : list (string * string)) : bool :=
  match attr "target" attrs with
  | Some t => String.eqb t "_blank" &&
              negb (match attr "rel" attrs with
                    | Some r => String.eqb r "noopener noreferrer" | None => false end)
  | None => false
  end.

(** [`${n}`] for a non-negative integer. *)
Definition nat_str (n : nat) : string := NilEmpty.string_of_uint (Nat.to_uint n).

(** [array[i]] in JavaScript: [undefined] below 0 or past the end. *)
Definition js_index {A} (l : list A) (i : Z) : option A :=
  if (i <? 0)%Z then None else nth_error l (Z.to_nat i).

(** The address of a [mailto:] link, if it is one. *)
Definition mailto_address (href : string) : option string :=
  if String.prefix "mailto:" href then Some (substring 7 (String.length href - 7) href) else None.

(** The addresses the [mailto:] links of a tree write to. *)
Definition mail_targets {E} (n : node E) : list string :=
  flat_map (fun a => match attr "href" a with
                     | Some h => match mailto_address h with Some m => [m] | None => [] end
                     | None => [] end) (links n).

(** ** Lemmas *)

Lemma js_index_lt {A} (l : list A) (i : Z) :
  (0 <= i < Z.of_nat (length l))%Z -> exists x, js_index l i = Some x.
Proof.
  intros H. unfold js_index. destruct (Z.ltb_spec i 0); [lia|]. apply nth_error_lt. lia.
Qed.

Lemma clicks_El {E} tag attrs (h : option E) cs :
  clicks (El tag attrs h cs) = match h with Some e => [e] | None => [] end ++ flat_map clicks cs.
Proof. reflexivity. Qed.

Lemma texts_El {E} tag attrs (h : option E) cs : texts (El tag attrs h cs) = flat_map texts cs.
Proof. reflexivity. Qed.
