(* ===== verification/Navigation.v ===== *)
(** Navigation between the page's sections: the [Header] component
    ([Header.tsx]) and the navigation column of the [Footer] ([Footer.tsx]).
    - The page is the list of its elements that carry an [id], in document
      order; [getElementById] returns the first one with that id.
    - The window holds its scroll offset, its [scroll] listeners and the
      scroll requests made on it.
    - The header holds its two state variables [isMenuOpen] and
      [isScrolled], and is driven by events: its mount effect, a scroll of
      the window, a click on the menu button or on a navigation button, and
      the unmount. *)

From Stdlib Require Import String List Bool QArith Lia Lqa.
From S2P Require Import Prelude JsNumber.
Import ListNotations.
Open Scope string_scope.

(** ** The page and the window *)

Inductive elem_kind : Type := SectionEl | InputEl | TextAreaEl.

Record element : Type := Element { el_id : string; el_kind : elem_kind }.

(** The elements with an id, in the order the page composes its sections:
    [<section id=...>] of each component and the inputs of the contact
    form. *)
Definition page_elements : list element :=
  [Element "hero" SectionEl; Element "about" SectionEl; Element "skills" SectionEl;
   Element "projects" SectionEl; Element "contact" SectionEl;
   Element "name" InputEl; Element "email" InputEl; Element "subject" InputEl;
   Element "message" TextAreaEl].

(** [document.getElementById(id)]: the first element with that id.  An
    [undefined] argument is converted to the string ["undefined"]. *)
Definition getElementById (doc : list element) (id : option string) : option element :=
  let key := match id with Some s => s | None => "undefined" end in
  find (fun e => String.eqb (el_id e) key) doc.

Inductive scroll_request : Type :=
| ScrollIntoView (id : string)   (** [el.scrollIntoView({ behavior: 'smooth' })] *)
| ScrollTo (top : num).          (** [window.scrollTo({ top, behavior: 'smooth' })] *)

Record window : Type := {
  w_scroll_y : num;
  w_scroll_listeners : nat;       (** how many [scroll] listeners are registered *)
  w_requests : list scroll_request
}.

Definition with_scroll_y (w : window) (y : num) : window :=
  {| w_scroll_y := y; w_scroll_listeners := w_scroll_listeners w; w_requests := w_requests w |}.

Definition with_scroll_listeners (w : window) (n : nat) : window :=
  {| w_scroll_y := w_scroll_y w; w_scroll_listeners := n; w_requests := w_requests w |}.

Definition request (w : window) (r : scroll_request) : window :=
  {| w_scroll_y := w_scroll_y w; w_scroll_listeners := w_scroll_listeners w;
     w_requests := w_requests w ++ [r] |}.

(** [document.getElementById(id)?.scrollIntoView(...)]: a missing element
    requests nothing. *)
Definition scroll_into_view (doc : list element) (id : option string) (w : window) : window :=
  match getElementById doc id with
  | Some e => request w (ScrollIntoView (el_id e))
  | None => w
  end.

(** ** The header *)

Record header_state : Type := { isMenuOpen : bool; isScrolled : bool }.

(** [useState(false)] twice. *)
Definition initial_header : header_state := {| isMenuOpen := false; isScrolled := false |}.

Definition set_menu_open (s : header_state) (b : bool) : header_state :=
  {| isMenuOpen := b; isScrolled := isScrolled s |}.

Definition set_scrolled (s : header_state) (b : bool) : header_state :=
  {| isMenuOpen := isMenuOpen s; isScrolled := b |}.

(** [handleScroll]: [setIsScrolled(window.scrollY > 50)]. *)
Definition handleScroll (w : window) (s : header_state) : header_state :=
  set_scrolled s (ngt (w_scroll_y w) (Fin 50)).

(** [scrollToSection(sectionId)]: scroll if the element exists, then close
    the menu in every case. *)
Definition scrollToSection (sectionId : option string) (s : header_state) (w : window)
    : header_state * window :=
  (set_menu_open s false, scroll_into_view page_elements sectionId w).

Definition header_nav_items : list string :=
  ["Accueil"; "À propos"; "Compétences"; "Projets"; "Contact"].

Definition header_nav_ids : list string := ["hero"; "about"; "skills"; "projects"; "contact"].

(** The buttons [items.map((item, index) => ...)] renders, each with the
    argument its [onClick] passes: [['hero', ...][index]], [undefined] out
    of range.  The desktop and the mobile menus render the same list. *)
Definition header_buttons : list (string * option string) :=
  map (fun index => (nth index header_nav_items "", nth_error header_nav_ids index))
      (seq 0 (length header_nav_items)).

(** The header's [className]. *)
Definition header_class (s : header_state) : string :=
  "fixed top-0 left-0 right-0 z-50 transition-all duration-300 " ++
  (if isScrolled s then "bg-black/90 backdrop-blur-sm border-b border-gray-800"
   else "bg-transparent").

(** The mobile menu's [className]: collapsed unless [isMenuOpen]. *)
Definition menu_class (s : header_state) : string :=
  "md:hidden transition-all duration-300 overflow-hidden " ++
  (if isMenuOpen s then "max-h-64 opacity-100" else "max-h-0 opacity-0").

Inductive header_status : Type := HUnmounted | HMounted | HUnmountedAfter.

Inductive header_event : Type :=
| HMount                        (** the effect runs after the first render *)
| HWindowScroll (y : num)       (** the user scrolls the window to [y] *)
| HMenuButton                   (** [setIsMenuOpen(!isMenuOpen)] *)
| HNavButton (index : nat)      (** a click on the [index]-th navigation button *)
| HUnmount.                     (** the effect's cleanup *)

(** One event.  The window's [scroll] event reaches [handleScroll] only
    while the listener the effect added is registered. *)
Definition header_handle (ev : header_event) (st : header_status) (s : header_state)
    (w : window) : header_status * header_state * window :=
  match ev, st with
  | HMount, HUnmounted => (HMounted, s, with_scroll_listeners w (S (w_scroll_listeners w)))
  | HWindowScroll y, HMounted =>
      let w' := with_scroll_y w y in (HMounted, handleScroll w' s, w')
  | HWindowScroll y, _ => (st, s, with_scroll_y w y)
  | HMenuButton, HMounted => (st, set_menu_open s (negb (isMenuOpen s)), w)
  | HNavButton index, HMounted =>
      match nth_error header_buttons index with
      | Some (_, target) => let (s', w') := scrollToSection target s w in (st, s', w')
      | None => (st, s, w)
      end
  | HUnmount, HMounted =>
      (HUnmountedAfter, s, with_scroll_listeners w (pred (w_scroll_listeners w)))
  | _, _ => (st, s, w)
  end.

Fixpoint header_run (evs : list header_event) (st : header_status) (s : header_state)
    (w : window) : header_status * header_state * window :=
  match evs with
  | [] => (st, s, w)
  | ev :: evs' =>
      let '(st', s', w') := header_handle ev st s w in header_run evs' st' s' w'
  end.

(** ** The footer's navigation column and its scroll-to-top button *)

Definition footer_links : list (string * string) :=
  [("Accueil", "hero"); ("À propos", "about"); ("Compétences", "skills");
   ("Projets", "projects"); ("Contact", "contact")].

(** [onClick] of a footer link. *)
Definition footer_click (link : string * string) (w : window) : window :=
  scroll_into_view page_elements (Some (snd link)) w.

(** [scrollToTop]. *)
Definition scrollToTop (w : window) : window := request w (ScrollTo (Fin 0)).

(** ** Lemmas *)

(** The listeners the header holds in each status, above those of the rest
    of the page. *)
Definition header_listeners (st : header_status) : nat :=
  match st with HMounted => 1 | _ => 0 end.

Lemma header_handle_listeners (ev : header_event) (st : header_status) (s : header_state)
    (w : window) (base : nat) :
  w_scroll_listeners w = (base + header_listeners st)%nat ->
  let '(st', _, w') := header_handle ev st s w in
  w_scroll_listeners w' = (base + header_listeners st')%nat.
Proof.
  intros Hw. destruct ev as [|y| |i|], st; cbn -[header_buttons] in *; try exact Hw; try lia.
  destruct (nth_error header_buttons i) as [[l t]|]; cbn; [|exact Hw].
  unfold scroll_into_view. destruct (getElementById _ _); exact Hw.
Qed.

(** Whether [isScrolled] reflects the window's offset in a mounted header. *)
Definition scroll_synced (st : header_status) (s : header_state) (w : window) : Prop :=
  st = HMounted -> isScrolled s = ngt (w_scroll_y w) (Fin 50).

Lemma header_handle_synced (ev : header_event) (st : header_status) (s : header_state)
    (w : window) :
  st <> HUnmounted -> scroll_synced st s w ->
  let '(st', s', w') := header_handle ev st s w in st' <> HUnmounted /\ scroll_synced st' s' w'.
Proof.
  intros Hst Hs. unfold scroll_synced in *.
  destruct ev as [|y| |i|], st; cbn -[header_buttons]; try contradiction;
    try (split; [discriminate|intros E; discriminate E]); try (split; [discriminate|exact Hs]);
    try (split; [discriminate|intros _; reflexivity]).
  destruct (nth_error header_buttons i) as [[l t]|]; cbn; [|split; [discriminate|exact Hs]].
  unfold scroll_into_view. split; [discriminate|].
  destruct (getElementById _ _); exact Hs.
Qed.

(** An invariant of [header_handle] is an invariant of [header_run]. *)
Lemma header_run_inv (P : header_status -> header_state -> window -> Prop) :
  (forall ev st s w, P st s w -> let '(st', s', w') := header_handle ev st s w in P st' s' w') ->
  forall evs st s w, P st s w -> let '(st', s', w') := header_run evs st s w in P st' s' w'.
Proof.
  intros Hstep evs. induction evs as [|ev evs IH]; intros st s w H; [exact H|].
  cbn [header_run]. specialize (Hstep ev st s w H).
  destruct (header_handle ev st s w) as [[st1 s1] w1]. now apply IH.
Qed.

(** C18: every navigation button of the header, in the desktop and the
    mobile menu, targets the section its label names: the footer's link
    with the same label goes to the same id, the page has a section (not a
    form field) with that id, and a click requests a smooth scroll to it and
    closes the mobile menu. *)
Theorem nav_buttons_reach_sections (i : nat) (label : string) (target : option string) :
  nth_error header_buttons i = Some (label, target) ->
  exists id, target = Some id /\ In (label, id) footer_links /\
    getElementById page_elements target = Some (Element id SectionEl) /\
    footer_click (label, id) = scroll_into_view page_elements target /\
    (forall s w, header_handle (HNavButton i) HMounted s w
                 = (HMounted, set_menu_open s false, request w (ScrollIntoView id))).
Proof.
  intros H.
  do 5 (destruct i as [|i]; [injection H as <- <-; eexists; split; [reflexivity|];
                             split; [cbn; tauto|]; split; [reflexivity|];
                             split; [reflexivity|]; intros s w; reflexivity|]).
  destruct i; discriminate H.
Qed.

Lemma nav_buttons_reach_sections_witness :
  nth_error header_buttons 2 = Some ("Compétences", Some "skills") /\
  exists id, Some "skills" = Some id /\ In ("Compétences", id) footer_links /\
    getElementById page_elements (Some "skills") = Some (Element id SectionEl) /\
    footer_click ("Compétences", id) = scroll_into_view page_elements (Some "skills") /\
    (forall s w, header_handle (HNavButton 2) HMounted s w
                 = (HMounted, set_menu_open s false, request w (ScrollIntoView id))).
Proof.
  split; [reflexivity|]. apply (nav_buttons_reach_sections 2). reflexivity.
Defined.

(** C19: the header's [scroll] listener is registered and removed
    symmetrically.  From an unmounted header, whatever the events, the
    window holds the listeners it had plus exactly one while the header is
    mounted, and exactly the ones it had once it is unmounted: no leak and
    no duplicate. *)
Theorem scroll_listener_balanced (evs : list header_event) (s : header_state) (w : window) :
  let '(st', _, w') := header_run evs HUnmounted s w in
  w_scroll_listeners w' = (w_scroll_listeners w + header_listeners st')%nat.
Proof.
  apply (header_run_inv (fun st _ w' => w_scroll_listeners w'
                           = (w_scroll_listeners w + header_listeners st)%nat)).
  - intros ev st s0 w0 H. apply header_handle_listeners, H.
  - cbn. lia.
Qed.

(** C20: once the window has scrolled while the header is mounted,
    [isScrolled] is [window.scrollY > 50] after every later event. *)
Theorem scrolled_flag_tracks_window (y : num) (evs : list header_event) (s : header_state)
    (w : window) :
  let '(st', s', w') := header_run (HWindowScroll y :: evs) HMounted s w in
  st' = HMounted -> isScrolled s' = ngt (w_scroll_y w') (Fin 50).
Proof.
  cbn [header_run header_handle].
  pose proof (header_run_inv (fun st s0 w0 => st <> HUnmounted /\ scroll_synced st s0 w0)
           (fun ev st s0 w0 H => header_handle_synced ev st s0 w0 (proj1 H) (proj2 H))
           evs HMounted (handleScroll (with_scroll_y w y) s) (with_scroll_y w y)) as Hinv.
  destruct (header_run evs _ _ _) as [[st' s'] w'].
  apply Hinv. split; [discriminate|intros _; reflexivity].
Qed.

(** C21 (finding): the mount effect only registers [handleScroll]; it does
    not call it.  A page that is already scrolled past 50 px when the header
    mounts (a reload that restores the offset, an anchor in the URL) keeps
    a transparent header until the next [scroll] event. *)
Theorem header_transparent_until_scroll (w : window) (y : Q) :
  w_scroll_y w = Fin y -> (50 < y)%Q ->
  let '(st', s', w') := header_run [HMount] HUnmounted initial_header w in
  st' = HMounted /\ ngt (w_scroll_y w') (Fin 50) = true /\
  header_class s' = "fixed top-0 left-0 right-0 z-50 transition-all duration-300 bg-transparent".
Proof.
  intros Hy Hlt. cbn. rewrite Hy. cbn. rewrite (proj2 (qltb_iff 50 y) Hlt).
  repeat split.
Qed.

Lemma header_transparent_until_scroll_witness :
  let w := {| w_scroll_y := Fin 300; w_scroll_listeners := 0; w_requests := [] |} in
  let '(st', s', w') := header_run [HMount] HUnmounted initial_header w in
  st' = HMounted /\ ngt (w_scroll_y w') (Fin 50) = true /\
  header_class s' = "fixed top-0 left-0 right-0 z-50 transition-all duration-300 bg-transparent".
Proof. apply (header_transparent_until_scroll _ 300); [reflexivity|lra]. Defined.

Lemma scrolled_flag_tracks_window_witness :
  let w := {| w_scroll_y := Fin 0; w_scroll_listeners := 1; w_requests := [] |} in
  let '(st', s', w') := header_run [HWindowScroll (Fin 120); HMenuButton; HNavButton 4]
                          HMounted initial_header w in
  st' = HMounted -> isScrolled s' = ngt (w_scroll_y w') (Fin 50).
Proof. exact (scrolled_flag_tracks_window (Fin 120) [HMenuButton; HNavButton 4] _ _). Defined.

(** The footer's [socialLinks]: [href] and [label] of each icon link. *)
Definition footer_social_links : list (string * string) :=
  [("#", "GitHub"); ("#", "LinkedIn"); ("mailto:contact@exemple.com", "Email")].
