(* ===== verification/HeroUi.v ===== *)
(** The interactive state of the hero banner ([Hero.tsx], outside its
    particle field) and of the CV viewer it renders ([CVModal.tsx]).
    - [CVModal] holds no state of its own.  Its effect, keyed on [isOpen],
      locks the body's scrolling while the modal is open, and its download
      handler adds a temporary link to the body.  React runs the previous
      cleanup before the effect each time [isOpen] changes, and the last
      cleanup on unmount.
    - [Hero] holds the index of the rotating description and whether the
      CV modal is open.  Its first effect starts a 2500 ms interval that
      advances the index modulo the number of descriptions, and clears it
      on unmount.  Every render of [Hero] renders
      [<CVModal isOpen={isCVModalOpen} .../>]. *)

From Stdlib Require Import String List Bool ZArith QArith Lia.
From S2P Require Import Prelude JsNumber Navigation.
Import ListNotations.
Open Scope nat_scope.
Open Scope string_scope.

(** The document body as these components use it. *)
Record body : Type := {
  b_overflow : string;                 (** [document.body.style.overflow] *)
  b_children : list nat;               (** the appended elements, by id *)
  b_next_element : nat;                (** the id [createElement] gives next *)
  b_downloads : list (string * string) (** the downloads started: href, file name *)
}.

Definition with_overflow (b : body) (o : string) : body :=
  {| b_overflow := o; b_children := b_children b; b_next_element := b_next_element b;
     b_downloads := b_downloads b |}.

Module CVModal.

(** [useEffect(() => { ... }, [isOpen])]: the effect and its cleanup. *)
Definition overflow_effect (isOpen : bool) (b : body) : body :=
  if isOpen then with_overflow b "hidden" else with_overflow b "auto".

Definition overflow_cleanup (b : body) : body := with_overflow b "auto".

(** A commit of [CVModal] with [isOpen]: [deps] is the dependency of the
    effect that last ran, [None] before the first commit.  The effect runs
    when there is none or when [isOpen] changed, after the previous
    cleanup. *)
Definition commit (deps : option bool) (isOpen : bool) (b : body) : option bool * body :=
  match deps with
  | None => (Some isOpen, overflow_effect isOpen b)
  | Some prev =>
      if Bool.eqb prev isOpen then (deps, b)
      else (Some isOpen, overflow_effect isOpen (overflow_cleanup b))
  end.

(** Unmounting runs the cleanup of the effect that ran last, if any. *)
Definition unmount (deps : option bool) (b : body) : body :=
  match deps with
  | None => b
  | Some _ => overflow_cleanup b
  end.

(** [if (!isOpen) return null]: whether the dialog is rendered. *)
Definition renders_dialog (isOpen : bool) : bool := isOpen.

Definition cv_href : string := "/CV%20Marouane%20El%20Hamdaoui.pdf".
Definition cv_file_name : string := "CV-Marouane-El-Hamdaoui.pdf".

(** [handleDownload]: create a link, set its [href] and [download], append
    it to the body, click it, remove it. *)
Definition handleDownload (b : body) : body :=
  let link := b_next_element b in
  let b1 := {| b_overflow := b_overflow b; b_children := b_children b ++ [link];
               b_next_element := S link; b_downloads := b_downloads b |} in
  let b2 := {| b_overflow := b_overflow b1; b_children := b_children b1;
               b_next_element := b_next_element b1;
               b_downloads := b_downloads b1 ++ [(cv_href, cv_file_name)] |} in
  {| b_overflow := b_overflow b2;
     b_children := remove_all Nat.eqb link (b_children b2);
     b_next_element := b_next_element b2; b_downloads := b_downloads b2 |}.

End CVModal.

Module Hero.

Definition dynamicDescriptions : list string :=
  ["Développeur Full Stack passionné, je transforme vos idées en solutions web modernes et performantes avec Laravel, React et Node.js.";
   "Créateur d'expériences numériques exceptionnelles, maîtrisant les technologies frontend et backend les plus récentes.";
   "Développeur polyvalent capable de gérer des projets complets, de la conception à la mise en production."].

(** The page as the hero sees it: the body, the window, and the pending
    intervals of [setInterval] by id. *)
Record page : Type := {
  pg_body : body;
  pg_window : window;
  pg_intervals : list nat;
  pg_next_timer : nat
}.

Record hero : Type := {
  currentDescription : Z;          (** [useState(0)] *)
  isCVModalOpen : bool;            (** [useState(false)] *)
  interval : nat;                  (** the id the effect's closure holds *)
  modal_deps : option bool         (** the [isOpen] of the modal's last effect *)
}.

Definition initial_hero : hero :=
  {| currentDescription := 0; isCVModalOpen := false; interval := 0; modal_deps := None |}.

Definition with_description (s : hero) (d : Z) : hero :=
  {| currentDescription := d; isCVModalOpen := isCVModalOpen s; interval := interval s;
     modal_deps := modal_deps s |}.

Definition with_modal (s : hero) (o : bool) (deps : option bool) : hero :=
  {| currentDescription := currentDescription s; isCVModalOpen := o; interval := interval s;
     modal_deps := deps |}.

Definition with_interval (s : hero) (id : nat) : hero :=
  {| currentDescription := currentDescription s; isCVModalOpen := isCVModalOpen s;
     interval := id; modal_deps := modal_deps s |}.

Definition with_body (p : page) (b : body) : page :=
  {| pg_body := b; pg_window := pg_window p; pg_intervals := pg_intervals p;
     pg_next_timer := pg_next_timer p |}.

(** [(prev) => (prev + 1) % dynamicDescriptions.length] *)
Definition next_description (prev : Z) : Z :=
  Z.rem (prev + 1) (Z.of_nat (length dynamicDescriptions)).

(** A render of [Hero] commits [<CVModal isOpen={isCVModalOpen} />]. *)
Definition commit_modal (s : hero) (p : page) : hero * page :=
  let (deps, b) := CVModal.commit (modal_deps s) (isCVModalOpen s) (pg_body p) in
  (with_modal s (isCVModalOpen s) deps, with_body p b).

(** The first commit: the child's effect, then [setInterval]. *)
Definition mount (p : page) : hero * page :=
  let (s1, p1) := commit_modal initial_hero p in
  let id := pg_next_timer p1 in
  (with_interval s1 id,
   {| pg_body := pg_body p1; pg_window := pg_window p1;
      pg_intervals := pg_intervals p1 ++ [id]; pg_next_timer := S id |}).

(** [setIsCVModalOpen(o)]: React skips the render when the value is
    unchanged; the commit below is then a no-op as well. *)
Definition set_modal_open (o : bool) (s : hero) (p : page) : hero * page :=
  commit_modal (with_modal s o (modal_deps s)) p.

Definition openCVModal := set_modal_open true.
Definition closeCVModal := set_modal_open false.

(** [scrollToAbout] and [scrollToContact]. *)
Definition scrollToAbout (p : page) : page :=
  {| pg_body := pg_body p; pg_window := scroll_into_view page_elements (Some "about") (pg_window p);
     pg_intervals := pg_intervals p; pg_next_timer := pg_next_timer p |}.

Definition scrollToContact (p : page) : page :=
  {| pg_body := pg_body p;
     pg_window := scroll_into_view page_elements (Some "contact") (pg_window p);
     pg_intervals := pg_intervals p; pg_next_timer := pg_next_timer p |}.

(** The cleanups: [clearInterval(interval)], then the modal's. *)
Definition unmount (s : hero) (p : page) : page :=
  {| pg_body := CVModal.unmount (modal_deps s) (pg_body p); pg_window := pg_window p;
     pg_intervals := remove_all Nat.eqb (interval s) (pg_intervals p);
     pg_next_timer := pg_next_timer p |}.

Inductive status : Type := Unmounted | Mounted (s : hero) | Gone (s : hero).

Inductive event : Type :=
| EvMount
| EvInterval (id : nat)     (** the timer [id] fires *)
| EvOpenCV                  (** the "Voir CV" button *)
| EvCloseCV                 (** the modal's close button, [onClose] *)
| EvDownload                (** the modal's download button, when rendered *)
| EvScrollAbout
| EvScrollContact
| EvUnmount.

Definition handle (ev : event) (st : status) (p : page) : status * page :=
  match ev, st with
  | EvMount, Unmounted => let (s, p') := mount p in (Mounted s, p')
  | EvInterval id, Mounted s =>
      if existsb (Nat.eqb id) (pg_intervals p) && Nat.eqb id (interval s)
      then let (s', p') := commit_modal (with_description s (next_description
                                           (currentDescription s))) p in (Mounted s', p')
      else (st, p)
  | EvOpenCV, Mounted s => let (s', p') := openCVModal s p in (Mounted s', p')
  | EvCloseCV, Mounted s =>
      if CVModal.renders_dialog (isCVModalOpen s)
      then let (s', p') := closeCVModal s p in (Mounted s', p') else (st, p)
  | EvDownload, Mounted s =>
      if CVModal.renders_dialog (isCVModalOpen s)
      then (st, with_body p (CVModal.handleDownload (pg_body p))) else (st, p)
  | EvScrollAbout, Mounted _ => (st, scrollToAbout p)
  | EvScrollContact, Mounted _ => (st, scrollToContact p)
  | EvUnmount, Mounted s => (Gone s, unmount s p)
  | _, _ => (st, p)
  end.

Fixpoint run (evs : list event) (st : status) (p : page) : status * page :=
  match evs with
  | [] => (st, p)
  | ev :: evs' => let (st', p') := handle ev st p in run evs' st' p'
  end.

End Hero.

(** ** The CV modal *)

Open Scope list_scope.

(** The body's overflow the modal asks for when it is open or closed. *)
Definition locked (isOpen : bool) : string := if isOpen then "hidden" else "auto".

Lemma commit_locks (deps : option bool) (isOpen : bool) (b : body) :
  (forall o, deps = Some o -> b_overflow b = locked o) ->
  let (deps', b') := CVModal.commit deps isOpen b in
  deps' = Some isOpen /\ b_overflow b' = locked isOpen /\
  b_children b' = b_children b /\ b_downloads b' = b_downloads b.
Proof.
  intros H. destruct deps as [o|]; cbn.
  - destruct (Bool.eqb o isOpen) eqn:E.
    + apply Bool.eqb_prop in E. subst o. split; [reflexivity|]. now rewrite (H isOpen eq_refl).
    + destruct isOpen; repeat split.
  - destruct isOpen; repeat split.
Qed.

Definition commits (opens : list bool) (deps : option bool) (b : body) : option bool * body :=
  fold_left (fun db o => CVModal.commit (fst db) o (snd db)) opens (deps, b).

Lemma commits_lock (opens : list bool) (deps : option bool) (b : body) :
  (forall o, deps = Some o -> b_overflow b = locked o) ->
  let '(deps', b') := commits opens deps b in
  (forall o, deps' = Some o -> b_overflow b' = locked o) /\ b_children b' = b_children b.
Proof.
  unfold commits. revert deps b.
  induction opens as [|o os IH]; intros deps b H; cbn [fold_left fst snd].
  - split; [exact H|reflexivity].
  - pose proof (commit_locks deps o b H) as Hc.
    destruct (CVModal.commit deps o b) as [d1 b1]. destruct Hc as (-> & Hb & Hch & _).
    specialize (IH (Some o) b1 ltac:(intros o' E'; injection E' as <-; exact Hb)).
    destruct (fold_left _ os (Some o, b1)) as [d2 b2]. destruct IH as (H2 & Hch2).
    split; [exact H2|congruence].
Qed.

(** C22: the modal locks the page's scrolling exactly while it is open.
    Over any sequence of commits with any values of [isOpen], after each
    commit the body's overflow is ["hidden"] when the last [isOpen] was
    true and ["auto"] when it was false, and after the unmount it is
    ["auto"]: an unmount while open never leaves the page locked.  The
    body's children are untouched. *)
Theorem modal_overflow_lock (opens : list bool) (last : bool) (b : body) :
  let '(deps, b') := commits (opens ++ [last]) None b in
  deps = Some last /\ b_overflow b' = locked last /\
  b_overflow (CVModal.unmount deps b') = "auto" /\ b_children b' = b_children b.
Proof.
  pose proof (commits_lock opens None b ltac:(discriminate)) as Hc.
  unfold commits in *. rewrite fold_left_app. cbn [fold_left fst snd].
  destruct (fold_left _ opens (None, b)) as [d b1]. cbn [fst snd]. destruct Hc as (H1 & Hch).
  pose proof (commit_locks d last b1 H1) as Hl.
  destruct (CVModal.commit d last b1) as [d2 b2]. destruct Hl as (-> & Hb & Hch2 & _).
  cbv beta iota. split; [reflexivity|]. split; [exact Hb|]. split; [reflexivity|congruence].
Qed.

(** C23: [handleDownload] starts exactly one download, of the CV file
    under its download name, and leaves the body with the children it had
    and its overflow unchanged: the temporary link does not stay in the
    page. *)
Theorem download_is_transient (b : body) :
  ~ In (b_next_element b) (b_children b) ->
  b_children (CVModal.handleDownload b) = b_children b /\
  b_downloads (CVModal.handleDownload b)
    = (b_downloads b ++ [("/CV%20Marouane%20El%20Hamdaoui.pdf", "CV-Marouane-El-Hamdaoui.pdf")])%list /\
  b_overflow (CVModal.handleDownload b) = b_overflow b.
Proof.
  intros Hn. cbn -[remove_all]. split; [|split; reflexivity].
  rewrite remove_all_app, remove_all_notin.
  - unfold remove_all. cbn. rewrite Nat.eqb_refl. apply app_nil_r.
  - apply Bool.not_true_iff_false. rewrite existsb_exists.
    intros (x & Hx & E). apply Nat.eqb_eq in E. subst x. exact (Hn Hx).
Qed.

Lemma download_is_transient_witness :
  let b := {| b_overflow := "hidden"; b_children := [0; 1]; b_next_element := 2;
              b_downloads := [] |} in
  ~ In (b_next_element b) (b_children b) /\
  b_children (CVModal.handleDownload b) = b_children b /\
  b_downloads (CVModal.handleDownload b)
    = (b_downloads b ++ [("/CV%20Marouane%20El%20Hamdaoui.pdf", "CV-Marouane-El-Hamdaoui.pdf")])%list /\
  b_overflow (CVModal.handleDownload b) = b_overflow b.
Proof.
  cbv zeta. assert (H : ~ In 2 [0; 1]) by (cbn; lia).
  split; [exact H|].
  exact (download_is_transient {| b_overflow := "hidden"; b_children := [0; 1];
           b_next_element := 2; b_downloads := [] |} H).
Defined.

(** ** The hero *)

Import Hero.

(** What holds in every state of the hero, above the intervals [base] the
    rest of the page holds, all older than the next timer id. *)
Definition hero_inv (base : list nat) (st : status) (p : page) : Prop :=
  Forall (fun id => id < pg_next_timer p) base /\
  match st with
  | Unmounted => pg_intervals p = base
  | Mounted s =>
      pg_intervals p = base ++ [interval s] /\ Forall (fun id => id < interval s) base /\
      modal_deps s = Some (isCVModalOpen s) /\ b_overflow (pg_body p) = locked (isCVModalOpen s) /\
      (0 <= currentDescription s < Z.of_nat (length dynamicDescriptions))%Z
  | Gone s => pg_intervals p = base /\ b_overflow (pg_body p) = "auto"
  end.

Lemma next_description_range (d : Z) :
  (0 <= d)%Z -> (0 <= next_description d < Z.of_nat (length dynamicDescriptions))%Z.
Proof.
  intros Hd. unfold next_description. change (Z.of_nat (length dynamicDescriptions)) with 3%Z.
  rewrite Z.rem_mod_nonneg by lia. pose proof (Z.mod_pos_bound (d + 1) 3). lia.
Qed.

Lemma commit_modal_spec (s : hero) (p : page) (o : bool) :
  modal_deps s = Some o -> b_overflow (pg_body p) = locked o ->
  let (s', p') := commit_modal s p in
  modal_deps s' = Some (isCVModalOpen s) /\ b_overflow (pg_body p') = locked (isCVModalOpen s) /\
  isCVModalOpen s' = isCVModalOpen s /\ currentDescription s' = currentDescription s /\
  interval s' = interval s /\ pg_intervals p' = pg_intervals p /\
  pg_next_timer p' = pg_next_timer p.
Proof.
  intros Hd Hb. unfold commit_modal.
  pose proof (commit_locks (modal_deps s) (isCVModalOpen s) (pg_body p)
                ltac:(intros o' E; rewrite Hd in E; injection E as <-; exact Hb)) as Hc.
  destruct (CVModal.commit _ _ _) as [d b]. destruct Hc as (-> & Hb' & _).
  repeat split; assumption.
Qed.

Lemma hero_inv_unmount (base : list nat) (s : hero) (p : page) :
  hero_inv base (Mounted s) p -> hero_inv base (Gone s) (unmount s p).
Proof.
  intros (Hn & Hi & Hlt & Hd & _ & _). split; [exact Hn|]. cbn. rewrite Hd. split; [|reflexivity].
  rewrite Hi, remove_all_app, remove_all_notin.
  - unfold remove_all. cbn. rewrite Nat.eqb_refl. apply app_nil_r.
  - apply Bool.not_true_iff_false. rewrite existsb_exists. intros (x & Hx & E).
    apply Nat.eqb_eq in E. subst x. rewrite Forall_forall in Hlt. specialize (Hlt _ Hx). lia.
Qed.

(** A commit of the hero after a state update of [f], from a state where
    the invariant holds. *)
Lemma hero_inv_commit (base : list nat) (s s1 : hero) (p : page) :
  hero_inv base (Mounted s) p ->
  modal_deps s1 = modal_deps s -> interval s1 = interval s ->
  (0 <= currentDescription s1 < Z.of_nat (length dynamicDescriptions))%Z ->
  let (s', p') := commit_modal s1 p in hero_inv base (Mounted s') p'.
Proof.
  intros (Hn & Hi & Hlt & Hd & Hb & _) Hd1 Hi1 Hc1.
  pose proof (commit_modal_spec s1 p (isCVModalOpen s) ltac:(congruence) Hb) as Hc.
  destruct (commit_modal s1 p) as [s' p']. destruct Hc as (Hd' & Hb' & Ho & Hc' & Hi' & Hp & Hx).
  split; [rewrite Hx; exact Hn|]. rewrite Hp, Hi', Hi1, Hc', Ho.
  repeat split; try assumption; lia.
Qed.

(** Case on the first [if] of the goal. *)
Ltac case_if := match goal with |- context [if ?c then _ else _] => destruct c end.

Lemma hero_handle_inv (base : list nat) (ev : event) (st : status) (p : page) :
  hero_inv base st p -> let (st', p') := handle ev st p in hero_inv base st' p'.
Proof.
  intros Hinv. destruct st as [|s|s]; [| |destruct ev; exact Hinv].
  - destruct ev; try exact Hinv. destruct Hinv as [Hn Hi]. cbn. split.
    + eapply Forall_impl; [|exact Hn]. cbn. intros; lia.
    + rewrite Hi. cbn. split; [reflexivity|]. split; [exact Hn|].
      split; [reflexivity|]. split; [reflexivity|]. cbn; lia.
  - pose proof Hinv as (Hn & Hi & Hlt & Hd & Hb & Hc).
    destruct ev as [|id| | | | | |]; cbn [handle]; [exact Hinv| | | | | | |].
    + case_if; [|exact Hinv].
      pose proof (hero_inv_commit base s (with_description s (next_description
                    (currentDescription s))) p Hinv eq_refl eq_refl
                    (next_description_range _ (proj1 Hc))) as H.
      destruct (commit_modal _ p). exact H.
    + pose proof (hero_inv_commit base s (with_modal s true (modal_deps s)) p Hinv
                    eq_refl eq_refl Hc) as H.
      unfold openCVModal, set_modal_open. destruct (commit_modal _ p). exact H.
    + case_if; [|exact Hinv].
      pose proof (hero_inv_commit base s (with_modal s false (modal_deps s)) p Hinv
                    eq_refl eq_refl Hc) as H.
      unfold closeCVModal, set_modal_open. destruct (commit_modal _ p). exact H.
    + case_if; exact Hinv.
    + exact Hinv.
    + exact Hinv.
    + apply hero_inv_unmount, Hinv.
Qed.

Lemma hero_run_inv (base : list nat) (evs : list event) (st : status) (p : page) :
  hero_inv base st p -> let (st', p') := run evs st p in hero_inv base st' p'.
Proof.
  revert st p. induction evs as [|ev evs IH]; intros st p H; [exact H|]. cbn [run].
  pose proof (hero_handle_inv base ev st p H) as H1.
  destruct (handle ev st p) as [st1 p1]. apply IH, H1.
Qed.

Lemma hero_mount_inv (base : list nat) (p : page) :
  pg_intervals p = base -> Forall (fun id => id < pg_next_timer p) base ->
  hero_inv base Unmounted p.
Proof. intros Hi Hn. split; assumption. Qed.

(** C24: while the hero is mounted, whatever happened since its mount, the
    description it shows, [dynamicDescriptions[currentDescription]], exists;
    the body is locked exactly when the CV modal is open; and the page holds
    exactly one interval of the hero besides its own. *)
Theorem hero_mounted_consistent (base : list nat) (evs : list event) (p : page) :
  pg_intervals p = base -> Forall (fun id => id < pg_next_timer p) base ->
  let (st', p') := run evs Unmounted p in
  forall s, st' = Mounted s ->
  (exists d, nth_error dynamicDescriptions (Z.to_nat (currentDescription s)) = Some d) /\
  b_overflow (pg_body p') = locked (isCVModalOpen s) /\
  pg_intervals p' = base ++ [interval s].
Proof.
  intros Hi Hn. pose proof (hero_run_inv base evs Unmounted p (hero_mount_inv base p Hi Hn)) as H.
  destruct (run evs Unmounted p) as [st' p']. intros s ->.
  destruct H as (_ & Hi' & _ & _ & Hb & Hc). split; [|split; assumption].
  apply nth_error_lt. lia.
Qed.

(** A page for the witnesses: one interval [7] of another component. *)
Definition sample_page : page :=
  {| pg_body := {| b_overflow := ""; b_children := []; b_next_element := 0%nat;
                b_downloads := [] |};
     pg_window := {| w_scroll_y := Fin 0%Q; w_scroll_listeners := 0%nat; w_requests := [] |};
     pg_intervals := [7%nat]; pg_next_timer := 8%nat |}.

Lemma hero_mounted_consistent_witness :
  pg_intervals sample_page = [7] /\ Forall (fun id => id < pg_next_timer sample_page) [7] /\
  let (st', p') := run [EvMount; EvOpenCV; EvInterval 8; EvDownload; EvInterval 8] Unmounted
                       sample_page in
  forall s, st' = Mounted s ->
  (exists d, nth_error dynamicDescriptions (Z.to_nat (currentDescription s)) = Some d) /\
  b_overflow (pg_body p') = locked (isCVModalOpen s) /\
  pg_intervals p' = [7] ++ [interval s].
Proof.
  assert (Hn : Forall (fun id => id < pg_next_timer sample_page) [7]) by (repeat constructor).
  split; [reflexivity|]. split; [exact Hn|].
  exact (hero_mounted_consistent [7] [EvMount; EvOpenCV; EvInterval 8; EvDownload; EvInterval 8]
           sample_page eq_refl Hn).
Defined.

(** C25: the hero's cleanups release what it holds.  Once it is
    unmounted, after any events since its mount, the page holds exactly the
    intervals it had before the mount (the rotation interval is cleared)
    and the body's overflow is ["auto"] even if the modal was open; later
    events change nothing. *)
Theorem hero_unmount_releases (base : list nat) (evs : list event) (p : page) :
  pg_intervals p = base -> Forall (fun id => id < pg_next_timer p) base ->
  let (st', p') := run evs Unmounted p in
  forall s, st' = Gone s ->
  pg_intervals p' = base /\ b_overflow (pg_body p') = "auto" /\
  forall ev, handle ev st' p' = (st', p').
Proof.
  intros Hi Hn. pose proof (hero_run_inv base evs Unmounted p (hero_mount_inv base p Hi Hn)) as H.
  destruct (run evs Unmounted p) as [st' p']. intros s ->.
  destruct H as (_ & Hi' & Hb). split; [exact Hi'|]. split; [exact Hb|].
  intros ev. destruct ev; reflexivity.
Qed.

Lemma hero_unmount_releases_witness :
  pg_intervals sample_page = [7] /\ Forall (fun id => id < pg_next_timer sample_page) [7] /\
  let (st', p') := run [EvMount; EvOpenCV; EvInterval 8; EvUnmount; EvInterval 8] Unmounted
                       sample_page in
  forall s, st' = Gone s ->
  pg_intervals p' = [7] /\ b_overflow (pg_body p') = "auto" /\
  forall ev, handle ev st' p' = (st', p').
Proof.
  assert (Hn : Forall (fun id => id < pg_next_timer sample_page) [7]) by (repeat constructor).
  split; [reflexivity|]. split; [exact Hn|].
  exact (hero_unmount_releases [7] [EvMount; EvOpenCV; EvInterval 8; EvUnmount; EvInterval 8]
           sample_page eq_refl Hn).
Defined.

Lemma hero_tick (base : list nat) (s : hero) (p : page) :
  hero_inv base (Mounted s) p ->
  let (st', p') := handle (EvInterval (interval s)) (Mounted s) p in
  exists s', st' = Mounted s' /\ interval s' = interval s /\
    currentDescription s' = next_description (currentDescription s) /\
    hero_inv base (Mounted s') p'.
Proof.
  intros Hinv. pose proof (hero_handle_inv base (EvInterval (interval s)) _ _ Hinv) as H.
  pose proof Hinv as (_ & Hi & _ & Hd & Hb & _). cbn [handle] in *.
  rewrite Hi, existsb_app in *. cbn [existsb] in *. rewrite Nat.eqb_refl in *.
  rewrite Bool.orb_true_r in *. cbn [andb] in *.
  pose proof (commit_modal_spec (with_description s (next_description (currentDescription s))) p
                (isCVModalOpen s) Hd Hb) as Hc.
  destruct (commit_modal _ p) as [s' p']. destruct Hc as (_ & _ & _ & Hc & Hi' & _).
  exists s'. split; [reflexivity|]. split; [exact Hi'|]. split; [exact Hc|exact H].
Qed.

Lemma hero_ticks (base : list nat) (n : nat) (s : hero) (p : page) :
  hero_inv base (Mounted s) p ->
  let (st', _) := run (repeat (EvInterval (interval s)) n) (Mounted s) p in
  exists s', st' = Mounted s' /\ currentDescription s' = Nat.iter n next_description (currentDescription s).
Proof.
  revert s p. induction n as [|n IH]; intros s p H; [exists s; split; reflexivity|].
  cbn [repeat run]. pose proof (hero_tick base s p H) as Ht.
  destruct (handle _ _ p) as [st2 p2]. destruct Ht as (s2 & -> & Hi2 & Hc2 & H2).
  specialize (IH s2 p2 H2). rewrite Hi2 in IH. destruct (run _ _ p2) as [st3 p3].
  destruct IH as (s3 & -> & Hc3). exists s3. split; [reflexivity|].
  rewrite Hc3, Hc2. symmetry. apply Nat.iter_succ_r.
Qed.

Lemma iter_next_description (n : nat) :
  Nat.iter n next_description 0%Z = Z.of_nat (n mod 3).
Proof.
  induction n as [|n IH]; [reflexivity|]. rewrite Nat.iter_succ, IH. unfold next_description.
  change (Z.of_nat (length dynamicDescriptions)) with 3%Z.
  rewrite Z.rem_mod_nonneg by lia. rewrite !Nat2Z.inj_mod. change (Z.of_nat 3) with 3%Z.
  rewrite Nat2Z.inj_succ, <- Z.add_1_r. apply Zplus_mod_idemp_l.
Qed.

(** C26: the description rotates.  After the mount and [n] firings of the
    hero's 2500 ms interval, interleaved with nothing else, the hero shows
    description number [n mod 3]. *)
Theorem description_rotates (base : list nat) (n : nat) (p : page) :
  pg_intervals p = base -> Forall (fun id => id < pg_next_timer p) base ->
  let (st', _) := run (EvMount :: repeat (EvInterval (pg_next_timer p)) n) Unmounted p in
  exists s, st' = Mounted s /\ currentDescription s = Z.of_nat (n mod 3).
Proof.
  intros Hi Hn.
  pose proof (hero_handle_inv base EvMount Unmounted p (hero_mount_inv base p Hi Hn)) as H0.
  cbn [run]. destruct (handle EvMount Unmounted p) as [st1 p1] eqn:E.
  assert (Hst : st1 = Mounted (with_interval (with_modal initial_hero false (Some false))
                                              (pg_next_timer p)))
    by (cbn in E; congruence).
  subst st1. pose proof (hero_ticks base n _ p1 H0) as Ht. cbn [interval with_interval] in Ht.
  destruct (run _ _ p1) as [st2 p2]. destruct Ht as (s2 & -> & Hc).
  exists s2. split; [reflexivity|]. rewrite Hc. apply iter_next_description.
Qed.

Lemma description_rotates_witness :
  pg_intervals sample_page = [7] /\ Forall (fun id => id < pg_next_timer sample_page) [7] /\
  let (st', _) := run (EvMount :: repeat (EvInterval (pg_next_timer sample_page)) 5) Unmounted
                      sample_page in
  exists s, st' = Mounted s /\ currentDescription s = Z.of_nat (5 mod 3).
Proof.
  assert (Hn : Forall (fun id => id < pg_next_timer sample_page) [7]) by (repeat constructor).
  split; [reflexivity|]. split; [exact Hn|].
  exact (description_rotates [7] 5 sample_page eq_refl Hn).
Defined.
