(* ===== verification/HeroView.v ===== *)
(** What the hero banner renders ([Hero.tsx], lines 166-305) and the CV
    viewer inside it ([CVModal.tsx], lines 22-75), as trees of [View]
    whose click handlers dispatch the events of [HeroUi.Hero].  The
    canvas, the decorative [div]s, the icons and the [<style>] block carry
    no behaviour and are left out. *)

From Stdlib Require Import String List Bool ZArith Lia.
From S2P Require Import Prelude View HeroUi.
Import ListNotations.
Open Scope string_scope.
Open Scope list_scope.
Import Hero.

(** [<CVModal isOpen onClose={closeCVModal} />]: nothing when closed. *)
Definition cvmodal_view (isOpen : bool) : list (node event) :=
  if negb (CVModal.renders_dialog isOpen) then []
  else
    [El "div" [] None
       [El "div" [] None
          [El "button" [("aria-label", "Télécharger CV")] (Some EvDownload)
             [Text "Télécharger CV"];
           El "button" [("aria-label", "Fermer")] (Some EvCloseCV) []];
        El "div" [] None
          [El "object" [("data", "/CV%20Marouane%20El%20Hamdaoui.pdf"); ("type", "application/pdf");
                        ("aria-label", "CV (PDF)")] None
             [El "iframe" [("title", "CV (PDF)"); ("src", "/CV%20Marouane%20El%20Hamdaoui.pdf")]
                None []]]]].

(** The social links of the hero: [href] and [label]. *)
Definition hero_social_links : list (string * string) :=
  [("https://github.com/Mar11wane-git", "GitHub");
   ("https://www.linkedin.com/in/Marouane-El-Hamdaoui/", "LinkedIn");
   ("mailto:marouane.elhamdaoui@gmail.com", "Email")].

(** [{dynamicDescriptions[currentDescription]}]: [undefined] renders
    nothing. *)
Definition description_view (cur : Z) : list (node event) :=
  match js_index dynamicDescriptions cur with Some d => [Text d] | None => [] end.

Definition hero_view (s : hero) : node event :=
  El "section" [("id", "hero")] None
    ([El "h1" [] None [Text "Salut,"; Text "Je suis "; Text "Marouane El hamdaoui"];
     El "h2" [] None [Text "Développeur Full Stack"];
     El "p" [] None [El "span" [] None [Text ">"]; El "span" [] None (description_view (currentDescription s))];
     El "button" [] (Some EvScrollContact) [Text "Me Contacter"];
     El "button" [] (Some EvOpenCV) [Text "Voir CV"];
     El "div" [] None
       (map (fun hl => El "a" [("href", fst hl); ("target", "_blank"); ("rel", "noopener noreferrer");
                                ("aria-label", snd hl)] None [])
            hero_social_links);
     El "img" [("src", "/pecture pro.png"); ("alt", "Photo professionnelle")] None [];
     Text "Disponible pour travail";
     El "button" [("aria-label", "Défiler vers la section À propos")] (Some EvScrollAbout) []]
    ++ cvmodal_view (isCVModalOpen s)).

(** ** The view of every reachable state *)

Lemma hero_view_clicks (s : hero) :
  clicks (hero_view s) =
  [EvScrollContact; EvOpenCV; EvScrollAbout] ++
  (if isCVModalOpen s then [EvDownload; EvCloseCV] else []).
Proof.
  unfold hero_view, description_view. destruct (js_index _ _), (isCVModalOpen s); reflexivity.
Qed.

(** The hero's links do not depend on its state. *)
Lemma hero_view_links (s : hero) :
  links (hero_view s) =
  map (fun hl => [("href", fst hl); ("target", "_blank"); ("rel", "noopener noreferrer");
                  ("aria-label", snd hl)]) hero_social_links.
Proof.
  unfold hero_view, description_view. destruct (js_index _ _), (isCVModalOpen s); reflexivity.
Qed.

(** C40: what the hero shows agrees with its state and with the page.  In
    every state reached from a fresh mount, the description the banner
    shows is an element of [dynamicDescriptions] (never [undefined]); the
    dialog's download and close buttons are rendered exactly when the modal
    is open; and the body's scrolling is locked exactly while they are.
    The PDF the dialog shows is the file its download button fetches. *)
Theorem hero_view_consistent (base : list nat) (evs : list event) (p : page) :
  pg_intervals p = base -> Forall (fun id => id < pg_next_timer p) base ->
  let (st', p') := run evs Unmounted p in
  forall s, st' = Mounted s ->
  (exists d, js_index dynamicDescriptions (currentDescription s) = Some d /\
             In d (texts (hero_view s))) /\
  (In EvDownload (clicks (hero_view s)) <-> isCVModalOpen s = true) /\
  (In EvCloseCV (clicks (hero_view s)) <-> isCVModalOpen s = true) /\
  (b_overflow (pg_body p') = "hidden" <-> In EvCloseCV (clicks (hero_view s))) /\
  (isCVModalOpen s = true -> In [("title", "CV (PDF)"); ("src", CVModal.cv_href)]
                                  (elements "iframe" (hero_view s))).
Proof.
  intros Hi Hn. pose proof (hero_run_inv base evs Unmounted p (hero_mount_inv base p Hi Hn)) as H.
  destruct (run evs Unmounted p) as [st' p']. intros s ->.
  destruct H as (_ & _ & _ & _ & Hb & Hc).
  destruct (js_index_lt dynamicDescriptions (currentDescription s) Hc) as [d Hd].
  rewrite hero_view_clicks. split.
  - exists d. split; [exact Hd|]. unfold hero_view, description_view. rewrite Hd.
    cbn. destruct (isCVModalOpen s); cbn; intuition auto.
  - rewrite Hb. unfold locked, hero_view, description_view. rewrite Hd.
    destruct (isCVModalOpen s); cbn; intuition (try discriminate).
Qed.

Lemma hero_view_consistent_witness :
  pg_intervals sample_page = [7] /\ Forall (fun id => id < pg_next_timer sample_page) [7] /\
  let (st', p') := run [EvMount; EvInterval 8; EvOpenCV] Unmounted sample_page in
  forall s, st' = Mounted s ->
  (exists d, js_index dynamicDescriptions (currentDescription s) = Some d /\
             In d (texts (hero_view s))) /\
  (In EvDownload (clicks (hero_view s)) <-> isCVModalOpen s = true) /\
  (In EvCloseCV (clicks (hero_view s)) <-> isCVModalOpen s = true) /\
  (b_overflow (pg_body p') = "hidden" <-> In EvCloseCV (clicks (hero_view s))) /\
  (isCVModalOpen s = true -> In [("title", "CV (PDF)"); ("src", CVModal.cv_href)]
                                  (elements "iframe" (hero_view s))).
Proof.
  assert (Hn : Forall (fun id => id < pg_next_timer sample_page) [7]) by (repeat constructor).
  split; [reflexivity|]. split; [exact Hn|].
  exact (hero_view_consistent [7] [EvMount; EvInterval 8; EvOpenCV] sample_page eq_refl Hn).
Defined.
