(* ===== verification/Timers.v ===== *)
(** The browser's timers: a queue of [(due, callback)] entries, [due] in
    milliseconds on the page's clock.  The earliest due entry fires first;
    entries due at the same time fire in the order they were scheduled.
    This is the platform the components' [setTimeout] calls use, not code
    of the repository; the callbacks are a parameter. *)

From Stdlib Require Import List NArith Lia Permutation.
From S2P Require Import Prelude.
Import ListNotations.

Section Queue.

Context {A : Type}.


Fixpoint min_due (q : list (N * A)) : option N :=
  match q with
  | [] => None
  | (d, _) :: q' => match min_due q' with Some m => Some (N.min d m) | None => Some d end
  end.

(** The first entry due at [d], and the queue without it. *)
Fixpoint pop_due (d : N) (q : list (N * A)) : option ((N * A) * list (N * A)) :=
  match q with
  | [] => None
  | (d', cb) :: q' =>
      if N.eqb d d' then Some ((d', cb), q')
      else match pop_due d q' with Some (e, r) => Some (e, (d', cb) :: r) | None => None end
  end.

Definition pop_earliest (q : list (N * A)) : option ((N * A) * list (N * A)) :=
  match min_due q with Some d => pop_due d q | None => None end.


Lemma min_due_spec (q : list (N * A)) (m : N) :
  min_due q = Some m -> In m (map fst q) /\ Forall (fun e => (m <= fst e)%N) q.
Proof.
  revert m. induction q as [|[d cb] q IH]; intros m H; cbn in H; [discriminate|].
  destruct (min_due q) as [m'|] eqn:E.
  - injection H as <-. destruct (IH m' eq_refl) as [Hin Hall]. split.
    + destruct (N.min_spec d m') as [[_ ->]|[_ ->]]; cbn; auto.
    + constructor; [cbn; lia|]. eapply Forall_impl; [|exact Hall]. cbn. intros; lia.
  - injection H as <-. destruct q as [|e q]; [|cbn in E; destruct e, (min_due q); discriminate].
    split; [now left|]. constructor; [cbn; lia|constructor].
Qed.

Lemma pop_due_spec (d : N) (q : list (N * A)) (e : N * A) (r : list (N * A)) :
  pop_due d q = Some (e, r) -> fst e = d /\ Permutation q (e :: r).
Proof.
  revert r. induction q as [|[d' cb] q IH]; intros r H; cbn in H; [discriminate|].
  destruct (N.eqb d d') eqn:E.
  - apply N.eqb_eq in E. injection H as <- <-. split; [symmetry; exact E|reflexivity].
  - destruct (pop_due d q) as [[e' r']|]; [|discriminate]. injection H as <- <-.
    destruct (IH r' eq_refl) as [Hd Hp]. split; [exact Hd|].
    rewrite Hp. apply perm_swap.
Qed.

Lemma pop_earliest_spec (q : list (N * A)) (e : N * A) (r : list (N * A)) :
  pop_earliest q = Some (e, r) ->
  Permutation q (e :: r) /\ Forall (fun e' => (fst e <= fst e')%N) q.
Proof.
  unfold pop_earliest. destruct (min_due q) as [m|] eqn:E; [|discriminate]. intros H.
  destruct (min_due_spec q m E) as [_ Hall]. destruct (pop_due_spec m q e r H) as [Hd Hp].
  split; [exact Hp|]. now rewrite Hd.
Qed.

Lemma pop_due_in (d : N) (q : list (N * A)) :
  In d (map fst q) -> exists e r, pop_due d q = Some (e, r).
Proof.
  induction q as [|[d' cb] q IH]; cbn; [contradiction|]. intros H.
  destruct (N.eqb d d') eqn:E; [eauto|].
  destruct H as [H|H]; [subst; now rewrite N.eqb_refl in E|].
  destruct (IH H) as (e & r & ->). eauto.
Qed.

(** A queue that is not empty has an entry to fire. *)
Lemma pop_earliest_nonempty (q : list (N * A)) :
  q <> [] -> exists e r, pop_earliest q = Some (e, r).
Proof.
  intros Hq. unfold pop_earliest. destruct (min_due q) as [m|] eqn:E.
  - apply pop_due_in, (min_due_spec q m E).
  - destruct q as [|[d cb] q]; [contradiction|]. cbn in E. destruct (min_due q); discriminate.
Qed.

End Queue.
