(* ===== verification/Contact.v ===== *)
(** The contact form of [Contact.tsx]: its controlled inputs and its
    simulated submission.
    - [formData] is a JavaScript object; [handleChange] builds
      [{ ...formData, [name]: value }], which keeps the order of the keys,
      replaces the value of an existing key and appends a new one.
    - [handleSubmit] schedules a 1000 ms timer that shows the success
      message and schedules a 3000 ms timer that hides it and empties the
      form.  Nothing cancels these timers.
    - The browser's timers are a queue of [(due, callback)] entries with a
      clock in milliseconds: the earliest due entry fires first, ties in the
      order they were scheduled.
    - The browser submits the form only when its constraints hold: every
      field is [required], and the e-mail field is checked by the browser's
      own [type="email"] rule, a parameter of the section. *)

From Stdlib Require Import String Ascii List Bool Arith NArith Lia Permutation.
From S2P Require Import Prelude JsNumber Timers.
Import ListNotations.
Open Scope nat_scope.
Open Scope string_scope.

(** A JavaScript object with string values, keys in insertion order. *)
Definition obj := list (string * string).

Fixpoint obj_get (o : obj) (k : string) : option string :=
  match o with
  | [] => None
  | (k', v) :: o' => if String.eqb k k' then Some v else obj_get o' k
  end.

(** [{ ...o, [k]: v }] *)
Fixpoint obj_set (o : obj) (k v : string) : obj :=
  match o with
  | [] => [(k, v)]
  | (k', v') :: o' => if String.eqb k k' then (k', v) :: o' else (k', v') :: obj_set o' k v
  end.

(** [{ name: '', email: '', subject: '', message: '' }] *)
Definition empty_form : obj := [("name", ""); ("email", ""); ("subject", ""); ("message", "")].

(** The inputs the form renders, by their [name] attribute. *)
Definition form_fields : list string := ["name"; "email"; "subject"; "message"].

Inductive callback : Type :=
| ShowSuccess     (** the 1000 ms callback *)
| ResetForm.      (** the 3000 ms callback *)

Record contact : Type := {
  formData : obj;
  isSubmitted : bool;
  mounted : bool;
  now : N;                            (** the clock, in ms *)
  timers : list (N * callback)        (** pending [setTimeout]s: due time, callback *)
}.

Definition initial_contact : contact :=
  {| formData := empty_form; isSubmitted := false; mounted := true; now := 0%N; timers := [] |}.

Definition set_form (s : contact) (f : obj) : contact :=
  {| formData := f; isSubmitted := isSubmitted s; mounted := mounted s; now := now s;
     timers := timers s |}.

Definition set_submitted (s : contact) (b : bool) : contact :=
  {| formData := formData s; isSubmitted := b; mounted := mounted s; now := now s;
     timers := timers s |}.

(** [setTimeout(cb, delay)] *)
Definition set_timeout (s : contact) (cb : callback) (delay : N) : contact :=
  {| formData := formData s; isSubmitted := isSubmitted s; mounted := mounted s; now := now s;
     timers := timers s ++ [((now s + delay)%N, cb)] |}.

(** A state update reaches the component only while it is mounted; React
    ignores it afterwards. *)
Definition set_state (s : contact) (upd : contact -> contact) : contact :=
  if mounted s then upd s else s.

(** [handleChange]: [setFormData({ ...formData, [e.target.name]: e.target.value })]. *)
Definition handleChange (name value : string) (s : contact) : contact :=
  set_state s (fun s => set_form s (obj_set (formData s) name value)).

(** [handleSubmit]: [e.preventDefault()], then the outer [setTimeout]. *)
Definition handleSubmit (s : contact) : contact := set_timeout s ShowSuccess 1000%N.

(** The two callbacks. *)
Definition run_callback (cb : callback) (s : contact) : contact :=
  match cb with
  | ShowSuccess => set_timeout (set_state s (fun s => set_submitted s true)) ResetForm 3000%N
  | ResetForm => set_state (set_state s (fun s => set_submitted s false))
                           (fun s => set_form s empty_form)
  end.

(** The [contactInfo] table: title, displayed details and [href]. *)
Record contact_entry : Type := ContactEntry { ci_title : string; ci_details : string; ci_href : string }.

Definition contactInfo : list contact_entry :=
  [ContactEntry "Email" "elhamdawimarwane@gmail.com" "mailto:elhamdawimarwane@gmail.com";
   ContactEntry "Téléphone" "+212 7 77 07 97 74" "tel:+212777079774";
   ContactEntry "Localisation" "Maroc" "#"].

Inductive contact_event : Type :=
| CChange (name value : string)   (** typing in the input named [name] *)
| CSubmit                         (** the submit button, or Enter *)
| CFire                           (** the earliest pending timer fires *)
| CElapse (dt : N)                (** time passes with no timer due *)
| CUnmount.

Section Browser.

(** The browser's [type="email"] check. *)
Variable valid_email : string -> bool.

Definition field_filled (f : obj) (k : string) : bool :=
  match obj_get f k with Some v => negb (String.eqb v "") | None => false end.

(** The constraints the browser checks before it dispatches [submit]. *)
Definition form_valid (f : obj) : bool :=
  forallb (field_filled f) form_fields &&
  match obj_get f "email" with Some v => valid_email v | None => false end.

Definition contact_handle (ev : contact_event) (s : contact) : contact :=
  match ev with
  | CChange name value =>
      if mounted s && negb (isSubmitted s) then handleChange name value s else s
  | CSubmit =>
      if mounted s && negb (isSubmitted s) && form_valid (formData s) then handleSubmit s else s
  | CFire =>
      match pop_earliest (timers s) with
      | Some ((d, cb), rest) =>
          run_callback cb {| formData := formData s; isSubmitted := isSubmitted s;
                             mounted := mounted s; now := d; timers := rest |}
      | None => s
      end
  | CElapse dt =>
      if forallb (fun t => N.leb (now s + dt) (fst t)) (timers s)
      then {| formData := formData s; isSubmitted := isSubmitted s; mounted := mounted s;
              now := (now s + dt)%N; timers := timers s |}
      else s
  | CUnmount =>
      {| formData := formData s; isSubmitted := isSubmitted s; mounted := false;
         now := now s; timers := timers s |}
  end.

Definition contact_run (evs : list contact_event) (s : contact) : contact :=
  fold_left (fun s ev => contact_handle ev s) evs s.

End Browser.

(** ** Lemmas *)

Lemma obj_get_set_same (o : obj) (k v : string) : obj_get (obj_set o k v) k = Some v.
Proof.
  induction o as [|[k' v'] o IH]; cbn; [now rewrite String.eqb_refl|].
  destruct (String.eqb k k') eqn:E; cbn; rewrite E; [reflexivity|exact IH].
Qed.

Lemma obj_get_set_other (o : obj) (k k2 v : string) :
  k2 <> k -> obj_get (obj_set o k v) k2 = obj_get o k2.
Proof.
  intros Hne. induction o as [|[k' v'] o IH]; cbn.
  - apply String.eqb_neq in Hne. now rewrite Hne.
  - destruct (String.eqb k k') eqn:E; cbn.
    + apply String.eqb_eq in E. subst k'. apply String.eqb_neq in Hne. now rewrite Hne.
    + now rewrite IH.
Qed.

Lemma obj_set_keys (o : obj) (k v : string) :
  In k (map fst o) -> map fst (obj_set o k v) = map fst o.
Proof.
  induction o as [|[k' v'] o IH]; cbn; [contradiction|]. intros H.
  destruct (String.eqb k k') eqn:E; cbn; [reflexivity|].
  apply String.eqb_neq in E. f_equal. apply IH. destruct H; [congruence|assumption].
Qed.

#[export] Hint Rewrite obj_get_set_same : fx_rw.

(** Simplify the arithmetic of the timer queue on symbolic times. *)
Ltac timers_step_in H :=
  first [ rewrite N.eqb_refl in H
        | rewrite N.min_l in H by lia | rewrite N.min_r in H by lia
        | rewrite (proj2 (N.eqb_neq _ _)) in H by lia
        | rewrite (proj2 (N.leb_le _ _)) in H by lia
        | rewrite (proj2 (N.leb_gt _ _)) in H by lia
        | rewrite obj_get_set_same in H ].

Ltac timers_cbn :=
  cbn [contact_handle pop_earliest min_due pop_due run_callback set_timeout set_state
       set_submitted set_form handleSubmit handleChange formData isSubmitted mounted now
       timers forallb fst snd app andb negb orb].

Ltac timers_cbn_in H :=
  cbn [contact_handle pop_earliest min_due pop_due run_callback set_timeout set_state
       set_submitted set_form handleSubmit handleChange formData isSubmitted mounted now
       timers forallb fst snd app andb negb orb] in H.

Ltac timers_step :=
  first [ rewrite N.eqb_refl
        | rewrite N.min_l by lia | rewrite N.min_r by lia
        | rewrite (proj2 (N.eqb_neq _ _)) by lia
        | rewrite (proj2 (N.leb_le _ _)) by lia
        | rewrite (proj2 (N.leb_gt _ _)) by lia ].

Ltac timers_simpl := timers_cbn; repeat (timers_step; timers_cbn).

Lemma contact_run_cons (valid_email : string -> bool) (ev : contact_event)
    (evs : list contact_event) (s : contact) :
  contact_run valid_email (ev :: evs) s = contact_run valid_email evs (contact_handle valid_email ev s).
Proof. reflexivity. Qed.

(** Run the first event of [contact_run] on an explicit state, rewriting
    with [H] (the validity of the form) where it applies. *)
Ltac run_step H :=
  rewrite contact_run_cons;
  match goal with
  | |- context [contact_handle ?ve ?ev ?s] =>
      let x := fresh "st" in let Ex := fresh "Ex" in
      remember (contact_handle ve ev s) as x eqn:Ex;
      timers_cbn_in Ex; try rewrite H in Ex; timers_cbn_in Ex;
      repeat (timers_step_in Ex; timers_cbn_in Ex); subst x
  end.

(** C27: typing in a field of the displayed form sets that field to the
    typed value and leaves the other fields and the order of the keys as
    they were. *)
Theorem change_sets_one_field (valid_email : string -> bool) (k v : string) (s : contact) :
  mounted s = true -> isSubmitted s = false -> map fst (formData s) = form_fields ->
  In k form_fields ->
  let s' := contact_handle valid_email (CChange k v) s in
  map fst (formData s') = form_fields /\ obj_get (formData s') k = Some v /\
  (forall k2, k2 <> k -> obj_get (formData s') k2 = obj_get (formData s) k2) /\
  isSubmitted s' = false /\ timers s' = timers s.
Proof.
  intros Hm Hs Hk Hin. unfold contact_handle, handleChange, set_state. rewrite Hm, Hs.
  cbn [andb negb formData isSubmitted timers set_form].
  split; [rewrite obj_set_keys; [exact Hk|now rewrite Hk]|].
  split; [apply obj_get_set_same|]. split; [|split; [exact Hs|reflexivity]].
  intros k2 Hne. now apply obj_get_set_other.
Qed.

Lemma change_sets_one_field_witness :
  mounted initial_contact = true /\ isSubmitted initial_contact = false /\
  map fst (formData initial_contact) = form_fields /\ In "email" form_fields /\
  let s' := contact_handle (fun _ => true) (CChange "email" "a@b.ma") initial_contact in
  map fst (formData s') = form_fields /\ obj_get (formData s') "email" = Some "a@b.ma" /\
  (forall k2, k2 <> "email" -> obj_get (formData s') k2 = obj_get (formData initial_contact) k2) /\
  isSubmitted s' = false /\ timers s' = timers initial_contact.
Proof.
  assert (Hin : In "email" form_fields) by (cbn; tauto).
  do 3 (split; [reflexivity|]). split; [exact Hin|].
  exact (change_sets_one_field (fun _ => true) "email" "a@b.ma" initial_contact
           eq_refl eq_refl eq_refl Hin).
Defined.

(** C28: a valid submission from a form with no pending timer shows the
    success message 1000 ms later and, 3000 ms after that, hides it and
    empties the form, leaving no timer behind. *)
Theorem submit_timeline (valid_email : string -> bool) (s : contact) :
  mounted s = true -> isSubmitted s = false -> form_valid valid_email (formData s) = true ->
  timers s = [] ->
  let s1 := contact_run valid_email [CSubmit; CFire] s in
  let s2 := contact_handle valid_email CFire s1 in
  isSubmitted s1 = true /\ now s1 = (now s + 1000)%N /\ formData s1 = formData s /\
  isSubmitted s2 = false /\ now s2 = (now s + 4000)%N /\ formData s2 = empty_form /\
  timers s2 = [].
Proof.
  intros Hm Hs Hv Ht. destruct s as [f b m t q]; cbn in Hm, Hs, Hv, Ht; subst.
  unfold contact_run. cbn [fold_left]. timers_simpl. rewrite Hv. timers_simpl.
  repeat split; lia.
Qed.

(** A filled form, for the witnesses. *)
Definition filled_contact : contact :=
  {| formData := [("name", "Amal"); ("email", "amal@example.ma"); ("subject", "Projet");
                  ("message", "Bonjour")];
     isSubmitted := false; mounted := true; now := 12000%N; timers := [] |}.

Lemma submit_timeline_witness :
  mounted filled_contact = true /\ isSubmitted filled_contact = false /\
  form_valid (fun _ => true) (formData filled_contact) = true /\ timers filled_contact = [] /\
  let s1 := contact_run (fun _ => true) [CSubmit; CFire] filled_contact in
  let s2 := contact_handle (fun _ => true) CFire s1 in
  isSubmitted s1 = true /\ now s1 = (now filled_contact + 1000)%N /\
  formData s1 = formData filled_contact /\
  isSubmitted s2 = false /\ now s2 = (now filled_contact + 4000)%N /\ formData s2 = empty_form /\
  timers s2 = [].
Proof.
  do 4 (split; [reflexivity|]).
  exact (submit_timeline (fun _ => true) filled_contact eq_refl eq_refl eq_refl eq_refl).
Defined.

(** C29 (finding): nothing cancels the timers of an earlier submission.
    When the form is submitted twice within the first second (a double
    click), the first reset shows the empty form again at [t + 4000], and
    what the user types then is erased by the second reset at [t + 4500]. *)
Theorem double_submit_erases_edits (valid_email : string -> bool) (s : contact) (v : string) :
  mounted s = true -> isSubmitted s = false -> form_valid valid_email (formData s) = true ->
  timers s = [] ->
  let s1 := contact_run valid_email
              [CSubmit; CElapse 500%N; CSubmit; CFire; CFire; CFire; CElapse 100%N] s in
  let s2 := contact_handle valid_email (CChange "name" v) s1 in
  let s3 := contact_handle valid_email CFire s2 in
  isSubmitted s1 = false /\ now s1 = (now s + 4100)%N /\
  obj_get (formData s2) "name" = Some v /\
  isSubmitted s3 = false /\ now s3 = (now s + 4500)%N /\ formData s3 = empty_form /\
  timers s3 = [].
Proof.
  intros Hm Hs Hv Ht. destruct s as [f b m t q]; cbn in Hm, Hs, Hv, Ht; subst.
  cbv zeta. do 7 run_step Hv. unfold contact_run. cbn [fold_left].
  timers_simpl. rewrite obj_get_set_same. repeat split; lia.
Qed.

Lemma double_submit_erases_edits_witness :
  mounted filled_contact = true /\ isSubmitted filled_contact = false /\
  form_valid (fun _ => true) (formData filled_contact) = true /\ timers filled_contact = [] /\
  let s1 := contact_run (fun _ => true)
              [CSubmit; CElapse 500%N; CSubmit; CFire; CFire; CFire; CElapse 100%N]
              filled_contact in
  let s2 := contact_handle (fun _ => true) (CChange "name" "Amal B.") s1 in
  let s3 := contact_handle (fun _ => true) CFire s2 in
  isSubmitted s1 = false /\ now s1 = (now filled_contact + 4100)%N /\
  obj_get (formData s2) "name" = Some "Amal B." /\
  isSubmitted s3 = false /\ now s3 = (now filled_contact + 4500)%N /\ formData s3 = empty_form /\
  timers s3 = [].
Proof.
  do 4 (split; [reflexivity|]).
  exact (double_submit_erases_edits (fun _ => true) filled_contact "Amal B."
           eq_refl eq_refl eq_refl eq_refl).
Defined.

(** C30 (finding): the component has no cleanup for its timers.  If it
    unmounts during the first second after a submission, the outer
    callback still runs and schedules the inner one, whose state updates
    go to an unmounted component. *)
Theorem timers_outlive_unmount (valid_email : string -> bool) (s : contact) :
  mounted s = true -> isSubmitted s = false -> form_valid valid_email (formData s) = true ->
  timers s = [] ->
  let s1 := contact_run valid_email [CSubmit; CUnmount] s in
  let s2 := contact_handle valid_email CFire s1 in
  mounted s1 = false /\ timers s1 = [((now s + 1000)%N, ShowSuccess)] /\
  timers s2 = [((now s + 4000)%N, ResetForm)] /\ isSubmitted s2 = false.
Proof.
  intros Hm Hs Hv Ht. destruct s as [f b m t q]; cbn in Hm, Hs, Hv, Ht; subst.
  cbv zeta. do 2 run_step Hv. unfold contact_run. cbn [fold_left].
  timers_simpl. repeat split. do 2 f_equal. lia.
Qed.

Lemma timers_outlive_unmount_witness :
  mounted filled_contact = true /\ isSubmitted filled_contact = false /\
  form_valid (fun _ => true) (formData filled_contact) = true /\ timers filled_contact = [] /\
  let s1 := contact_run (fun _ => true) [CSubmit; CUnmount] filled_contact in
  let s2 := contact_handle (fun _ => true) CFire s1 in
  mounted s1 = false /\ timers s1 = [((now filled_contact + 1000)%N, ShowSuccess)] /\
  timers s2 = [((now filled_contact + 4000)%N, ResetForm)] /\ isSubmitted s2 = false.
Proof.
  do 4 (split; [reflexivity|]).
  exact (timers_outlive_unmount (fun _ => true) filled_contact eq_refl eq_refl eq_refl eq_refl).
Defined.

(** ** The success message never stays *)

(** While the mounted form shows its success message, a [ResetForm] is
    pending, due at most 3000 ms from now. *)
Definition reset_pending (s : contact) : Prop :=
  mounted s = true -> isSubmitted s = true ->
  exists d, In (d, ResetForm) (timers s) /\ (d <= now s + 3000)%N.

(** Firing either callback re-establishes [reset_pending] at the time it
    fires: the outer one schedules the reset, the inner one clears the
    message. *)
Lemma run_callback_reset_pending (cb : callback) (f : obj) (b m : bool) (d : N)
    (rest : list (N * callback)) :
  reset_pending (run_callback cb {| formData := f; isSubmitted := b; mounted := m; now := d;
                                    timers := rest |}).
Proof.
  unfold reset_pending. destruct cb, m; cbn; intros Hm Hb; try discriminate.
  exists (d + 3000)%N. split; [apply in_or_app; right; left; reflexivity|lia].
Qed.

Lemma contact_handle_reset_pending (valid_email : string -> bool) (ev : contact_event) (s : contact) :
  reset_pending s -> reset_pending (contact_handle valid_email ev s).
Proof.
  unfold reset_pending. intros H. destruct ev as [k v| | |dt|]; cbn [contact_handle].
  - destruct (_ && _); [|exact H]. unfold handleChange, set_state.
    destruct (mounted s) eqn:Em; [cbn; intros _; exact (H eq_refl)|intros Hm; congruence].
  - destruct (_ && _); [|exact H]. cbn. intros Hm Hb. destruct (H Hm Hb) as (d & Hd & Hle).
    exists d. split; [apply in_or_app; now left|exact Hle].
  - destruct (pop_earliest (timers s)) as [[[d cb] rest]|]; [|exact H].
    apply run_callback_reset_pending.
  - destruct (forallb _ _); [|exact H]. cbn. intros Hm Hb.
    destruct (H Hm Hb) as (d & Hd & Hle). exists d. split; [exact Hd|lia].
  - cbn. discriminate.
Qed.

(** C31: the success message is never left on screen.  From a state where
    it holds (the initial state, for one), after any sequence of events
    (changes, submissions, timers firing in due order, time passing, the
    unmount), whenever the mounted form shows its success message a
    [ResetForm] callback is pending and due within 3000 ms. *)
Theorem success_never_stuck (valid_email : string -> bool) (evs : list contact_event) (s : contact) :
  reset_pending s -> reset_pending (contact_run valid_email evs s).
Proof.
  revert s. induction evs as [|ev evs IH]; intros s H; [exact H|].
  rewrite contact_run_cons. apply IH, contact_handle_reset_pending, H.
Qed.

Lemma success_never_stuck_witness :
  reset_pending initial_contact /\
  reset_pending (contact_run (fun _ => true) [CChange "name" "Sara"; CSubmit; CFire; CElapse 10%N]
                             initial_contact).
Proof.
  assert (H : reset_pending initial_contact) by (intros _ Hb; discriminate).
  split; [exact H|]. exact (success_never_stuck (fun _ => true) _ initial_contact H).
Defined.

(** ** The timers drain *)

(** How many firings a pending callback still causes: the outer callback
    fires and schedules the inner one; the inner one schedules nothing. *)
Definition weight (cb : callback) : nat :=
  match cb with ShowSuccess => 2 | ResetForm => 1 end.

Definition queue_weight (q : list (N * callback)) : nat :=
  fold_right (fun e acc => weight (snd e) + acc) 0 q.

Lemma queue_weight_app (q1 q2 : list (N * callback)) :
  queue_weight (q1 ++ q2) = queue_weight q1 + queue_weight q2.
Proof. unfold queue_weight. induction q1 as [|e q1 IH]; cbn; lia. Qed.

Lemma queue_weight_perm (q1 q2 : list (N * callback)) :
  Permutation q1 q2 -> queue_weight q1 = queue_weight q2.
Proof. unfold queue_weight. induction 1; cbn; lia. Qed.

(** The browser firing timers until none is left, at most [fuel] times. *)
Fixpoint drain (valid_email : string -> bool) (fuel : nat) (s : contact) : contact :=
  match fuel with
  | O => s
  | S fuel' =>
      match timers s with
      | [] => s
      | _ :: _ => drain valid_email fuel' (contact_handle valid_email CFire s)
      end
  end.

(** Each firing lowers the weight of the queue by one. *)
Lemma fire_weight (valid_email : string -> bool) (s : contact) :
  timers s <> [] ->
  S (queue_weight (timers (contact_handle valid_email CFire s))) = queue_weight (timers s).
Proof.
  intros Hq. destruct (pop_earliest_nonempty (timers s) Hq) as ([d cb] & r & E).
  destruct (pop_earliest_spec _ _ _ E) as [Hp _]. cbn [contact_handle]. rewrite E.
  rewrite (queue_weight_perm _ _ Hp). cbn -[queue_weight].
  destruct cb; unfold set_state; destruct (mounted s); cbn -[queue_weight];
    rewrite ?queue_weight_app; unfold queue_weight; cbn; lia.
Qed.

(** C38: the timers of the form always drain.  Whatever the state, after
    at most [queue_weight] firings (two for each pending outer callback,
    one for each inner one) no timer is left: the nested [setTimeout]s
    cannot keep the browser's timer loop busy for ever. *)
Theorem timers_drain (valid_email : string -> bool) (n : nat) (s : contact) :
  queue_weight (timers s) <= n -> timers (drain valid_email n s) = [].
Proof.
  revert s. induction n as [|n IH]; intros s Hw.
  - cbn [drain]. destruct (timers s) as [|[d cb] q] eqn:E; [reflexivity|].
    cbn in Hw. destruct cb; cbn in Hw; lia.
  - cbn [drain]. destruct (timers s) as [|e q] eqn:E; [exact E|]. apply IH.
    pose proof (fire_weight valid_email s ltac:(rewrite E; discriminate)) as H.
    rewrite E in H. try rewrite E in Hw. lia.
Qed.

Lemma timers_drain_witness :
  let s := contact_run (fun _ => true) [CSubmit; CElapse 200%N; CSubmit] filled_contact in
  queue_weight (timers s) <= 4 /\ timers (drain (fun _ => true) 4 s) = [].
Proof.
  cbv zeta. assert (H : queue_weight (timers (contact_run (fun _ => true)
                          [CSubmit; CElapse 200%N; CSubmit] filled_contact)) <= 4)
    by (vm_compute; lia).
  split; [exact H|]. exact (timers_drain (fun _ => true) 4 _ H).
Defined.

(** ** The shape of [formData] *)

(** The events the page can produce: a change event comes from one of the
    four inputs the form renders, named by their [name] attribute. *)
Definition page_event (ev : contact_event) : Prop :=
  match ev with CChange k _ => In k form_fields | _ => True end.

(** [formData] has the keys of its initial object, in the same order. *)
Definition form_shape (s : contact) : Prop := map fst (formData s) = form_fields.

Lemma run_callback_shape (cb : callback) (s : contact) :
  form_shape s -> form_shape (run_callback cb s).
Proof.
  unfold form_shape. intros H. destruct s as [f b m t q]. cbn in H.
  destruct cb, m; cbn; first [exact H | reflexivity].
Qed.

Lemma contact_handle_shape (valid_email : string -> bool) (ev : contact_event) (s : contact) :
  page_event ev -> form_shape s -> form_shape (contact_handle valid_email ev s).
Proof.
  unfold form_shape. intros Hev H. destruct ev as [k v| | | |]; cbn [contact_handle].
  - destruct (_ && _); [|exact H]. unfold handleChange, set_state.
    destruct (mounted s); [|exact H]. cbn. rewrite obj_set_keys; [exact H|]. now rewrite H.
  - destruct (_ && _); exact H.
  - destruct (pop_earliest (timers s)) as [[[d cb] r]|]; [|exact H].
    apply run_callback_shape. exact H.
  - destruct (forallb _ _); exact H.
  - exact H.
Qed.

Lemma obj_get_in_keys (o : obj) (k : string) :
  In k (map fst o) -> exists v, obj_get o k = Some v.
Proof.
  induction o as [|[k' v'] o IH]; cbn; [contradiction|]. intros H.
  destruct (String.eqb k k') eqn:E; [eauto|].
  destruct H as [H|H]; [apply String.eqb_neq in E; congruence|auto].
Qed.

Lemma contact_run_shape (valid_email : string -> bool) (evs : list contact_event) (s : contact) :
  Forall page_event evs -> form_shape s -> form_shape (contact_run valid_email evs s).
Proof.
  intros Hevs. revert s. induction Hevs as [|ev evs Hev Hevs IH]; intros s H; [exact H|].
  rewrite contact_run_cons. apply IH, contact_handle_shape; assumption.
Qed.

(** A form of this shape is the four fields with their values. *)
Lemma form_shape_values (s : contact) :
  form_shape s -> exists v1 v2 v3 v4,
    formData s = [("name", v1); ("email", v2); ("subject", v3); ("message", v4)].
Proof.
  unfold form_shape. destruct (formData s) as [|[k1 v1] [|[k2 v2] [|[k3 v3] [|[k4 v4] [|]]]]];
    cbn; intros H; try discriminate. injection H as -> -> -> ->. eauto.
Qed.

(** C39: [formData] keeps the type of its initial object.  Under any
    sequence of events the page can produce (changes from the four inputs,
    submissions, timers, time passing, the unmount) it has exactly the
    keys [name], [email], [subject], [message] in that order, so each
    controlled input always reads a string, never [undefined]. *)
Theorem form_keeps_shape (valid_email : string -> bool) (evs : list contact_event) (s : contact) :
  Forall page_event evs -> form_shape s ->
  form_shape (contact_run valid_email evs s) /\
  forall k, In k form_fields -> exists v, obj_get (formData (contact_run valid_email evs s)) k = Some v.
Proof.
  intros Hevs H. pose proof (contact_run_shape valid_email evs s Hevs H) as Hs.
  split; [exact Hs|]. intros k Hk. apply obj_get_in_keys. now rewrite Hs.
Qed.

Lemma form_keeps_shape_witness :
  let evs := [CChange "subject" "Devis"; CSubmit; CFire; CFire; CChange "name" "Sara"] in
  Forall page_event evs /\ form_shape filled_contact /\
  form_shape (contact_run (fun _ => true) evs filled_contact) /\
  forall k, In k form_fields ->
    exists v, obj_get (formData (contact_run (fun _ => true) evs filled_contact)) k = Some v.
Proof.
  cbv zeta.
  assert (He : Forall page_event [CChange "subject" "Devis"; CSubmit; CFire; CFire;
                                  CChange "name" "Sara"])
    by (repeat constructor; cbn; tauto).
  assert (Hs : form_shape filled_contact) by reflexivity.
  split; [exact He|]. split; [exact Hs|].
  exact (form_keeps_shape (fun _ => true) _ filled_contact He Hs).
Defined.
