(* ===== verification/Projects.v ===== *)
(** The project cards of [Projects.tsx] (outside its particle field).
    - [projectsData] is the table of projects; [getTechIcon] picks the icon
      of a technology chip by a [switch] on [tech.toLowerCase()].
    - Each card renders its technology chips, a "Démo" button when
      [demoUrl] is truthy and a GitHub link when [githubUrl] is truthy.
    - The "Démo" button scrolls to the contact section and, 800 ms later,
      focuses the input with id [name]; the GitHub link's [href] is the
      constant [GITHUB_PROFILE].
    [toLowerCase] is modelled on ASCII letters, which is all the technology
    names use. *)

From Stdlib Require Import String Ascii List Bool NArith Lia.
From S2P Require Import Prelude JsNumber Navigation Contact.
Import ListNotations.
Open Scope string_scope.

(** ** Strings *)

Definition ascii_to_lower (c : ascii) : ascii :=
  let n := nat_of_ascii c in
  if Nat.leb 65 n && Nat.leb n 90 then ascii_of_nat (n + 32)%nat else c.

(** [String.prototype.toLowerCase] on ASCII. *)
Fixpoint to_lower (s : string) : string :=
  match s with
  | EmptyString => EmptyString
  | String c s' => String (ascii_to_lower c) (to_lower s')
  end.

(** ** Data *)

Inductive tech_icon : Type :=
| ReactIcon | LaravelIcon | MySQLIcon | TailwindIcon
| FileTextIcon | SmartphoneIcon | DatabaseIcon | TerminalIcon.

Definition GITHUB_PROFILE : string := "https://github.com/Mar11wane-git".

Record project : Type := Project {
  pr_id : nat;
  pr_title : string;
  pr_description : string;
  pr_technologies : list string;
  pr_features : list string;
  pr_demoUrl : string;
  pr_githubUrl : string
}.

Definition projectsData : list project :=
  [Project 1%nat "GoalTime"
     "Plateforme complète permettant aux utilisateurs de réserver des terrains de football, s'inscrire à des tournois, effectuer des paiements en ligne et contacter les administrateurs."
     ["React"; "Laravel"; "MySQL"; "CSS"; "TypeScript"]
     ["Réservation de terrains"; "Inscription aux tournois"; "Paiements en ligne"; "Contact admin"]
     "https://football-reservation.example.com"
     "https://github.com/username/football-reservation";
   Project 2%nat "Gestion-RH"
     "Application de gestion des ressources humaines permettant d'ajouter, supprimer et modifier les informations des employés, gérer les candidatures, visualiser les salaires et administrer les congés."
     ["React"; "TypeScript"; "MySQL"; "Laravel"; "Redux"; "TailwindCSS"]
     ["Gestion employés"; "Suivi candidatures"; "Calcul salaires"; "Gestion congés"]
     "https://hrms-system.example.com"
     "https://github.com/username/hrms-system";
   Project 3%nat "StoreHub"
     "Interface e-commerce moderne développée avec React, HTML et CSS, permettant aux utilisateurs de parcourir les produits, gérer leur panier et simuler des achats en ligne."
     ["React"; "HTML"; "CSS"]
     ["Catalogue produits"; "Gestion panier"; "Interface responsive"; "Simulation achats"]
     "https://storehub-demo.example.com"
     "https://github.com/username/storehub"].

(** [getTechIcon]: the [switch] on the lower-cased name, [Terminal] by
    default. *)
Definition getTechIcon (tech : string) : tech_icon :=
  let t := to_lower tech in
  if String.eqb t "react" then ReactIcon
  else if String.eqb t "laravel" then LaravelIcon
  else if String.eqb t "mysql" then MySQLIcon
  else if String.eqb t "tailwindcss" then TailwindIcon
  else if String.eqb t "typescript" then FileTextIcon
  else if String.eqb t "css" then SmartphoneIcon
  else if String.eqb t "redux" then DatabaseIcon
  else TerminalIcon.

(** ** Cards *)

Inductive card_button : Type :=
| DemoButton                   (** the "Démo" button *)
| GithubLink (href : string).  (** [<a href=... target="_blank">GitHub</a>] *)

Record card : Type := Card {
  cd_title : string;
  cd_chips : list (tech_icon * string);
  cd_features : list string;
  cd_buttons : list card_button
}.

(** A JavaScript string is truthy when it is not empty. *)
Definition truthy (s : string) : bool := negb (String.eqb s "").

(** The card [projectsData.map] renders for a project. *)
Definition render_card (p : project) : card :=
  {| cd_title := pr_title p;
     cd_chips := map (fun tech => (getTechIcon tech, tech)) (pr_technologies p);
     cd_features := pr_features p;
     cd_buttons := (if truthy (pr_demoUrl p) then [DemoButton] else []) ++
                   (if truthy (pr_githubUrl p) then [GithubLink GITHUB_PROFILE] else []) |}.

(** The "Démo" button's [onClick]: scroll to [contact] now, and schedule
    the focus of the element with id [name] 800 ms later. *)
Definition demo_click (w : window) : window * list (N * string) :=
  (scroll_into_view page_elements (Some "contact") w, [(800%N, "name")]).

(** The page's last link, "Voir GitHub". *)
Definition portfolio_link : string := GITHUB_PROFILE.

(** ** Lemmas *)

Lemma ascii_to_lower_idem (c : ascii) : ascii_to_lower (ascii_to_lower c) = ascii_to_lower c.
Proof.
  destruct c as [b0 b1 b2 b3 b4 b5 b6 b7].
  destruct b0, b1, b2, b3, b4, b5, b6, b7; vm_compute; reflexivity.
Qed.

Lemma to_lower_idem (s : string) : to_lower (to_lower s) = to_lower s.
Proof. induction s as [|c s IH]; cbn; [reflexivity|]. now rewrite ascii_to_lower_idem, IH. Qed.

#[export] Hint Rewrite to_lower_idem : fx_rw.

(** C34: [getTechIcon] does not depend on the case of the name, and in the
    project table every technology gets its own icon except HTML, the only
    one that falls to the default [Terminal] icon. *)
Theorem getTechIcon_case_insensitive (t : string) (p : project) (tech : string) :
  getTechIcon (to_lower t) = getTechIcon t /\
  (In p projectsData -> In tech (pr_technologies p) ->
   (getTechIcon tech = TerminalIcon <-> tech = "HTML")).
Proof.
  split; [unfold getTechIcon; now rewrite to_lower_idem|].
  intros Hp Ht. cbn in Hp.
  repeat (destruct Hp as [<-|Hp]; [cbn in Ht; repeat (destruct Ht as [<-|Ht]; [vm_compute; split;
            congruence|]); contradiction|]).
  contradiction.
Qed.

Lemma getTechIcon_case_insensitive_witness :
  getTechIcon (to_lower "TailwindCSS") = getTechIcon "TailwindCSS" /\
  In (nth 2 projectsData (Project 0 "" "" [] [] "" "")) projectsData /\
  In "HTML" (pr_technologies (nth 2 projectsData (Project 0 "" "" [] [] "" ""))) /\
  (getTechIcon "HTML" = TerminalIcon <-> "HTML" = "HTML").
Proof.
  assert (Hp : In (nth 2 projectsData (Project 0 "" "" [] [] "" "")) projectsData)
    by (right; right; left; reflexivity).
  assert (Ht : In "HTML" (pr_technologies (nth 2 projectsData (Project 0 "" "" [] [] "" ""))))
    by (right; left; reflexivity).
  destruct (getTechIcon_case_insensitive "TailwindCSS"
                (nth 2 projectsData (Project 0 "" "" [] [] "" "")) "HTML") as [H1 H2].
  split; [exact H1|]. split; [exact Hp|]. split; [exact Ht|]. exact (H2 Hp Ht).
Defined.

(** C35 (finding): every project card renders a GitHub link, and every
    such link points to [GITHUB_PROFILE], never to the project's own
    [githubUrl]. *)
Theorem github_links_ignore_project_url (p : project) :
  In p projectsData ->
  In (GithubLink GITHUB_PROFILE) (cd_buttons (render_card p)) /\
  (forall h, In (GithubLink h) (cd_buttons (render_card p)) ->
     h = GITHUB_PROFILE /\ h <> pr_githubUrl p).
Proof.
  intros Hp. cbn in Hp.
  repeat (destruct Hp as [<-|Hp];
          [split; [cbn; tauto|]; intros h Hh; cbn in Hh;
           destruct Hh as [Hh|[Hh|[]]]; try discriminate; injection Hh as <-;
           split; [reflexivity|discriminate]|]).
  contradiction.
Qed.

Lemma github_links_ignore_project_url_witness :
  In (nth 0 projectsData (Project 0 "" "" [] [] "" "")) projectsData /\
  In (GithubLink GITHUB_PROFILE) (cd_buttons (render_card (nth 0 projectsData (Project 0 "" "" [] [] "" "")))) /\
  (forall h, In (GithubLink h) (cd_buttons (render_card (nth 0 projectsData (Project 0 "" "" [] [] "" "")))) ->
     h = GITHUB_PROFILE /\ h <> pr_githubUrl (nth 0 projectsData (Project 0 "" "" [] [] "" ""))).
Proof.
  assert (Hp : In (nth 0 projectsData (Project 0 "" "" [] [] "" "")) projectsData) by (left; reflexivity).
  split; [exact Hp|]. exact (github_links_ignore_project_url _ Hp).
Defined.

(** C36 (finding): the "Démo" button of every card never opens the
    project's [demoUrl].  Its click only requests a scroll to the contact
    section, which exists, and schedules, 800 ms later, the focus of the
    contact form's [name] input. *)
Theorem demo_button_goes_to_contact (p : project) (w : window) :
  In p projectsData ->
  In DemoButton (cd_buttons (render_card p)) /\
  fst (demo_click w) = request w (ScrollIntoView "contact") /\
  snd (demo_click w) = [(800%N, "name")] /\
  getElementById page_elements (Some "name") = Some (Element "name" InputEl) /\
  In "name" form_fields /\
  (forall r, In r (w_requests (fst (demo_click w))) -> In r (w_requests w) \/
     r = ScrollIntoView "contact").
Proof.
  intros Hp. split.
  - cbn in Hp. repeat (destruct Hp as [<-|Hp]; [cbn; tauto|]). contradiction.
  - split; [reflexivity|]. split; [reflexivity|]. split; [reflexivity|].
    split; [cbn; tauto|]. intros r Hr. cbn in Hr. apply in_app_or in Hr.
    destruct Hr as [Hr|[Hr|[]]]; [now left|now right].
Qed.

Lemma demo_button_goes_to_contact_witness :
  let w := {| w_scroll_y := NaN; w_scroll_listeners := 0%nat; w_requests := [] |} in
  let p := nth 1 projectsData (Project 0 "" "" [] [] "" "") in
  In p projectsData /\
  In DemoButton (cd_buttons (render_card p)) /\
  fst (demo_click w) = request w (ScrollIntoView "contact") /\
  snd (demo_click w) = [(800%N, "name")] /\
  getElementById page_elements (Some "name") = Some (Element "name" InputEl) /\
  In "name" form_fields /\
  (forall r, In r (w_requests (fst (demo_click w))) -> In r (w_requests w) \/
     r = ScrollIntoView "contact").
Proof.
  cbv zeta.
  assert (Hp : In (nth 1 projectsData (Project 0 "" "" [] [] "" "")) projectsData)
    by (right; left; reflexivity).
  split; [exact Hp|]. exact (demo_button_goes_to_contact _ _ Hp).
Defined.
