(* ===== verification/Tables.v ===== *)
(** The static tables the sections render with [map], and the React keys
    they render them with: the skill categories and technology list of
    [Skills.tsx], and the statistics, technologies and specialties of
    [About.tsx].  React requires the keys of the elements of one list to be
    distinct; the lists keyed by data (not by index) are collected here
    with the tables of [Header.tsx], [Footer.tsx] and [Projects.tsx]. *)

From Stdlib Require Import String List Bool Arith.
From S2P Require Import Prelude Navigation Projects.
Import ListNotations.
Open Scope string_scope.

Record skill : Type := Skill { sk_name : string; sk_level : nat }.

Record skill_category : Type := SkillCategory { cat_title : string; cat_skills : list skill }.

Definition skillCategories : list skill_category :=
  [SkillCategory "Frontend"
     [Skill "React" 95; Skill "JavaScript" 90; Skill "Vue.js" 85; Skill "Tailwind CSS" 95;
      Skill "Next.js" 88];
   SkillCategory "Backend"
     [Skill "Laravel" 90; Skill "Python" 85; Skill "MySQL" 88; Skill "MongoDB" 82;
      Skill "Express.js" 80];
   SkillCategory "DevOps & Tools"
     [Skill "Docker" 85; Skill "GitHub" 80; Skill "Git" 95; Skill "CI/CD" 82; Skill "UML" 85]].

(** The names of [technologies] in [Skills.tsx] (keyed by index). *)
Definition skills_technologies : list string :=
  ["Laravel"; "PHP"; "React"; "JavaScript"; "Node.js"; "Express"; "MySQL"; "MongoDB";
   "Tailwind CSS"; "Git"; "GitHub"; "Python"].

(** [stats] of [About.tsx]: number and label (keyed by index). *)
Definition about_stats : list (string * string) :=
  [("10+", "Projets académiques & personnels"); ("500+", "Heures de code");
   ("2", "Certifications (en cours)"); ("100%", "Motivation")].

(** The names of [technologies] in [About.tsx], rendered with
    [key={tech.name}]. *)
Definition about_technologies : list string :=
  ["Laravel"; "PHP"; "React"; "JavaScript"; "Node.js"; "MySQL"; "MongoDB"; "Tailwind CSS"].

(** [specialties] of [About.tsx]: title and description (keyed by index). *)
Definition about_specialties : list (string * string) :=
  [("Développement Frontend", "React, Vue.js, TypeScript, et frameworks modernes");
   ("Développement Backend", "Node.js, Python, bases de données, APIs REST");
   ("UI/UX Design", "Design moderne, responsive et centré utilisateur");
   ("Solutions Complètes", "Applications web full stack de A à Z")].

(** The keys of each list rendered with a data key. *)
Definition header_keys : list string := header_nav_items.                 (** [key={item}] *)
Definition footer_nav_keys : list string := map fst footer_links.        (** [key={link.name}] *)
Definition footer_social_keys : list string := map snd footer_social_links. (** [key={label}] *)
Definition about_technology_keys : list string := about_technologies.    (** [key={tech.name}] *)
Definition project_keys : list nat := map pr_id projectsData.            (** [key={project.id}] *)

(** Every list the components render with a data key has distinct
    keys, as React requires: the header's menu items, the footer's
    navigation links and social links, the technologies of the About
    section and the project cards. *)
Theorem react_keys_unique :
  NoDup header_keys /\ NoDup footer_nav_keys /\ NoDup footer_social_keys /\
  NoDup about_technology_keys /\ NoDup project_keys.
Proof.
  repeat split; (apply (nodupb_NoDup String.eqb); [exact String.eqb_eq|reflexivity])
    || (apply (nodupb_NoDup Nat.eqb); [exact Nat.eqb_eq|reflexivity]).
Qed.
