(* ===== verification/SectionViews.v ===== *)
(** What the other sections render: [About.tsx] (lines 255-373),
    [Skills.tsx] (lines 302-422), [Contact.tsx] (lines 54-212), the
    section around the project cards of [Projects.tsx] (lines 335-451) and
    [Footer.tsx] (lines 17-106), as trees of [View].
    - JSX text split over several lines is one text with single spaces, as
      JSX joins it.
    - An inline [style={{ ... }}] is kept as attributes [style.<key>] in
      the order of the object's keys, the order in which React assigns them
      to the element's style.  [css_animation_delay] is the
      [animation-delay] the element ends with: the [animation] shorthand
      resets it to the delay it names, [0s] when it names none.
    - The icons ([lucide-react] components and the inline SVGs) are left
      out. *)

From Stdlib Require Import String Ascii List Bool ZArith Lia.
From S2P Require Import Prelude JsNumber View Navigation Contact Projects Tables HeroUi HeroView.
Import ListNotations.
Open Scope string_scope.
Open Scope list_scope.

(** ** Inline styles *)

Fixpoint split_spaces_aux (s acc : string) : list string :=
  match s with
  | EmptyString => if String.eqb acc "" then [] else [acc]
  | String c s' =>
      if Ascii.eqb c " "%char
      then (if String.eqb acc "" then [] else [acc]) ++ split_spaces_aux s' ""
      else split_spaces_aux s' (acc ++ String c EmptyString)%string
  end.

(** The space-separated tokens of a CSS value. *)
Definition split_spaces (s : string) : list string := split_spaces_aux s "".

Definition is_digit_or_dot (c : ascii) : bool :=
  Ascii.eqb c "."%char || (Nat.leb 48 (nat_of_ascii c) && Nat.leb (nat_of_ascii c) 57).

Fixpoint all_digits (s : string) : bool :=
  match s with
  | EmptyString => true
  | String c s' => is_digit_or_dot c && all_digits s'
  end.

(** A CSS [<time>] token: a number followed by [s] or [ms]. *)
Definition is_time (tok : string) : bool :=
  let n := String.length tok in
  (Nat.ltb 2 n && String.eqb (substring (n - 2) 2 tok) "ms" && all_digits (substring 0 (n - 2) tok))
  || (Nat.ltb 1 n && String.eqb (substring (n - 1) 1 tok) "s" && all_digits (substring 0 (n - 1) tok)).

(** The delay an [animation] shorthand sets: its second time, [0s] if it
    has no second time. *)
Definition shorthand_delay (v : string) : string :=
  nth 1 (filter is_time (split_spaces v)) "0s".

(** The [animation-delay] an element ends with once React has assigned its
    inline style's keys in order. *)
Definition css_animation_delay (attrs : list (string * string)) : string :=
  fold_left (fun d kv =>
               if String.eqb (fst kv) "style.animationDelay" then snd kv
               else if String.eqb (fst kv) "style.animation" then shorthand_delay (snd kv)
               else d) attrs "0s".

(** ** About *)

Definition about_profile_1 : string :=
  "Développeur Web Full Stack passionné par la création d'applications performantes et intuitives, maîtrisant à la fois le front-end (HTML, Tailwind CSS, JavaScript, React) et le back-end (PHP, Laravel, Node.js). Solide expérience dans la conception, l'intégration et l'optimisation de bases de données relationnelles et NoSQL (MySQL, MongoDB).".

Definition about_profile_2 : string :=
  "Doté d'une bonne compréhension des APIs et de l'architecture logicielle, j'assure le développement d'outils complets, de la conception à la mise en production. Curieux et motivé, je m'adapte facilement aux nouvelles technologies et je cherche constamment à améliorer mes compétences afin de livrer des solutions fiables, évolutives et centrées sur l'utilisateur.".

(** A technology chip of About: [style={{ animationDelay, animation }}]. *)
Definition about_chip (index : nat) (name : string) : node unit :=
  El "span" [("style.animationDelay", (nat_str (index * 100) ++ "ms")%string);
             ("style.animation", "fadeInUp 0.6s ease-out forwards")] None
     [El "span" [] None [Text name]].

Definition about_view : node unit :=
  El "section" [("id", "about")] None
    [El "h2" [] None [Text "À propos de moi"];
     El "h3" [] None [Text "Profil"];
     El "h4" [] None [Text "MAROUANE EL HAMDAOUI"];
     El "p" [] None [Text about_profile_1];
     El "p" [] None [Text about_profile_2];
     El "h3" [] None [Text "Technologies Maîtrisées"];
     El "div" [] None
       (map (fun i => about_chip i (nth i about_technologies "")) (seq 0 (length about_technologies)));
     El "div" [] None
       (map (fun st => El "div" [] None [El "div" [] None [Text (fst st)];
                                          El "div" [] None [Text (snd st)]]) about_stats);
     El "h3" [] None [Text "Mes Spécialités"];
     El "div" [] None
       (map (fun sp => El "div" [] None [El "h4" [] None [Text (fst sp)];
                                         El "p" [] None [Text (snd sp)]]) about_specialties)].

(** ** Skills *)

(** One skill: its name, [{skill.level}%] and the bar of width
    [`${skill.level}%`]. *)
Definition skill_view (sk : skill) : node unit :=
  El "div" [] None
    [El "span" [] None [Text (sk_name sk)];
     El "span" [] None [Text (nat_str (sk_level sk) ++ "%")%string];
     El "div" [] None [El "div" [("style.width", (nat_str (sk_level sk) ++ "%")%string)] None []]].

Definition skills_chip (index : nat) (name : string) : node unit :=
  El "div" [("style.animationDelay", (nat_str (index * 50) ++ "ms")%string);
            ("style.animation", "fadeInUp 0.6s ease-out forwards")] None
     [El "span" [] None [Text name]].

Definition skills_view : node unit :=
  El "section" [("id", "skills")] None
    [El "h2" [] None [Text "Mes Compétences"];
     El "p" [] None [Text "Maîtrise complète des technologies web modernes, des frameworks backend aux outils de développement et de productivité professionnelle."];
     El "div" [] None
       (map (fun c => El "div" [] None [El "h3" [] None [Text (cat_title c)];
                                        El "div" [] None (map skill_view (cat_skills c))])
            skillCategories);
     El "h3" [] None [Text "Technologies & Outils Maîtrisés"];
     El "div" [] None
       (map (fun i => skills_chip i (nth i skills_technologies "")) (seq 0 (length skills_technologies)))].

(** ** Contact *)

(** [value={formData.k}]: an absent key leaves the input uncontrolled. *)
Definition value_attr (s : contact) (k : string) : list (string * string) :=
  match obj_get (formData s) k with Some v => [("value", v)] | None => [] end.

(** A labelled field of the form. *)
Definition form_input (s : contact) (tag ty k label : string) (extra : list (string * string))
  (placeholder : string) : node contact_event :=
  El "div" [] None
    [El "label" [("htmlFor", k)] None [Text label];
     El tag ((if String.eqb ty "" then [] else [("type", ty)]) ++
             [("id", k); ("name", k)] ++ value_attr s k ++
             [("required", "true")] ++ extra ++ [("placeholder", placeholder)]) None []].

(** The form while [!isSubmitted]; the submit button dispatches the
    form's [onSubmit]. *)
Definition contact_form (s : contact) : node contact_event :=
  El "form" [] None
    [El "div" [] None
       [form_input s "input" "text" "name" "Nom complet *" [] "Votre nom";
        form_input s "input" "email" "email" "Email *" [] "votre.email@exemple.com"];
     form_input s "input" "text" "subject" "Sujet *" [] "De quoi souhaitez-vous parler ?";
     form_input s "textarea" "" "message" "Message *" [("rows", "6")]
       "Décrivez votre projet, vos besoins ou toute question que vous pourriez avoir...";
     El "button" [("type", "submit")] (Some CSubmit) [Text "Envoyer le message"]].

Definition contact_success : node contact_event :=
  El "div" [] None
    [El "h3" [] None [Text "Message envoyé !"];
     El "p" [] None [Text "Merci pour votre message. Je vous répondrai dans les plus brefs délais."]].

Definition contact_view (s : contact) : node contact_event :=
  El "section" [("id", "contact")] None
    [El "h2" [] None [Text "Contactez-moi"];
     El "h3" [] None [Text "Restons en contact"];
     El "p" [] None [Text "Je suis toujours intéressé par de nouveaux défis et opportunités. Que ce soit pour un projet freelance, une collaboration ou simplement pour échanger sur le développement web, contactez-moi !"];
     El "div" [] None
       (map (fun info => El "a" [("href", ci_href info)] None
                           [El "div" [] None [El "h4" [] None [Text (ci_title info)];
                                              El "p" [] None [Text (ci_details info)]]])
            contactInfo);
     El "span" [] None [Text "Disponible pour de nouveaux projets"];
     El "p" [] None [Text "Temps de réponse moyen : 24h"];
     if negb (isSubmitted s) then contact_form s else contact_success].

(** ** Projects *)

(** A card of [projectsData.map]; the "Démo" button dispatches
    [DemoButton] ([demo_click]). *)
Definition project_card_view (p : project) : node card_button :=
  El "div" [] None
    [El "h3" [] None [Text (pr_title p)];
     El "p" [] None [Text (pr_description p)];
     El "div" [] None (map (fun f => El "div" [] None [El "span" [] None [Text f]]) (pr_features p));
     El "div" [] None (map (fun t => El "div" [] None [Text t]) (pr_technologies p));
     El "div" [] None
       ((if truthy (pr_demoUrl p) then [El "button" [] (Some DemoButton) [Text "Démo"]] else []) ++
        (if truthy (pr_githubUrl p)
         then [El "a" [("href", GITHUB_PROFILE); ("target", "_blank"); ("rel", "noopener noreferrer")]
                 None [Text "GitHub"]]
         else []))].

Definition projects_view : node card_button :=
  El "section" [("id", "projects")] None
    [El "h2" [] None [El "span" [] None [Text "Mes Projets"]];
     El "p" [] None [Text "Découvrez une sélection de mes projets récents qui démontrent mes compétences en développement web et ma capacité à créer des solutions innovantes."];
     El "div" [] None (map project_card_view projectsData);
     El "div" [] None
       [El "span" [] None [Text "Plus de projets sur GitHub"];
        El "a" [("href", portfolio_link); ("target", "_blank"); ("rel", "noopener noreferrer")] None
          [Text "Voir GitHub"]]].

(** ** Footer *)

(** A footer link's [onClick] ([footer_click]) or [scrollToTop]. *)
Inductive footer_event : Type :=
| FNav (link : string * string)
| FTop.

Definition footer_services : list string :=
  ["Développement Laravel/PHP"; "Applications React"; "APIs Node.js/Express";
   "Consulting Technique"; "Bases de données MySQL/MongoDB"].

(** The footer in the year [currentYear] ([new Date().getFullYear()]). *)
Definition footer_view (currentYear : nat) : node footer_event :=
  El "footer" [] None
    [El "div" [] None [Text "MAROUANE EL HAMDAOUI"];
     El "p" [] None [Text "Développeur Full Stack spécialisé en Laravel, PHP, React et Node.js. Je crée des solutions web modernes et performantes avec une expertise technique approfondie."];
     El "div" [] None
       (map (fun sl => El "a" [("href", fst sl); ("aria-label", snd sl)] None []) footer_social_links);
     El "h4" [] None [Text "Navigation"];
     El "nav" [] None
       (map (fun link => El "button" [] (Some (FNav link)) [Text (fst link)]) footer_links);
     El "h4" [] None [Text "Services"];
     El "div" [] None (map (fun sv => El "div" [] None [Text sv]) footer_services);
     El "span" [] None [Text "Fait avec"];
     El "span" [] None [Text "et"];
     El "span" [] None [Text "•"];
     El "span" [] None [Text ("© " ++ nat_str currentYear ++ " MAROUANE EL HAMDAOUI. Tous droits réservés.")%string];
     El "button" [("aria-label", "Retour en haut")] (Some FTop) []].

(** ** The links of the page *)

(** [https://] links leave the site. *)
Definition external (a : list (string * string)) : bool :=
  match attr "href" a with Some h => String.prefix "https://" h | None => false end.

(** The contact section's links do not depend on its state. *)
Lemma contact_view_links (s : contact) :
  links (contact_view s) = map (fun info => [("href", ci_href info)]) contactInfo.
Proof. unfold contact_view. destruct (isSubmitted s); reflexivity. Qed.

(** Neither do the footer's on the year. *)
Lemma footer_view_links (y : nat) :
  links (footer_view y) = map (fun sl => [("href", fst sl); ("aria-label", snd sl)]) footer_social_links.
Proof. reflexivity. Qed.

(** Every link of the page, whatever the states of the hero and of the
    contact form and the year. *)
Definition page_links (hs : Hero.hero) (cs : contact) (y : nat) : list (list (string * string)) :=
  links (hero_view hs) ++ links about_view ++ links skills_view ++ links projects_view ++
  links (contact_view cs) ++ links (footer_view y).

Lemma page_links_eq (hs : Hero.hero) (cs : contact) (y : nat) :
  page_links hs cs y = page_links (Hero.initial_hero) initial_contact 2025.
Proof. unfold page_links. now rewrite !hero_view_links, !contact_view_links, !footer_view_links. Qed.

(** C32: no link of the page is a [target="_blank"] link without
    [rel="noopener noreferrer"], and every link that leaves the site opens
    in a new tab: in every state of the hero and of the contact form and in
    every year. *)
Theorem blank_links_are_safe (hs : Hero.hero) (cs : contact) (y : nat) :
  forall a, In a (page_links hs cs y) ->
  unsafe_blank a = false /\ (external a = true -> attr "target" a = Some "_blank").
Proof.
  intros a Ha. rewrite page_links_eq in Ha.
  apply (forallb_In (fun a => negb (unsafe_blank a) &&
                              (negb (external a) || match attr "target" a with
                                                    | Some t => String.eqb t "_blank"
                                                    | None => false end))) in Ha;
    [|vm_compute; reflexivity].
  apply andb_prop in Ha as [H1 H2]. apply Bool.negb_true_iff in H1. split; [exact H1|].
  intros He. rewrite He in H2. destruct (attr "target" a); [|discriminate].
  apply String.eqb_eq in H2. now subst.
Qed.

Lemma blank_links_are_safe_witness :
  let a := [("href", "https://github.com/Mar11wane-git"); ("target", "_blank");
            ("rel", "noopener noreferrer"); ("aria-label", "GitHub")] in
  In a (page_links Hero.initial_hero initial_contact 2025) /\
  unsafe_blank a = false /\ (external a = true -> attr "target" a = Some "_blank").
Proof.
  cbv zeta.
  assert (H : In [("href", "https://github.com/Mar11wane-git"); ("target", "_blank");
                  ("rel", "noopener noreferrer"); ("aria-label", "GitHub")]
                 (page_links Hero.initial_hero initial_contact 2025))
    by (apply in_or_app; left; rewrite hero_view_links; left; reflexivity).
  split; [exact H|]. exact (blank_links_are_safe _ _ _ _ H).
Defined.

(** C33 (finding): the page gives three different e-mail addresses, one
    per section that has a [mailto:] link, whatever the states and the
    year: the hero's, the contact section's and the footer's, which is a
    placeholder.  The footer's GitHub and LinkedIn icons link to ["#"]. *)
Theorem contact_addresses_disagree (hs : Hero.hero) (cs : contact) (y : nat) :
  mail_targets (hero_view hs) = ["marouane.elhamdaoui@gmail.com"] /\
  mail_targets (contact_view cs) = ["elhamdawimarwane@gmail.com"] /\
  mail_targets (footer_view y) = ["contact@exemple.com"] /\
  NoDup (mail_targets (hero_view hs) ++ mail_targets (contact_view cs) ++
         mail_targets (footer_view y)) /\
  In [("href", "#"); ("aria-label", "GitHub")] (links (footer_view y)) /\
  In [("href", "#"); ("aria-label", "LinkedIn")] (links (footer_view y)).
Proof.
  unfold mail_targets. rewrite hero_view_links, contact_view_links, footer_view_links.
  repeat split; try reflexivity; [|left; reflexivity|right; left; reflexivity].
  apply (nodupb_NoDup String.eqb); [exact String.eqb_eq|reflexivity].
Qed.

(** ** The staggered animations *)

(** C37 (finding): the staggered entrance of the technology chips of
    About and Skills does not happen.  Each chip sets [animationDelay] to
    its index times 100 ms (About) or 50 ms (Skills), then the [animation]
    shorthand, which names no delay and so resets it: every element of the
    two sections that sets an [animationDelay] ends with a delay of [0s],
    the seventh chip of About included, which asks for [700ms]. *)
Theorem stagger_delays_overridden :
  (forall a, In a (all_elements about_view ++ all_elements skills_view) ->
   attr "style.animationDelay" a <> None -> css_animation_delay a = "0s") /\
  (exists a, In a (all_elements about_view) /\
             attr "style.animationDelay" a = Some "700ms" /\ css_animation_delay a = "0s").
Proof.
  split.
  - intros a Ha Hd.
    apply (forallb_In (fun a => match attr "style.animationDelay" a with
                                | Some _ => String.eqb (css_animation_delay a) "0s"
                                | None => true end)) in Ha; [|vm_compute; reflexivity].
    destruct (attr "style.animationDelay" a); [|contradiction]. now apply String.eqb_eq.
  - exists [("style.animationDelay", "700ms"); ("style.animation", "fadeInUp 0.6s ease-out forwards")].
    split; [|split; reflexivity].
    vm_compute. repeat (try (left; reflexivity); right).
Qed.

(** ** The contact form on screen *)

(** The form controls of a tree ([input], [textarea]), in document order. *)
Definition controls {E} (n : node E) : list (list (string * string)) :=
  map snd (filter (fun e => String.eqb (fst e) "input" || String.eqb (fst e) "textarea")
                  (tagged n)).

Lemma contact_form_controls (s : contact) (v1 v2 v3 v4 : string) :
  formData s = [("name", v1); ("email", v2); ("subject", v3); ("message", v4)] ->
  isSubmitted s = false ->
  map (fun a => (attr "name" a, attr "value" a)) (controls (contact_view s)) =
  [(Some "name", Some v1); (Some "email", Some v2); (Some "subject", Some v3);
   (Some "message", Some v4)].
Proof. intros Hf Hs. unfold contact_view, contact_form, form_input, value_attr. now rewrite Hs, Hf. Qed.

(** C4: the contact form is controlled by [formData] in every state the
    page reaches.  After any events from the inputs, the submit button,
    the timers, time passing or the unmount, starting from the initial
    state: while the form shows, its controls are the entries of
    [formData] in order, each named by its key and showing its value (never
    [undefined], which would make the input uncontrolled), and the submit
    button is there; once submitted, the section shows the success message
    and no control and no button. *)
Theorem contact_view_controlled (valid_email : string -> bool) (evs : list contact_event) :
  Forall page_event evs ->
  let s := contact_run valid_email evs initial_contact in
  (isSubmitted s = false ->
   map (fun a => (attr "name" a, attr "value" a)) (controls (contact_view s)) =
   map (fun kv => (Some (fst kv), Some (snd kv))) (formData s) /\
   In CSubmit (clicks (contact_view s))) /\
  (isSubmitted s = true ->
   controls (contact_view s) = [] /\ clicks (contact_view s) = [] /\
   In "Message envoyé !" (texts (contact_view s))).
Proof.
  intros Hevs s.
  destruct (form_shape_values s (contact_run_shape valid_email evs initial_contact Hevs eq_refl))
    as (v1 & v2 & v3 & v4 & Hf).
  split; intros Hs.
  - rewrite (contact_form_controls s v1 v2 v3 v4 Hf Hs), Hf. split; [reflexivity|].
    unfold contact_view. rewrite Hs. cbn. tauto.
  - unfold contact_view. rewrite Hs. cbn.
    split; [reflexivity|]. split; [reflexivity|]. repeat (try (left; reflexivity); right).
Qed.

Lemma contact_view_controlled_witness :
  let evs := [CChange "name" "Sara"; CChange "email" "sara@exemple.ma"] in
  Forall page_event evs /\
  let s := contact_run (fun _ => true) evs initial_contact in
  (isSubmitted s = false ->
   map (fun a => (attr "name" a, attr "value" a)) (controls (contact_view s)) =
   map (fun kv => (Some (fst kv), Some (snd kv))) (formData s) /\
   In CSubmit (clicks (contact_view s))) /\
  (isSubmitted s = true ->
   controls (contact_view s) = [] /\ clicks (contact_view s) = [] /\
   In "Message envoyé !" (texts (contact_view s))).
Proof.
  cbv zeta.
  assert (He : Forall page_event [CChange "name" "Sara"; CChange "email" "sara@exemple.ma"])
    by (repeat constructor; cbn; tauto).
  split; [exact He|]. exact (contact_view_controlled (fun _ => true) _ He).
Defined.
